(** * Code Shelf: the inventory and circulation engine of [main.py]

    A shallow embedding of the containers of [main.py] ([LinkedList],
    [Stack], [Queue], [HashTable]) and of the engine [CodeShelfLibrary],
    followed by the properties of the engine.

    Modelling choices.
    - Python objects that are mutated through more than one reference live
      in a store: [Book] objects (shared by the linked list, the hash table
      and the borrow records) and [BorrowRecord] objects (shared by the
      history stack and the [borrowed_books] dict).  A reference is the
      index of the object in its store; allocation appends to the store.
    - [datetime.now()] is an input: every operation that reads the clock
      takes the values read as arguments.
    - Python's builtin [hash] on [str] is fixed within a process but not
      specified; it is a parameter ([PyHash]).
    - A [str] is held as the [string] of its UTF-8 bytes.  Equality, [<]
      (the order of code points) and [in] on [str] are then equality, the
      lexicographic order of [String.compare] and the search for a run of
      bytes.
    - [str.lower] is a builtin whose case tables cover all of Unicode; it
      is a parameter ([PyLower]) of which only the ASCII part is known: on
      ASCII text it turns [A-Z] into [a-z] and leaves every other
      character.
    - [print] output is not part of the state; where a claim is about what
      is printed ([display_borrow_history], the waitlist notice), the
      function returns what it prints. *)

From Stdlib Require Import ZArith String Ascii List Sorted Lia.
From stdpp Require Import gmap strings list fin_maps.

Local Open Scope Z_scope.
Local Open Scope string_scope.
Local Open Scope list_scope.

(** References into a store, and clock values. *)
Abbreviation ref := nat (only parsing).
Abbreviation datetime := Z (only parsing).

(** Python's builtin [hash], restricted to [str]. *)
Class PyHash := py_hash : string -> Z.

(** ** class Book *)
Module Book.

Record t := mk {
  book_id : string;
  title : string;
  author : string;
  year : Z;
  is_borrowed : bool;
  borrowed_by : option string;
  borrow_date : option datetime
}.

(** [Book.__init__] *)
Definition init (book_id title author : string) (year : Z) : t :=
  {| book_id := book_id; title := title; author := author; year := year;
     is_borrowed := false; borrowed_by := None; borrow_date := None |}.

(** The three assignments of [borrow_book] on a book. *)
Definition set_borrowed (borrower : string) (now : datetime) (b : t) : t :=
  {| book_id := book_id b; title := title b; author := author b;
     year := year b;
     is_borrowed := true; borrowed_by := Some borrower;
     borrow_date := Some now |}.

(** The three assignments of [return_book] on a book. *)
Definition set_returned (b : t) : t :=
  {| book_id := book_id b; title := title b; author := author b;
     year := year b;
     is_borrowed := false; borrowed_by := None; borrow_date := None |}.

#[global] Instance inhabited : Inhabited t := populate (init "" "" "" 0).

End Book.

(** The store of [Book] objects. *)
Abbreviation book_store := (list Book.t) (only parsing).

(** ** [str.lower] and the order on [str] *)

Definition lower_ascii (c : ascii) : ascii :=
  let n := nat_of_ascii c in
  if ((65 <=? n)%nat && (n <=? 90)%nat)%bool then ascii_of_nat (n + 32) else c.

(** What [str.lower] does to ASCII text. *)
Fixpoint ascii_lower (s : string) : string :=
  match s with
  | EmptyString => EmptyString
  | String c s' => String (lower_ascii c) (ascii_lower s')
  end.

(** The text is ASCII: every byte of it is below 128. *)
Fixpoint is_ascii (s : string) : bool :=
  match s with
  | EmptyString => true
  | String c s' => ((nat_of_ascii c <? 128)%nat && is_ascii s')%bool
  end.

(** Python's builtin [str.lower].  Outside ASCII it follows the case
    tables of Unicode (it turns the Cyrillic or Greek capitals into small
    letters, too), which are not modelled: nothing is assumed there. *)
Class PyLower := {
  lower : string -> string;
  lower_ascii_text : forall s, is_ascii s = true -> lower s = ascii_lower s
}.

(** Two ASCII texts that differ at most in the case of their letters. *)
Definition same_char_ignoring_case (c d : ascii) : bool :=
  let m := nat_of_ascii c in
  let n := nat_of_ascii d in
  ((m <? 128)%nat && (n <? 128)%nat
   && ((m =? n)%nat
       || ((65 <=? m)%nat && (m <=? 90)%nat && (n =? m + 32)%nat)
       || ((65 <=? n)%nat && (n <=? 90)%nat && (m =? n + 32)%nat)))%bool.

Fixpoint same_ignoring_case (s t : string) : bool :=
  match s, t with
  | EmptyString, EmptyString => true
  | String c s', String d t' =>
      (same_char_ignoring_case c d && same_ignoring_case s' t')%bool
  | _, _ => false
  end.

(** [sub in s] on [str]: [sub] occurs in [s] as a contiguous run, starting
    at the front of [s] or further on. *)
Fixpoint str_in (sub s : string) : bool :=
  if String.prefix sub s then true
  else match s with
       | EmptyString => false
       | String _ s' => str_in sub s'
       end.

(** ** [list.sort(key=...)]

    [list.sort] is a builtin of the language: it sorts in place, compares
    keys with [<] only, and is stable.  Its model here is the stable
    insertion sort: an element is placed before the first element of the
    sorted tail whose key is not smaller than its own. *)
Section ListSort.
Context {A : Type} (key : A -> string).

Fixpoint sort_insert (x : A) (l : list A) : list A :=
  match l with
  | [] => [x]
  | y :: l' =>
      if String.ltb (key y) (key x) then y :: sort_insert x l'
      else x :: y :: l'
  end.

Fixpoint list_sort (l : list A) : list A :=
  match l with
  | [] => []
  | x :: l' => sort_insert x (list_sort l')
  end.

(** The order the sort establishes: keys do not decrease. *)
Definition key_le (x y : A) : Prop := String.leb (key x) (key y) = true.
End ListSort.

(** ** class LinkedList

    The chain of [Node]s from [head] is the list of the [data] references,
    head first; the nodes themselves are reachable from the list only. *)
Module LinkedList.

Record t := mk { head : list ref; size : Z }.

Definition init : t := {| head := []; size := 0 |}.

(** [current.data.book_id] *)
Definition id_of (h : book_store) (a : ref) : string :=
  Book.book_id (h !!! a).

(** [add_book]: walk to the last node and link the new node after it. *)
Definition add_book (l : t) (book : ref) : t :=
  {| head := head l ++ [book]; size := size l + 1 |}.

(** The [while current.next] loop of [remove_book]: [nodes] is the chain
    after [current]; the result is the chain after [current] once the
    first node with the id is unlinked, if there is one. *)
Fixpoint remove_next (h : book_store) (book_id : string) (nodes : list ref)
  : option (list ref) :=
  match nodes with
  | [] => None
  | n :: rest =>
      if String.eqb (id_of h n) book_id then Some rest
      else match remove_next h book_id rest with
           | Some rest' => Some (n :: rest')
           | None => None
           end
  end.

Definition remove_book (h : book_store) (l : t) (book_id : string)
  : bool * t :=
  match head l with
  | [] => (false, l)
  | first :: rest =>
      if String.eqb (id_of h first) book_id
      then (true, {| head := rest; size := size l - 1 |})
      else match remove_next h book_id rest with
           | Some rest' =>
               (true, {| head := first :: rest'; size := size l - 1 |})
           | None => (false, l)
           end
  end.

(** The loop of [search_by_id]. *)
Fixpoint search_nodes (h : book_store) (book_id : string) (nodes : list ref)
  : option ref :=
  match nodes with
  | [] => None
  | n :: rest =>
      if String.eqb (id_of h n) book_id then Some n
      else search_nodes h book_id rest
  end.

Definition search_by_id (h : book_store) (l : t) (book_id : string)
  : option ref :=
  search_nodes h book_id (head l).

Definition get_all_books (l : t) : list ref := head l.

(** The rebuild loop shared by the two sorts: [for book in books:
    self.add_book(book)]. *)
Definition rebuild (books : list ref) : t :=
  fold_left add_book books init.

Section WithLower.
Context {L : PyLower}.

Definition title_key (h : book_store) (a : ref) : string :=
  lower (Book.title (h !!! a)).

Definition author_key (h : book_store) (a : ref) : string :=
  lower (Book.author (h !!! a)).

Definition sort_by_title (h : book_store) (l : t) : t :=
  match head l with
  | [] | [_] => l
  | _ => rebuild (list_sort (title_key h) (get_all_books l))
  end.

Definition sort_by_author (h : book_store) (l : t) : t :=
  match head l with
  | [] | [_] => l
  | _ => rebuild (list_sort (author_key h) (get_all_books l))
  end.

(** The loop of [search_by_title]; [results] is the list built so far by
    [results.append]. *)
Fixpoint search_title_nodes (h : book_store) (title : string)
    (nodes : list ref) (results : list ref) : list ref :=
  match nodes with
  | [] => results
  | n :: rest =>
      if str_in (lower title) (lower (Book.title (h !!! n)))
      then search_title_nodes h title rest (results ++ [n])
      else search_title_nodes h title rest results
  end.

Definition search_by_title (h : book_store) (l : t) (title : string)
  : list ref :=
  search_title_nodes h title (head l) [].
End WithLower.

End LinkedList.

(** ** class Stack *)
Module Stack.
Section Stack.
Context {A : Type}.

Record t := mk { items : list A }.

Definition init : t := {| items := [] |}.
Definition push (s : t) (item : A) : t := {| items := items s ++ [item] |}.
Definition is_empty (s : t) : bool :=
  match items s with [] => true | _ => false end.
Definition peek (s : t) : option A := last (items s).
Definition size (s : t) : nat := length (items s).
Definition get_all_items (s : t) : list A := items s.
(** [pop]: [items.pop()] takes the last item; [None] on the empty stack. *)
Definition pop (s : t) : option A * t :=
  if is_empty s then (None, s)
  else (last (items s), {| items := removelast (items s) |}).
End Stack.
Arguments t : clear implicits.
End Stack.

(** ** class Queue *)
Module Queue.
Section Queue.
Context {A : Type}.

Record t := mk { items : list A }.

Definition init : t := {| items := [] |}.
Definition enqueue (q : t) (item : A) : t :=
  {| items := items q ++ [item] |}.
(** [dequeue]: [items.pop(0)], or [None] on the empty queue. *)
Definition dequeue (q : t) : option A * t :=
  match items q with
  | [] => (None, q)
  | x :: rest => (Some x, {| items := rest |})
  end.
Definition is_empty (q : t) : bool :=
  match items q with [] => true | _ => false end.
Definition peek (q : t) : option A := hd_error (items q).
Definition size (q : t) : nat := length (items q).
Definition get_all_items (q : t) : list A := items q.
End Queue.
Arguments t : clear implicits.
End Queue.

(** ** class HashTable

    A bucket is a Python list of two-element lists [[key, value]]; the
    values stored by the engine are references to [Book]s. *)
Module HashTable.

Abbreviation bucket := (list (string * ref)) (only parsing).

Record t := mk { size : Z; table : list (list (string * ref)) }.

(** [HashTable.__init__] with the default [size=100]. *)
Definition init : t :=
  {| size := 100; table := replicate 100 [] |}.

Section WithHash.
Context `{PyHash}.

(** [_hash]: Python's [%] with a positive right operand is [Z.modulo]. *)
Definition _hash (ht : t) (key : string) : Z := py_hash key mod size ht.

Definition slot (ht : t) (key : string) : nat := Z.to_nat (_hash ht key).

(** The loop of [insert] on one bucket: overwrite the value of the first
    item with the key, or append a new item. *)
Fixpoint bucket_insert (key : string) (value : ref) (b : bucket) : bucket :=
  match b with
  | [] => [(key, value)]
  | (k, v) :: rest =>
      if String.eqb k key then (k, value) :: rest
      else (k, v) :: bucket_insert key value rest
  end.

Fixpoint bucket_get (key : string) (b : bucket) : option ref :=
  match b with
  | [] => None
  | (k, v) :: rest =>
      if String.eqb k key then Some v else bucket_get key rest
  end.

(** The loop of [delete] on one bucket: [None] when no item has the
    key, else the bucket without the first such item. *)
Fixpoint bucket_delete (key : string) (b : bucket) : option bucket :=
  match b with
  | [] => None
  | (k, v) :: rest =>
      if String.eqb k key then Some rest
      else match bucket_delete key rest with
           | Some rest' => Some ((k, v) :: rest')
           | None => None
           end
  end.

Definition insert (ht : t) (key : string) (value : ref) : t :=
  let hash_key := slot ht key in
  {| size := size ht;
     table := <[hash_key := bucket_insert key value (table ht !!! hash_key)]>
                (table ht) |}.

Definition get (ht : t) (key : string) : option ref :=
  bucket_get key (table ht !!! slot ht key).

Definition delete (ht : t) (key : string) : bool * t :=
  let hash_key := slot ht key in
  match bucket_delete key (table ht !!! hash_key) with
  | Some b' =>
      (true, {| size := size ht; table := <[hash_key := b']> (table ht) |})
  | None => (false, ht)
  end.
End WithHash.

End HashTable.

(** ** class BorrowRecord *)
Module BorrowRecord.
Record t := mk {
  book : ref;
  borrower : string;
  borrow_date : datetime;
  return_date : option datetime
}.

Definition init (book : ref) (borrower : string) (borrow_date : datetime) : t :=
  {| book := book; borrower := borrower; borrow_date := borrow_date;
     return_date := None |}.

(** [record.return_date = now] *)
Definition set_return_date (now : datetime) (r : t) : t :=
  {| book := book r; borrower := borrower r; borrow_date := borrow_date r;
     return_date := Some now |}.

#[global] Instance inhabited : Inhabited t := populate (init 0%nat "" 0).
End BorrowRecord.

(** ** class WaitlistEntry *)
Module WaitlistEntry.
Record t := mk {
  book_id : string;
  user_name : string;
  request_date : datetime
}.
End WaitlistEntry.

(** ** class CodeShelfLibrary *)
Module CodeShelfLibrary.

(** The five attributes of the engine, and the two object stores. *)
Record t := mk {
  book_objs : list Book.t;
  record_objs : list BorrowRecord.t;
  books : LinkedList.t;
  borrow_history : Stack.t ref;
  waitlist : Queue.t WaitlistEntry.t;
  book_hash_table : HashTable.t;
  borrowed_books : gmap string ref
}.

Definition init : t :=
  {| book_objs := []; record_objs := [];
     books := LinkedList.init; borrow_history := Stack.init;
     waitlist := Queue.init; book_hash_table := HashTable.init;
     borrowed_books := ∅ |}.

Definition set_book_objs (s : t) (v : list Book.t) : t :=
  mk v (record_objs s) (books s) (borrow_history s) (waitlist s)
     (book_hash_table s) (borrowed_books s).
Definition set_record_objs (s : t) (v : list BorrowRecord.t) : t :=
  mk (book_objs s) v (books s) (borrow_history s) (waitlist s)
     (book_hash_table s) (borrowed_books s).
Definition set_books (s : t) (v : LinkedList.t) : t :=
  mk (book_objs s) (record_objs s) v (borrow_history s) (waitlist s)
     (book_hash_table s) (borrowed_books s).
Definition set_borrow_history (s : t) (v : Stack.t ref) : t :=
  mk (book_objs s) (record_objs s) (books s) v (waitlist s)
     (book_hash_table s) (borrowed_books s).
Definition set_waitlist (s : t) (v : Queue.t WaitlistEntry.t) : t :=
  mk (book_objs s) (record_objs s) (books s) (borrow_history s) v
     (book_hash_table s) (borrowed_books s).
Definition set_book_hash_table (s : t) (v : HashTable.t) : t :=
  mk (book_objs s) (record_objs s) (books s) (borrow_history s) (waitlist s)
     v (borrowed_books s).
Definition set_borrowed_books (s : t) (v : gmap string ref) : t :=
  mk (book_objs s) (record_objs s) (books s) (borrow_history s) (waitlist s)
     (book_hash_table s) v.

(** The first loop of the waitlist check of [return_book]: [pending] is
    what is left of [self.waitlist]; every iteration dequeues its front
    entry.  A [WaitlistEntry] is always truthy, so [not found_waiting]
    holds exactly while [found_waiting] is [None]. *)
Fixpoint scan_waitlist (book_id : string) (pending : list WaitlistEntry.t)
    (temp_queue : Queue.t WaitlistEntry.t)
    (found_waiting : option WaitlistEntry.t)
  : Queue.t WaitlistEntry.t * option WaitlistEntry.t :=
  match pending with
  | [] => (temp_queue, found_waiting)
  | entry :: rest =>
      if (String.eqb (WaitlistEntry.book_id entry) book_id
          && negb (bool_decide (is_Some found_waiting)))%bool
      then scan_waitlist book_id rest temp_queue (Some entry)
      else scan_waitlist book_id rest (Queue.enqueue temp_queue entry)
             found_waiting
  end.

(** The second loop: move [temp_queue] back, front first. *)
Fixpoint restore_waitlist (pending : list WaitlistEntry.t)
    (waitlist : Queue.t WaitlistEntry.t) : Queue.t WaitlistEntry.t :=
  match pending with
  | [] => waitlist
  | entry :: rest => restore_waitlist rest (Queue.enqueue waitlist entry)
  end.

(** The block under [# Check waitlist]: the entry whose notice is printed,
    if any, and the waitlist afterwards. *)
Definition check_waitlist (waitlist : Queue.t WaitlistEntry.t)
    (book_id : string)
  : option WaitlistEntry.t * Queue.t WaitlistEntry.t :=
  if Queue.is_empty waitlist then (None, waitlist)
  else
    let '(temp_queue, found_waiting) :=
      scan_waitlist book_id (Queue.items waitlist) Queue.init None in
    (found_waiting, restore_waitlist (Queue.items temp_queue) Queue.init).

(** The records listed by [display_borrow_history], in the order they are
    printed: [reversed(records)]. *)
Definition display_borrow_history (s : t) : list BorrowRecord.t :=
  let records := Stack.get_all_items (borrow_history s) in
  (λ record, record_objs s !!! record) <$> reverse records.

(** [display_all_books]: the sort it triggers; the listing is printed and
    leaves no trace in the state. *)
Definition display_all_books {L : PyLower} (s : t) (sort_by : string) : t :=
  if String.eqb (lower sort_by) "title"
  then set_books s (LinkedList.sort_by_title (book_objs s) (books s))
  else if String.eqb (lower sort_by) "author"
  then set_books s (LinkedList.sort_by_author (book_objs s) (books s))
  else s.

Section WithHash.
Context `{PyHash} {L : PyLower}.

Definition add_book (s : t) (book_id title author : string) (year : Z)
  : bool * t :=
  match LinkedList.search_by_id (book_objs s) (books s) book_id with
  | Some _ => (false, s)
  | None =>
      let book := length (book_objs s) in
      let s := set_book_objs s
                 (book_objs s ++ [Book.init book_id title author year]) in
      let s := set_books s (LinkedList.add_book (books s) book) in
      let s := set_book_hash_table s
                 (HashTable.insert (book_hash_table s) book_id book) in
      (true, s)
  end.

Definition remove_book (s : t) (book_id : string) : bool * t :=
  match LinkedList.search_by_id (book_objs s) (books s) book_id with
  | None => (false, s)
  | Some book =>
      if Book.is_borrowed (book_objs s !!! book) then (false, s)
      else
        let s := set_books s
                   (LinkedList.remove_book (book_objs s) (books s) book_id).2 in
        let s := set_book_hash_table s
                   (HashTable.delete (book_hash_table s) book_id).2 in
        (true, s)
  end.

Definition search_by_id (s : t) (book_id : string) : option ref :=
  HashTable.get (book_hash_table s) book_id.

(** [borrow_book]; [now1] and [now2] are the two readings of the clock
    (the waitlist entry, like the book, gets the first one). *)
Definition borrow_book (s : t) (book_id borrower : string)
    (now1 now2 : datetime) : bool * t :=
  match search_by_id s book_id with
  | None => (false, s)
  | Some book =>
      if Book.is_borrowed (book_objs s !!! book) then
        let waitlist_entry := WaitlistEntry.mk book_id borrower now1 in
        (false, set_waitlist s (Queue.enqueue (waitlist s) waitlist_entry))
      else
        let s := set_book_objs s
                   (alter (Book.set_borrowed borrower now1) book
                      (book_objs s)) in
        let record := length (record_objs s) in
        let s := set_record_objs s
                   (record_objs s ++ [BorrowRecord.init book borrower now2]) in
        let s := set_borrow_history s
                   (Stack.push (borrow_history s) record) in
        let s := set_borrowed_books s
                   (<[book_id := record]> (borrowed_books s)) in
        (true, s)
  end.

(** [return_book]; the second component is the entry named by the
    printed notice, when one is printed. *)
Definition return_book (s : t) (book_id : string) (now : datetime)
  : bool * option WaitlistEntry.t * t :=
  match search_by_id s book_id with
  | None => (false, None, s)
  | Some book =>
      if negb (Book.is_borrowed (book_objs s !!! book))
      then (false, None, s)
      else
        let s := set_book_objs s
                   (alter Book.set_returned book (book_objs s)) in
        let s :=
          match borrowed_books s !! book_id with
          | Some record =>
              let s := set_record_objs s
                         (alter (BorrowRecord.set_return_date now) record
                            (record_objs s)) in
              set_borrowed_books s (delete book_id (borrowed_books s))
          | None => s
          end in
        let '(found_waiting, waitlist') :=
          check_waitlist (waitlist s) book_id in
        (true, found_waiting, set_waitlist s waitlist')
  end.

Definition search_by_title (s : t) (title : string) : list ref :=
  LinkedList.search_by_title (book_objs s) (books s) title.

(** The entries listed by [display_waitlist], front first: the user, the
    title shown for the book, the id and the date of the request. *)
Definition display_waitlist (s : t) : list (string * string * string * datetime) :=
  let entries := Queue.get_all_items (waitlist s) in
  (λ entry,
     let book := search_by_id s (WaitlistEntry.book_id entry) in
     let book_title :=
       match book with
       | Some book => Book.title (book_objs s !!! book)
       | None => "Unknown Book"
       end in
     (WaitlistEntry.user_name entry, book_title,
      WaitlistEntry.book_id entry, WaitlistEntry.request_date entry))
    <$> entries.

(** A call of the engine, and a sequence of calls from the empty
    library. *)
Inductive op :=
| AddBook (book_id title author : string) (year : Z)
| RemoveBook (book_id : string)
| BorrowBook (book_id borrower : string) (now1 now2 : datetime)
| ReturnBook (book_id : string) (now : datetime)
| DisplayAllBooks (sort_by : string).

Definition step (s : t) (o : op) : t :=
  match o with
  | AddBook book_id title author year =>
      (add_book s book_id title author year).2
  | RemoveBook book_id => (remove_book s book_id).2
  | BorrowBook book_id borrower now1 now2 =>
      (borrow_book s book_id borrower now1 now2).2
  | ReturnBook book_id now => (return_book s book_id now).2
  | DisplayAllBooks sort_by => display_all_books s sort_by
  end.

Definition run (ops : list op) : t := fold_left step ops init.
End WithHash.

End CodeShelfLibrary.

(** ** Predicates on library states *)
Section Predicates.
Import CodeShelfLibrary.
Context `{PyHash} {L : PyLower}.

(** The ids of the registry, in registry order. *)
Definition registry_ids (s : t) : list string :=
  LinkedList.id_of (book_objs s) <$> LinkedList.get_all_books (books s).

(** The registry holds the [Book] object [a], and its id is [k]. *)
Definition in_registry (s : t) (k : string) (a : ref) : Prop :=
  a ∈ LinkedList.get_all_books (books s)
  ∧ Book.book_id (book_objs s !!! a) = k.

(** The shape of the hash table: as many buckets as [size] says, and no
    key twice in a bucket. *)
Definition table_ok (ht : HashTable.t) : Prop :=
  0 < HashTable.size ht
  ∧ length (HashTable.table ht) = Z.to_nat (HashTable.size ht)
  ∧ Forall (λ b : list (string * ref), NoDup b.*1) (HashTable.table ht).

(** The invariant that ties the registry to the hash table. *)
Record consistent (s : t) : Prop := {
  c_table : table_ok (book_hash_table s);
  c_refs :
    Forall (λ a, (a < length (book_objs s))%nat)
      (LinkedList.get_all_books (books s));
  c_nodup : NoDup (registry_ids s);
  c_lookup : ∀ k,
    search_by_id s k = LinkedList.search_by_id (book_objs s) (books s) k
}.

(** No entry of the list waits for the id [k]. *)
Definition none_waiting (k : string) (l : list WaitlistEntry.t) : Prop :=
  Forall (λ e, WaitlistEntry.book_id e ≠ k) l.

(** The id of the book of a borrow record, and whether the record is
    open ([return_date] unset). *)
Definition record_id (s : t) (r : ref) : string :=
  Book.book_id (book_objs s !!! BorrowRecord.book (record_objs s !!! r)).

Definition is_open (s : t) (r : ref) : Prop :=
  BorrowRecord.return_date (record_objs s !!! r) = None.

(** The open borrow records of the history for the id [k]. *)
Definition open_events (s : t) (k : string) : list ref :=
  filter (λ r, is_open s r ∧ record_id s r = k)
    (Stack.get_all_items (borrow_history s)).

(** The invariant that ties the history and the open-loan table to the
    [is_borrowed] flags. *)
Record ledger_ok (s : t) : Prop := {
  l_records :
    Forall (λ r, (r < length (record_objs s))%nat
                 ∧ (BorrowRecord.book (record_objs s !!! r)
                    < length (book_objs s))%nat)
      (Stack.get_all_items (borrow_history s));
  l_nodup : NoDup (Stack.get_all_items (borrow_history s));
  l_open : ∀ r,
    r ∈ Stack.get_all_items (borrow_history s) → is_open s r →
    borrowed_books s !! record_id s r = Some r;
  l_table : ∀ k r,
    borrowed_books s !! k = Some r →
    r ∈ Stack.get_all_items (borrow_history s) ∧ is_open s r
    ∧ record_id s r = k
    ∧ ∃ a, in_registry s k a ∧ Book.is_borrowed (book_objs s !!! a) = true;
  l_borrowed : ∀ k a,
    in_registry s k a → Book.is_borrowed (book_objs s !!! a) = true →
    is_Some (borrowed_books s !! k)
}.
End Predicates.

(** ** Further predicates: the containers on their own, and the loans *)
Section MorePredicates.
Import CodeShelfLibrary.
Context `{PyHash} {L : PyLower}.

(** The [size] attribute of the linked list counts its nodes. *)
Definition size_ok (l : LinkedList.t) : Prop :=
  LinkedList.size l = Z.of_nat (length (LinkedList.get_all_books l)).

(** The three checkout attributes of a [Book] go together. *)
Definition flags_ok (b : Book.t) : Prop :=
  (Book.is_borrowed b = true ∧ is_Some (Book.borrowed_by b)
   ∧ is_Some (Book.borrow_date b))
  ∨ (Book.is_borrowed b = false ∧ Book.borrowed_by b = None
     ∧ Book.borrow_date b = None).

(** Every entry of the open-loan table is the record of the registry's
    book for that id, and names its current borrower. *)
Definition loan_ok (s : t) : Prop :=
  ∀ k r, borrowed_books s !! k = Some r →
    in_registry s k (BorrowRecord.book (record_objs s !!! r))
    ∧ Book.borrowed_by
        (book_objs s !!! BorrowRecord.book (record_objs s !!! r))
      = Some (BorrowRecord.borrower (record_objs s !!! r)).

(** [s'] is a later state of the history of [s]: no record is dropped or
    moved, what a record says of its loan never changes, and a return date
    once set stays. *)
Record history_extends (s s' : t) : Prop := {
  h_length : (length (record_objs s) ≤ length (record_objs s'))%nat;
  h_items :
    Stack.get_all_items (borrow_history s)
      `prefix_of` Stack.get_all_items (borrow_history s');
  h_loan : ∀ r, (r < length (record_objs s))%nat →
    BorrowRecord.book (record_objs s' !!! r)
    = BorrowRecord.book (record_objs s !!! r)
    ∧ BorrowRecord.borrower (record_objs s' !!! r)
      = BorrowRecord.borrower (record_objs s !!! r)
    ∧ BorrowRecord.borrow_date (record_objs s' !!! r)
      = BorrowRecord.borrow_date (record_objs s !!! r);
  h_closed : ∀ r t, (r < length (record_objs s))%nat →
    BorrowRecord.return_date (record_objs s !!! r) = Some t →
    BorrowRecord.return_date (record_objs s' !!! r) = Some t
}.

(** [s'] is a later state of the books of [s]: every [Book] object is
    still there, with the id, title, author and year it was created with. *)
Definition books_extend (s s' : t) : Prop :=
  (length (book_objs s) ≤ length (book_objs s'))%nat
  ∧ ∀ a, (a < length (book_objs s))%nat →
      Book.book_id (book_objs s' !!! a) = Book.book_id (book_objs s !!! a)
      ∧ Book.title (book_objs s' !!! a) = Book.title (book_objs s !!! a)
      ∧ Book.author (book_objs s' !!! a) = Book.author (book_objs s !!! a)
      ∧ Book.year (book_objs s' !!! a) = Book.year (book_objs s !!! a).

(** Calls on a [HashTable] alone, from [HashTable()], and the finite map
    they describe. *)
Inductive ht_op :=
| HtInsert (key : string) (value : ref)
| HtDelete (key : string).

Definition ht_step (ht : HashTable.t) (o : ht_op) : HashTable.t :=
  match o with
  | HtInsert key value => HashTable.insert ht key value
  | HtDelete key => (HashTable.delete ht key).2
  end.

Definition ht_run (ops : list ht_op) : HashTable.t :=
  fold_left ht_step ops HashTable.init.

Definition ht_map_step (m : gmap string ref) (o : ht_op) : gmap string ref :=
  match o with
  | HtInsert key value => <[key := value]> m
  | HtDelete key => delete key m
  end.

Definition ht_map (ops : list ht_op) : gmap string ref :=
  fold_left ht_map_step ops ∅.

(** The number of [[key, value]] items stored in the table. *)
Definition entry_count (ht : HashTable.t) : nat :=
  length (concat (HashTable.table ht)).
End MorePredicates.

(** ** Scenarios

    Concrete libraries, after [test_system.py]; the hash sends ids of the
    same length to the same bucket, so these ids collide. *)
Definition length_hash : PyHash := λ s, Z.of_nat (String.length s).

(** The texts of the scenarios are ASCII; on them [str.lower] is
    [ascii_lower]. *)
Definition ascii_text_lower : PyLower :=
  {| lower := ascii_lower; lower_ascii_text := λ _ _, eq_refl |}.

(** The engine on the scenarios. *)
Abbreviation scenario_run :=
  (CodeShelfLibrary.run (H := length_hash) (L := ascii_text_lower))
  (only parsing).

Definition demo_ops : list CodeShelfLibrary.op :=
  [ CodeShelfLibrary.AddBook "D001" "Zebra Book" "Zebra Author" 2020;
    CodeShelfLibrary.AddBook "D002" "Alpha Book" "Alpha Author" 2021;
    CodeShelfLibrary.AddBook "D003" "beta Book" "Beta Author" 2022;
    CodeShelfLibrary.AddBook "D004" "Gamma Book" "Gamma Author" 2023 ].

(** The four demo books, listed by title. *)
Definition demo_library : CodeShelfLibrary.t :=
  scenario_run
    (demo_ops ++ [CodeShelfLibrary.DisplayAllBooks "title"]).

(** The four demo books, [D001] borrowed. *)
Definition busy_ops : list CodeShelfLibrary.op :=
  demo_ops ++ [CodeShelfLibrary.BorrowBook "D001" "User_D001" 10 11].

Definition busy_library : CodeShelfLibrary.t :=
  scenario_run busy_ops.

(** Two books [A] and [B]; then borrow(A), borrow(B), return(A). *)
Definition two_books_ops : list CodeShelfLibrary.op :=
  [ CodeShelfLibrary.AddBook "A" "Title A" "Author A" 2001;
    CodeShelfLibrary.AddBook "B" "Title B" "Author B" 2002 ].

Definition history_library : CodeShelfLibrary.t :=
  scenario_run
    (two_books_ops
     ++ [ CodeShelfLibrary.BorrowBook "A" "u1" 1 2;
          CodeShelfLibrary.BorrowBook "B" "u2" 3 4;
          CodeShelfLibrary.ReturnBook "A" 5 ]).

(** The queue [(A,u1), (B,u2), (A,u3)]. *)
Definition waiting_A1 : WaitlistEntry.t := WaitlistEntry.mk "A" "u1" 1.
Definition waiting_B2 : WaitlistEntry.t := WaitlistEntry.mk "B" "u2" 2.
Definition waiting_A3 : WaitlistEntry.t := WaitlistEntry.mk "A" "u3" 3.
Definition three_waiting : Queue.t WaitlistEntry.t :=
  Queue.mk [waiting_A1; waiting_B2; waiting_A3].

(** A request that outlives its book: [A] is borrowed, two more users ask
    for it, it is returned (which serves the first of them) and removed. *)
Definition orphan_ops : list CodeShelfLibrary.op :=
  [ CodeShelfLibrary.AddBook "A" "Title A" "Author A" 2001;
    CodeShelfLibrary.BorrowBook "A" "u1" 1 2;
    CodeShelfLibrary.BorrowBook "A" "u2" 3 4;
    CodeShelfLibrary.BorrowBook "A" "u3" 5 6;
    CodeShelfLibrary.ReturnBook "A" 7;
    CodeShelfLibrary.RemoveBook "A" ].

Definition orphan_library : CodeShelfLibrary.t :=
  scenario_run orphan_ops.

(** [A] is back on the shelf while [u3] still waits for it. *)
Definition leftover_ops : list CodeShelfLibrary.op :=
  [ CodeShelfLibrary.AddBook "A" "Title A" "Author A" 2001;
    CodeShelfLibrary.BorrowBook "A" "u1" 1 2;
    CodeShelfLibrary.BorrowBook "A" "u2" 3 4;
    CodeShelfLibrary.BorrowBook "A" "u3" 5 6;
    CodeShelfLibrary.ReturnBook "A" 7 ].

Definition leftover_library : CodeShelfLibrary.t :=
  scenario_run leftover_ops.

(** [A] and [B] are both out, and the queue is [(A,u1), (B,u2), (A,u3)]. *)
Definition waiting_ops : list CodeShelfLibrary.op :=
  two_books_ops
  ++ [ CodeShelfLibrary.BorrowBook "A" "u0" 0 0;
       CodeShelfLibrary.BorrowBook "B" "v0" 0 0;
       CodeShelfLibrary.BorrowBook "A" "u1" 1 1;
       CodeShelfLibrary.BorrowBook "B" "u2" 2 2;
       CodeShelfLibrary.BorrowBook "A" "u3" 3 3 ].

Definition waiting_library : CodeShelfLibrary.t :=
  scenario_run waiting_ops.

(** Titles and authors that differ in case only. *)
Definition mixed_case_ops : list CodeShelfLibrary.op :=
  [ CodeShelfLibrary.AddBook "K1" "apple pie" "smith" 2001;
    CodeShelfLibrary.AddBook "K2" "Banana" "Jones" 2002;
    CodeShelfLibrary.AddBook "K3" "Apple Pie" "SMITH" 2003;
    CodeShelfLibrary.AddBook "K4" "APPLE PIE" "adams" 2004 ].

Definition mixed_case_library : CodeShelfLibrary.t :=
  scenario_run mixed_case_ops.

(** The first demo book once [User_D001] has borrowed it. *)
Definition zebra_borrowed : Book.t :=
  Book.mk "D001" "Zebra Book" "Zebra Author" 2020 true
    (Some "User_D001") (Some 10).

(** * Properties *)

(** ** The model on the scenarios *)

Example demo_sorted_by_title :
  LinkedList.get_all_books (CodeShelfLibrary.books demo_library)
  = [1; 2; 3; 0]%nat.
Proof. vm_compute. reflexivity. Qed.

Example demo_search :
  CodeShelfLibrary.search_by_id (H := length_hash) demo_library "D003"
  = Some 2%nat
  ∧ CodeShelfLibrary.search_by_id (H := length_hash) demo_library "D009"
    = None.
Proof. vm_compute. done. Qed.

Example lower_folds_case {L : PyLower} :
  lower "The Hobbit" = lower "the hoBBit"
  ∧ lower "The Hobbit" = "the hobbit".
Proof. by rewrite !lower_ascii_text. Qed.


(** ** [str.lower] on ASCII text *)
Section CaseFolding.
Context {L : PyLower}.

Lemma lower_title : lower "title" = "title".
Proof. by rewrite lower_ascii_text. Qed.

Lemma lower_author : lower "author" = "author".
Proof. by rewrite lower_ascii_text. Qed.

Lemma lower_empty : lower "" = "".
Proof. by rewrite lower_ascii_text. Qed.

Lemma same_char_ignoring_case_lower c d :
  same_char_ignoring_case c d = true →
  (nat_of_ascii c <? 128)%nat = true
  ∧ (nat_of_ascii d <? 128)%nat = true
  ∧ lower_ascii c = lower_ascii d.
Proof.
  intros E.
  pose proof (ascii_nat_embedding c) as Hc.
  pose proof (ascii_nat_embedding d) as Hd.
  unfold same_char_ignoring_case in E. unfold lower_ascii.
  set (m := nat_of_ascii c) in *. set (n := nat_of_ascii d) in *.
  clearbody m n. subst c d.
  apply andb_true_iff in E as [[Hm Hn]%andb_true_iff Hcase].
  split_and!; [done..|].
  destruct (65 <=? m)%nat eqn:E1, (m <=? 90)%nat eqn:E2,
    (65 <=? n)%nat eqn:E3, (n <=? 90)%nat eqn:E4; cbn [andb orb] in *;
    rewrite ?orb_false_r in Hcase;
    repeat match goal with
      | H : (_ || _)%bool = true |- _ => apply orb_true_iff in H as [H|H]
      | H : (_ =? _)%nat = true |- _ => apply Nat.eqb_eq in H
      | H : (_ <=? _)%nat = true |- _ => apply Nat.leb_le in H
      | H : (_ <=? _)%nat = false |- _ => apply Nat.leb_gt in H
      end;
    try discriminate; f_equal; lia.
Qed.

Lemma same_ignoring_case_ascii s t :
  same_ignoring_case s t = true →
  is_ascii s = true ∧ is_ascii t = true ∧ ascii_lower s = ascii_lower t.
Proof.
  revert t. induction s as [|c s IH]; intros [|d t]; simpl; try done.
  intros [Hcd Hst]%andb_true_iff.
  apply same_char_ignoring_case_lower in Hcd as (Hc & Hd & E).
  apply IH in Hst as (Hs & Ht & E').
  by rewrite Hc, Hd, Hs, Ht, E, E'.
Qed.

(** Texts that differ in the case of ASCII letters only have one
    lower-cased form. *)
Lemma same_ignoring_case_lower s t :
  same_ignoring_case s t = true → lower s = lower t.
Proof.
  intros (Hs & Ht & E)%same_ignoring_case_ascii.
  by rewrite (lower_ascii_text s Hs), (lower_ascii_text t Ht), E.
Qed.
End CaseFolding.

(** ** The order on keys *)

Lemma str_compare_refl (s : string) : String.compare s s = Eq.
Proof.
  pose proof (String.compare_antisym s s) as E.
  destruct (String.compare s s); simpl in E; congruence.
Qed.

Lemma str_compare_lt_trans (s1 s2 s3 : string) :
  String.compare s1 s2 = Lt → String.compare s2 s3 = Lt →
  String.compare s1 s3 = Lt.
Proof.
  revert s2 s3.
  induction s1 as [|a s1 IH]; intros [|b s2] [|c s3]; simpl; try done.
  unfold Ascii.compare.
  destruct (N.compare_spec (N_of_ascii a) (N_of_ascii b)) as [E1|L1|G1];
    try done;
    destruct (N.compare_spec (N_of_ascii b) (N_of_ascii c)) as [E2|L2|G2];
    try done; intros H1 H2.
  - rewrite E1, E2, N.compare_refl. eauto.
  - rewrite E1. apply N.compare_lt_iff in L2. by rewrite L2.
  - rewrite <- E2. apply N.compare_lt_iff in L1. by rewrite L1.
  - assert (N_of_ascii a < N_of_ascii c)%N as L by lia.
    apply N.compare_lt_iff in L. by rewrite L.
Qed.

Lemma str_leb_refl (s : string) : String.leb s s = true.
Proof. unfold String.leb. by rewrite str_compare_refl. Qed.

Lemma str_leb_trans (s1 s2 s3 : string) :
  String.leb s1 s2 = true → String.leb s2 s3 = true → String.leb s1 s3 = true.
Proof.
  unfold String.leb.
  destruct (String.compare s1 s2) eqn:E1; try done;
    destruct (String.compare s2 s3) eqn:E2; try done; intros _ _.
  - apply String.compare_eq_iff in E1, E2. subst.
    by rewrite str_compare_refl.
  - apply String.compare_eq_iff in E1. subst. by rewrite E2.
  - apply String.compare_eq_iff in E2. subst. by rewrite E1.
  - by rewrite (str_compare_lt_trans _ _ _ E1 E2).
Qed.

Lemma str_ltb_false_leb (s1 s2 : string) :
  String.ltb s1 s2 = false → String.leb s2 s1 = true.
Proof.
  unfold String.ltb, String.leb. rewrite (String.compare_antisym s2 s1).
  by destruct (String.compare s1 s2).
Qed.

Lemma str_ltb_true_leb (s1 s2 : string) :
  String.ltb s1 s2 = true → String.leb s1 s2 = true.
Proof.
  unfold String.ltb, String.leb. by destruct (String.compare s1 s2).
Qed.

Lemma str_ltb_true_ne (s1 s2 : string) : String.ltb s1 s2 = true → s1 ≠ s2.
Proof.
  unfold String.ltb. intros E ->. by rewrite str_compare_refl in E.
Qed.

(** ** [list.sort]: sorted, a permutation, stable *)
Section ListSortFacts.
Context {A : Type} (key : A → string).

Lemma sort_insert_perm x l : sort_insert key x l ≡ₚ x :: l.
Proof.
  induction l as [|y l IH]; simpl; [done|].
  destruct (String.ltb (key y) (key x)); [|done].
  rewrite IH. apply Permutation_swap.
Qed.

Lemma list_sort_perm l : list_sort key l ≡ₚ l.
Proof.
  induction l as [|x l IH]; simpl; [done|].
  by rewrite sort_insert_perm, IH.
Qed.

Lemma sort_insert_sorted x l :
  StronglySorted (key_le key) l → StronglySorted (key_le key) (sort_insert key x l).
Proof.
  induction 1 as [|y l Hs IH Hy]; simpl.
  - repeat constructor.
  - destruct (String.ltb (key y) (key x)) eqn:E.
    + constructor; [done|].
      rewrite sort_insert_perm. constructor; [|done].
      by apply str_ltb_true_leb.
    + apply str_ltb_false_leb in E.
      constructor; [by constructor|].
      constructor; [done|].
      eapply Forall_impl; [exact Hy|].
      intros z Hz. by eapply str_leb_trans.
Qed.

Lemma list_sort_sorted l : StronglySorted (key_le key) (list_sort key l).
Proof.
  induction l; simpl; [constructor | by apply sort_insert_sorted].
Qed.

(** Stability: the elements of any one key come out in the order they
    came in. *)
Lemma sort_insert_stable k x l :
  filter (λ a, key a = k) (sort_insert key x l)
  = filter (λ a, key a = k) (x :: l).
Proof.
  induction l as [|y l IH]; simpl; [done|].
  destruct (String.ltb (key y) (key x)) eqn:E; [|done].
  apply str_ltb_true_ne in E.
  rewrite (filter_cons _ y), IH, !filter_cons.
  repeat case_decide; congruence.
Qed.

Lemma list_sort_stable k l :
  filter (λ a, key a = k) (list_sort key l) = filter (λ a, key a = k) l.
Proof.
  induction l as [|x l IH]; simpl; [done|].
  rewrite sort_insert_stable, !filter_cons, IH. done.
Qed.
End ListSortFacts.

(** ** LinkedList *)
Section LinkedListFacts.
Import LinkedList.
Context {L : PyLower}.

Lemma fold_add_book books l :
  head (fold_left add_book books l) = head l ++ books
  ∧ size (fold_left add_book books l) = size l + Z.of_nat (length books).
Proof.
  revert l. induction books as [|b books IH]; intros l; simpl.
  - rewrite app_nil_r. split; [done | lia].
  - destruct (IH (add_book l b)) as [-> ->]. simpl.
    rewrite <- app_assoc. split; [done | lia].
Qed.

Lemma head_rebuild books : head (rebuild books) = books.
Proof. unfold rebuild. by rewrite (proj1 (fold_add_book _ _)). Qed.

Lemma head_sort_by_title h l :
  head (sort_by_title h l) = list_sort (title_key h) (head l).
Proof.
  unfold sort_by_title, get_all_books.
  destruct (head l) as [|a [|b r]] eqn:E; try by rewrite ?E.
  by rewrite head_rebuild.
Qed.

Lemma head_sort_by_author h l :
  head (sort_by_author h l) = list_sort (author_key h) (head l).
Proof.
  unfold sort_by_author, get_all_books.
  destruct (head l) as [|a [|b r]] eqn:E; try by rewrite ?E.
  by rewrite head_rebuild.
Qed.
End LinkedListFacts.

(** C8.  Sorting the registry by title, and likewise by author, puts the
    records in non-decreasing order of the lower-cased field, keeps exactly
    the records it had, and keeps the records of any one lower-cased key in
    their prior relative order.  The key folds case: the key of an ASCII
    field is the field with [A-Z] turned into [a-z], and fields that differ
    in the case of ASCII letters only have one key. *)
Theorem sort_stable_case_insensitive {L : PyLower}
    (h : list Book.t) (l : LinkedList.t) :
  let by_title := LinkedList.get_all_books (LinkedList.sort_by_title h l) in
  let by_author := LinkedList.get_all_books (LinkedList.sort_by_author h l) in
  (StronglySorted (key_le (LinkedList.title_key h)) by_title
   ∧ by_title ≡ₚ LinkedList.get_all_books l
   ∧ (∀ k, filter (λ a, LinkedList.title_key h a = k) by_title
           = filter (λ a, LinkedList.title_key h a = k)
               (LinkedList.get_all_books l))
   ∧ (∀ a, is_ascii (Book.title (h !!! a)) = true →
           LinkedList.title_key h a = ascii_lower (Book.title (h !!! a)))
   ∧ (∀ a b, same_ignoring_case (Book.title (h !!! a))
               (Book.title (h !!! b)) = true →
             LinkedList.title_key h a = LinkedList.title_key h b))
  ∧ (StronglySorted (key_le (LinkedList.author_key h)) by_author
     ∧ by_author ≡ₚ LinkedList.get_all_books l
     ∧ (∀ k, filter (λ a, LinkedList.author_key h a = k) by_author
             = filter (λ a, LinkedList.author_key h a = k)
                 (LinkedList.get_all_books l))
     ∧ (∀ a, is_ascii (Book.author (h !!! a)) = true →
             LinkedList.author_key h a = ascii_lower (Book.author (h !!! a)))
     ∧ (∀ a b, same_ignoring_case (Book.author (h !!! a))
                 (Book.author (h !!! b)) = true →
               LinkedList.author_key h a = LinkedList.author_key h b)).
Proof.
  unfold LinkedList.get_all_books.
  rewrite head_sort_by_title, head_sort_by_author.
  unfold LinkedList.title_key, LinkedList.author_key.
  split_and!;
    auto using list_sort_sorted, list_sort_perm, list_sort_stable,
      lower_ascii_text, same_ignoring_case_lower.
Qed.

(** ** HashTable: one bucket *)
Section BucketFacts.
Import HashTable.
Implicit Types (b : list (string * ref)) (k : string) (v : ref).

Lemma bucket_get_None k b : bucket_get k b = None ↔ k ∉ b.*1.
Proof.
  induction b as [|[k0 v0] b IH]; simpl.
  - split; [intros _; apply not_elem_of_nil | done].
  - rewrite not_elem_of_cons. simpl.
    destruct (String.eqb_spec k0 k) as [->|Hne]; [by intuition|].
    rewrite IH. by intuition.
Qed.

Lemma bucket_get_insert_eq k v b : bucket_get k (bucket_insert k v b) = Some v.
Proof.
  induction b as [|[k0 v0] b IH]; simpl.
  - by rewrite String.eqb_refl.
  - destruct (String.eqb_spec k0 k) as [->|Hne]; simpl.
    + by rewrite String.eqb_refl.
    + by destruct (String.eqb_spec k0 k).
Qed.

Lemma bucket_get_insert_ne k k' v b :
  k ≠ k' → bucket_get k' (bucket_insert k v b) = bucket_get k' b.
Proof.
  intros Hne. induction b as [|[k0 v0] b IH]; simpl.
  - by destruct (String.eqb_spec k k').
  - destruct (String.eqb_spec k0 k) as [->|Hk]; simpl.
    + by destruct (String.eqb_spec k k').
    + by rewrite IH.
Qed.

Lemma bucket_insert_keys k v b :
  bucket_get k b = None → (bucket_insert k v b).*1 = b.*1 ++ [k].
Proof.
  induction b as [|[k0 v0] b IH]; simpl; [done|].
  destruct (String.eqb_spec k0 k); [done|].
  intros E. csimpl. by rewrite IH.
Qed.

Lemma bucket_insert_NoDup k v b :
  bucket_get k b = None → NoDup b.*1 → NoDup (bucket_insert k v b).*1.
Proof.
  intros E Hnd. rewrite bucket_insert_keys by done.
  apply NoDup_app. split_and!; [done | | apply NoDup_singleton].
  intros x Hx ->%list_elem_of_singleton. by apply bucket_get_None in E.
Qed.

Lemma bucket_delete_is_Some k b :
  is_Some (bucket_get k b) → is_Some (bucket_delete k b).
Proof.
  induction b as [|[k0 v0] b IH]; simpl; [by intros [? ?]|].
  destruct (String.eqb_spec k0 k); [by eauto|].
  intros [b' ->]%IH. eauto.
Qed.

Lemma bucket_delete_sublist k b b' :
  bucket_delete k b = Some b' → b' `sublist_of` b.
Proof.
  revert b'. induction b as [|[k0 v0] b IH]; intros b'; simpl; [done|].
  destruct (String.eqb_spec k0 k).
  - intros [= <-]. by apply sublist_cons.
  - destruct (bucket_delete k b) as [b0|]; [|done].
    intros [= <-]. apply sublist_skip. by apply IH.
Qed.

Lemma bucket_get_delete_ne k k' b b' :
  bucket_delete k b = Some b' → k ≠ k' → bucket_get k' b' = bucket_get k' b.
Proof.
  intros Hd Hne. revert b' Hd.
  induction b as [|[k0 v0] b IH]; intros b'; simpl; [done|].
  destruct (String.eqb_spec k0 k) as [->|Hk].
  - intros [= <-]. by destruct (String.eqb_spec k k').
  - destruct (bucket_delete k b) as [b0|]; [|done].
    intros [= <-]. simpl. by rewrite (IH b0).
Qed.

Lemma bucket_get_delete_eq k b b' :
  NoDup b.*1 → bucket_delete k b = Some b' → bucket_get k b' = None.
Proof.
  intros Hnd. revert b'.
  induction b as [|[k0 v0] b IH]; intros b'; simpl; [done|].
  simpl in Hnd. apply NoDup_cons in Hnd as [Hk0 Hnd].
  destruct (String.eqb_spec k0 k) as [->|Hk].
  - intros [= <-]. by apply bucket_get_None.
  - destruct (bucket_delete k b) as [b0|]; [|done].
    intros [= <-]. simpl. destruct (String.eqb_spec k0 k); [done|].
    by apply IH.
Qed.
End BucketFacts.

(** ** HashTable *)
Section HashTableFacts.
Import HashTable.
Context `{PyHash} {L : PyLower}.

Lemma table_ok_init : table_ok init.
Proof.
  split_and!; [done | done |].
  apply Forall_replicate. constructor.
Qed.

Lemma get_init k : get init k = None.
Proof.
  unfold get, init, slot, _hash. cbn [table size].
  rewrite lookup_total_replicate_2; [done|].
  pose proof (Z.mod_pos_bound (py_hash k) 100). lia.
Qed.

Lemma slot_lt ht k : table_ok ht → (slot ht k < length (table ht))%nat.
Proof.
  intros (Hs & Hl & _). rewrite Hl. unfold slot, _hash.
  pose proof (Z.mod_pos_bound (py_hash k) (size ht) Hs). lia.
Qed.

Lemma bucket_NoDup ht k : table_ok ht → NoDup (table ht !!! slot ht k).*1.
Proof.
  intros Hok.
  apply (Forall_lookup_total_1 (λ b : list (string * ref), NoDup b.*1));
    [apply Hok | by apply slot_lt].
Qed.

Lemma get_insert_eq ht k v : table_ok ht → get (insert ht k v) k = Some v.
Proof.
  intros Hok. unfold get, insert, slot, _hash; simpl.
  rewrite list_lookup_total_insert_eq by (by apply slot_lt).
  apply bucket_get_insert_eq.
Qed.

Lemma get_insert_ne ht k k' v :
  table_ok ht → k ≠ k' → get (insert ht k v) k' = get ht k'.
Proof.
  intros Hok Hne. unfold get, insert. simpl.
  change (slot {| size := size ht; table := _ |} k') with (slot ht k').
  destruct (decide (slot ht k = slot ht k')) as [E|E].
  - rewrite <- E, list_lookup_total_insert_eq by (by apply slot_lt).
    by apply bucket_get_insert_ne.
  - by rewrite list_lookup_total_insert_ne.
Qed.

Lemma table_ok_insert ht k v :
  table_ok ht → get ht k = None → table_ok (insert ht k v).
Proof.
  intros Hok E. pose proof Hok as (Hs & Hl & Hnd).
  split_and!; simpl; [done | by rewrite length_insert |].
  apply Forall_insert; [done|].
  apply bucket_insert_NoDup; [done | by apply bucket_NoDup].
Qed.

Lemma delete_is_Some ht k :
  is_Some (get ht k) → (delete ht k).1 = true.
Proof.
  intros [b' E]%bucket_delete_is_Some. unfold delete. by rewrite E.
Qed.

Lemma get_delete_ne ht k k' :
  table_ok ht → k ≠ k' → get (delete ht k).2 k' = get ht k'.
Proof.
  intros Hok Hne. unfold delete.
  destruct (bucket_delete k (table ht !!! slot ht k)) as [b'|] eqn:E;
    [|done].
  unfold get; simpl.
  change (slot {| size := size ht; table := _ |} k') with (slot ht k').
  destruct (decide (slot ht k = slot ht k')) as [E'|E'].
  - rewrite <- E', list_lookup_total_insert_eq by (by apply slot_lt).
    by eapply bucket_get_delete_ne.
  - by rewrite list_lookup_total_insert_ne.
Qed.

Lemma get_delete_eq ht k : table_ok ht → get (delete ht k).2 k = None.
Proof.
  intros Hok. unfold delete.
  destruct (bucket_delete k (table ht !!! slot ht k)) as [b'|] eqn:E.
  - unfold get; simpl.
    change (slot {| size := size ht; table := _ |} k) with (slot ht k).
    rewrite list_lookup_total_insert_eq by (by apply slot_lt).
    eapply bucket_get_delete_eq; [|done]. by apply bucket_NoDup.
  - simpl. unfold get.
    destruct (bucket_get k (table ht !!! slot ht k)) eqn:G; [|done].
    destruct (bucket_delete_is_Some k (table ht !!! slot ht k)) as [? ?];
      [by rewrite G | congruence].
Qed.

Lemma table_ok_delete ht k : table_ok ht → table_ok (delete ht k).2.
Proof.
  intros Hok. pose proof Hok as (Hs & Hl & Hnd). unfold delete.
  destruct (bucket_delete k (table ht !!! slot ht k)) as [b'|] eqn:E;
    [|done].
  split_and!; simpl; [done | by rewrite length_insert |].
  apply Forall_insert; [done|].
  eapply sublist_NoDup; [by apply (bucket_NoDup ht k)|].
  apply fmap_sublist. by eapply bucket_delete_sublist.
Qed.
End HashTableFacts.

(** ** LinkedList: search and removal *)
Section RegistryFacts.
Import LinkedList.
Implicit Types (h : list Book.t) (k : string) (l : list ref) (a : ref).

Lemma search_nodes_Some h k l a :
  search_nodes h k l = Some a → a ∈ l ∧ id_of h a = k.
Proof.
  induction l as [|n l IH]; simpl; [done|].
  destruct (String.eqb_spec (id_of h n) k) as [E|E].
  - intros [= <-]. split; [apply list_elem_of_here | done].
  - intros [? ?]%IH. split; [by apply list_elem_of_further | done].
Qed.

Lemma search_nodes_None h k l :
  search_nodes h k l = None ↔ k ∉ id_of h <$> l.
Proof.
  induction l as [|n l IH]; csimpl.
  - split; [intros _; apply not_elem_of_nil | done].
  - rewrite not_elem_of_cons.
    destruct (String.eqb_spec (id_of h n) k) as [E|E].
    + split; [done | intros [? _]; congruence].
    + rewrite IH. split; [by auto | by intros [_ ?]].
Qed.

Lemma search_nodes_elem h l a :
  NoDup (id_of h <$> l) → a ∈ l → search_nodes h (id_of h a) l = Some a.
Proof.
  induction l as [|n l IH]; csimpl; [by intros _ ?%elem_of_nil|].
  intros [Hn Hnd]%NoDup_cons [->|Ha]%elem_of_cons.
  - by rewrite String.eqb_refl.
  - destruct (String.eqb_spec (id_of h n) (id_of h a)) as [E|E]; [|by auto].
    destruct Hn. rewrite E. by apply list_elem_of_fmap_2.
Qed.

Lemma search_nodes_perm h k l l' :
  NoDup (id_of h <$> l) → l ≡ₚ l' →
  search_nodes h k l = search_nodes h k l'.
Proof.
  intros Hnd Hp.
  destruct (search_nodes h k l) as [a|] eqn:E.
  - apply search_nodes_Some in E as [Ha <-]. symmetry.
    apply search_nodes_elem; by rewrite <- Hp.
  - symmetry. apply search_nodes_None. rewrite <- Hp.
    by apply search_nodes_None.
Qed.

Lemma search_nodes_ext h h' k l :
  (∀ a, a ∈ l → id_of h' a = id_of h a) →
  search_nodes h' k l = search_nodes h k l.
Proof.
  induction l as [|n l IH]; simpl; [done|]. intros Hext.
  rewrite (Hext n) by apply list_elem_of_here.
  rewrite IH; [done|]. intros a Ha. by apply Hext, list_elem_of_further.
Qed.

Lemma search_nodes_snoc h k l a :
  search_nodes h k (l ++ [a])
  = match search_nodes h k l with
    | Some x => Some x
    | None => if String.eqb (id_of h a) k then Some a else None
    end.
Proof.
  induction l as [|n l IH]; simpl; [done|].
  by destruct (String.eqb (id_of h n) k).
Qed.

(** [remove_book] unlinks the first node with the id, wherever it is. *)
Lemma head_remove_book h (ll : t) k :
  head (remove_book h ll k).2 = default (head ll) (remove_next h k (head ll)).
Proof.
  unfold remove_book.
  destruct (head ll) as [|first rest] eqn:E; simpl; [done|].
  destruct (String.eqb (id_of h first) k); [done|].
  by destruct (remove_next h k rest).
Qed.

Lemma remove_next_is_Some h k l :
  is_Some (search_nodes h k l) → is_Some (remove_next h k l).
Proof.
  induction l as [|n l IH]; simpl; [by intros [? ?]|].
  destruct (String.eqb (id_of h n) k); [by eauto|].
  intros [l' ->]%IH. eauto.
Qed.

Lemma remove_next_sublist h k l l' :
  remove_next h k l = Some l' → l' `sublist_of` l.
Proof.
  revert l'. induction l as [|n l IH]; intros l'; simpl; [done|].
  destruct (String.eqb (id_of h n) k).
  - intros [= <-]. by apply sublist_cons.
  - destruct (remove_next h k l) as [l0|]; [|done].
    intros [= <-]. apply sublist_skip. by apply IH.
Qed.

Lemma remove_next_search_ne h k k' l l' :
  remove_next h k l = Some l' → k ≠ k' →
  search_nodes h k' l' = search_nodes h k' l.
Proof.
  intros Hr Hne. revert l' Hr.
  induction l as [|n l IH]; intros l'; simpl; [done|].
  destruct (String.eqb_spec (id_of h n) k) as [E|E].
  - intros [= <-]. destruct (String.eqb_spec (id_of h n) k'); congruence.
  - destruct (remove_next h k l) as [l0|]; [|done].
    intros [= <-]. simpl. by rewrite (IH l0).
Qed.

Lemma remove_next_search_eq h k l l' :
  NoDup (id_of h <$> l) → remove_next h k l = Some l' →
  search_nodes h k l' = None.
Proof.
  revert l'. induction l as [|n l IH]; intros l'; csimpl; [done|].
  intros [Hn Hnd]%NoDup_cons.
  destruct (String.eqb_spec (id_of h n) k) as [E|E].
  - intros [= <-]. apply search_nodes_None. by rewrite <- E.
  - destruct (remove_next h k l) as [l0|]; [|done].
    intros [= <-]. simpl.
    destruct (String.eqb_spec (id_of h n) k); [done|]. by apply IH.
Qed.

(** The stores only grow, and [book_id] is never assigned after
    [__init__]: the id read through a reference does not change. *)
Lemma id_of_app h b a : (a < length h)%nat → id_of (h ++ [b]) a = id_of h a.
Proof. intros Ha. unfold id_of. by rewrite lookup_total_app_l. Qed.

Lemma id_of_alter h (f : Book.t → Book.t) i a :
  (∀ b, Book.book_id (f b) = Book.book_id b) →
  id_of (alter f i h) a = id_of h a.
Proof.
  intros Hf. unfold id_of. rewrite list_lookup_total_alter.
  case_decide as E; [|done]. destruct E as [-> _]. apply Hf.
Qed.
End RegistryFacts.

(** ** The outcomes of [borrow_book] and [return_book] *)
Section Outcomes.
Import CodeShelfLibrary.
Context `{PyHash} {L : PyLower}.

Lemma borrow_book_not_found s k who now1 now2 :
  search_by_id s k = None → borrow_book s k who now1 now2 = (false, s).
Proof. intros E. unfold borrow_book. by rewrite E. Qed.

Lemma borrow_book_waitlisted s k who now1 now2 a :
  search_by_id s k = Some a →
  Book.is_borrowed (book_objs s !!! a) = true →
  borrow_book s k who now1 now2
  = (false,
     set_waitlist s
       (Queue.enqueue (waitlist s) (WaitlistEntry.mk k who now1))).
Proof. intros E Hb. unfold borrow_book. by rewrite E, Hb. Qed.

Lemma borrow_book_success s k who now1 now2 a :
  search_by_id s k = Some a →
  Book.is_borrowed (book_objs s !!! a) = false →
  borrow_book s k who now1 now2
  = (true,
     mk (alter (Book.set_borrowed who now1) a (book_objs s))
        (record_objs s ++ [BorrowRecord.init a who now2])
        (books s)
        (Stack.push (borrow_history s) (length (record_objs s)))
        (waitlist s) (book_hash_table s)
        (<[k := length (record_objs s)]> (borrowed_books s))).
Proof. intros E Hb. unfold borrow_book. by rewrite E, Hb. Qed.

Lemma return_book_not_found s k now :
  search_by_id s k = None → return_book s k now = (false, None, s).
Proof. intros E. unfold return_book. by rewrite E. Qed.

Lemma return_book_not_borrowed s k now a :
  search_by_id s k = Some a →
  Book.is_borrowed (book_objs s !!! a) = false →
  return_book s k now = (false, None, s).
Proof. intros E Hb. unfold return_book. by rewrite E, Hb. Qed.

Lemma return_book_success s k now a :
  search_by_id s k = Some a →
  Book.is_borrowed (book_objs s !!! a) = true →
  return_book s k now
  = (true, (check_waitlist (waitlist s) k).1,
     mk (alter Book.set_returned a (book_objs s))
        (match borrowed_books s !! k with
         | Some r =>
             alter (BorrowRecord.set_return_date now) r (record_objs s)
         | None => record_objs s
         end)
        (books s) (borrow_history s)
        (check_waitlist (waitlist s) k).2
        (book_hash_table s)
        (delete k (borrowed_books s))).
Proof.
  intros E Hb. unfold return_book. rewrite E, Hb. simpl.
  destruct (borrowed_books s !! k) as [r|] eqn:Er; simpl;
    destruct (check_waitlist (waitlist s) k) as [found wl]; simpl;
    unfold set_waitlist; simpl; [done|].
  by rewrite delete_id.
Qed.
End Outcomes.

(** ** The registry and the hash table stay consistent *)
Section Consistency.
Import CodeShelfLibrary.
Context `{PyHash} {L : PyLower}.

Lemma search_nodes_app_store h b k l :
  Forall (λ a, (a < length h)%nat) l →
  LinkedList.search_nodes (h ++ [b]) k l = LinkedList.search_nodes h k l.
Proof.
  intros Hl. apply search_nodes_ext. intros a Ha.
  apply id_of_app. by eapply (proj1 (Forall_forall _ _) Hl).
Qed.

Lemma id_of_new h b : LinkedList.id_of (h ++ [b]) (length h) = Book.book_id b.
Proof. unfold LinkedList.id_of. by rewrite list_lookup_total_middle. Qed.

(** [consistent] reads the book store, the registry and the hash table
    only. *)
Lemma consistent_ext s s' :
  book_objs s' = book_objs s → books s' = books s →
  book_hash_table s' = book_hash_table s →
  consistent s → consistent s'.
Proof.
  intros E1 E2 E3 [? ? ? Hl].
  split; unfold registry_ids, search_by_id in *; rewrite ?E1, ?E2, ?E3; auto.
Qed.

Lemma in_registry_search s k a :
  consistent s →
  in_registry s k a
  ↔ LinkedList.search_by_id (book_objs s) (books s) k = Some a.
Proof.
  intros Hc. unfold in_registry, LinkedList.search_by_id.
  split.
  - intros [Ha <-]. apply search_nodes_elem; [apply Hc | done].
  - apply search_nodes_Some.
Qed.

Lemma consistent_init : consistent init.
Proof.
  split; simpl.
  - apply table_ok_init.
  - constructor.
  - constructor.
  - intros k. apply get_init.
Qed.

Lemma consistent_add_book s book_id title author year :
  consistent s → consistent (add_book s book_id title author year).2.
Proof.
  intros Hc. pose proof Hc as [Ht Hr Hnd Hl]. unfold add_book.
  destruct (LinkedList.search_by_id (book_objs s) (books s) book_id)
    as [a|] eqn:E; [done|].
  assert (HashTable.get (book_hash_table s) book_id = None) as Hg
    by (by rewrite <- E, <- Hl).
  unfold LinkedList.search_by_id in E.
  split; simpl.
  - by apply table_ok_insert.
  - unfold LinkedList.get_all_books in *. simpl.
    apply Forall_app. split.
    + eapply Forall_impl; [exact Hr|]. intros a Ha. simpl in Ha.
      rewrite length_app. simpl. lia.
    + repeat constructor. rewrite length_app. simpl. lia.
  - unfold registry_ids, LinkedList.get_all_books in *. simpl.
    rewrite fmap_app. simpl. rewrite id_of_new. simpl.
    apply NoDup_app. split_and!; [| |apply NoDup_singleton].
    + erewrite Forall_fmap_ext_1; [exact Hnd|].
      eapply Forall_impl; [exact Hr|]. intros a Ha. by apply id_of_app.
    + intros x Hx ->%list_elem_of_singleton.
      apply search_nodes_None in E. apply E.
      erewrite <- Forall_fmap_ext_1; [exact Hx|].
      eapply Forall_impl; [exact Hr|]. intros a Ha. by apply id_of_app.
  - intros k. unfold search_by_id, LinkedList.search_by_id. simpl.
    rewrite search_nodes_snoc, search_nodes_app_store, id_of_new by done.
    simpl. destruct (String.eqb_spec book_id k) as [<-|Hne].
    + rewrite E. by apply get_insert_eq.
    + rewrite get_insert_ne by done. fold (search_by_id s k). rewrite Hl.
      unfold LinkedList.search_by_id.
      by destruct (LinkedList.search_nodes (book_objs s) k
                     (LinkedList.head (books s))).
Qed.

Lemma consistent_remove_book s book_id :
  consistent s → consistent (remove_book s book_id).2.
Proof.
  intros Hc. pose proof Hc as [Ht Hr Hnd Hl]. unfold remove_book.
  destruct (LinkedList.search_by_id (book_objs s) (books s) book_id)
    as [a|] eqn:E; [|done].
  destruct (Book.is_borrowed (book_objs s !!! a)); [done|].
  unfold LinkedList.search_by_id in E.
  destruct (remove_next_is_Some (book_objs s) book_id
              (LinkedList.head (books s))) as [l' Hl'];
    [by rewrite E|].
  pose proof (remove_next_sublist _ _ _ _ Hl') as Hsub.
  split; unfold registry_ids, LinkedList.get_all_books in *; simpl;
    rewrite ?head_remove_book, ?Hl'; simpl.
  - by apply table_ok_delete.
  - apply Forall_forall. intros x Hx.
    eapply (proj1 (Forall_forall _ _) Hr). by eapply elem_of_sublist.
  - eapply sublist_NoDup; [exact Hnd|]. by apply fmap_sublist.
  - intros k. unfold search_by_id, LinkedList.search_by_id. simpl.
    rewrite head_remove_book, Hl'. simpl.
    destruct (decide (book_id = k)) as [<-|Hne].
    + rewrite get_delete_eq by done. symmetry.
      by eapply remove_next_search_eq.
    + rewrite get_delete_ne by done. fold (search_by_id s k). rewrite Hl.
      symmetry. by eapply remove_next_search_ne.
Qed.

Lemma consistent_alter_book s (f : Book.t → Book.t) a :
  (∀ b, Book.book_id (f b) = Book.book_id b) →
  consistent s → consistent (set_book_objs s (alter f a (book_objs s))).
Proof.
  intros Hf [Ht Hr Hnd Hl].
  split; unfold registry_ids, search_by_id, LinkedList.search_by_id in *;
    simpl.
  - done.
  - eapply Forall_impl; [exact Hr|]. intros x Hx. simpl in *.
    by rewrite length_alter.
  - erewrite list_fmap_ext; [exact Hnd|].
    intros i x _. by apply id_of_alter.
  - intros k. rewrite Hl. symmetry. apply search_nodes_ext.
    intros x _. by apply id_of_alter.
Qed.

Lemma consistent_perm s (ll : LinkedList.t) :
  LinkedList.head ll ≡ₚ LinkedList.head (books s) →
  consistent s → consistent (set_books s ll).
Proof.
  intros Hp [Ht Hr Hnd Hl].
  split; unfold registry_ids, search_by_id, LinkedList.search_by_id,
    LinkedList.get_all_books in *; simpl.
  - done.
  - by rewrite Hp.
  - by rewrite Hp.
  - intros k. rewrite Hl. by apply search_nodes_perm.
Qed.

Lemma consistent_display_all_books s sort_by :
  consistent s → consistent (display_all_books s sort_by).
Proof.
  intros Hc. unfold display_all_books.
  destruct (String.eqb (lower sort_by) "title").
  - apply consistent_perm; [|done].
    rewrite head_sort_by_title. apply list_sort_perm.
  - destruct (String.eqb (lower sort_by) "author"); [|done].
    apply consistent_perm; [|done].
    rewrite head_sort_by_author. apply list_sort_perm.
Qed.

Lemma consistent_borrow_book s book_id borrower now1 now2 :
  consistent s → consistent (borrow_book s book_id borrower now1 now2).2.
Proof.
  intros Hc. unfold borrow_book.
  destruct (search_by_id s book_id) as [a|]; [|done].
  destruct (Book.is_borrowed (book_objs s !!! a)); simpl.
  - by eapply consistent_ext; [..|exact Hc].
  - eapply consistent_ext;
      [..|exact (consistent_alter_book s
                   (Book.set_borrowed borrower now1) a (λ _, eq_refl) Hc)];
      done.
Qed.

Lemma consistent_return_book s book_id now :
  consistent s → consistent (return_book s book_id now).2.
Proof.
  intros Hc.
  destruct (search_by_id s book_id) as [a|] eqn:E;
    [|by rewrite return_book_not_found].
  destruct (Book.is_borrowed (book_objs s !!! a)) eqn:Hb;
    [|by erewrite return_book_not_borrowed].
  erewrite return_book_success by done. simpl.
  eapply consistent_ext;
    [..|exact (consistent_alter_book s Book.set_returned a
                 (λ _, eq_refl) Hc)]; done.
Qed.

Lemma consistent_step s o : consistent s → consistent (step s o).
Proof.
  destruct o; simpl;
    auto using consistent_add_book, consistent_remove_book,
      consistent_borrow_book, consistent_return_book,
      consistent_display_all_books.
Qed.

Lemma consistent_fold ops s :
  consistent s → consistent (fold_left step ops s).
Proof.
  revert s. induction ops as [|o ops IH]; intros s Hs; simpl; [done|].
  by apply IH, consistent_step.
Qed.

Lemma consistent_run ops : consistent (run ops).
Proof. apply consistent_fold, consistent_init. Qed.
End Consistency.

(** ** The waitlist check of [return_book] *)
Section WaitlistFacts.
Import CodeShelfLibrary.
Implicit Types (k : string) (q : Queue.t WaitlistEntry.t)
  (l : list WaitlistEntry.t) (e : WaitlistEntry.t).

(** One iteration of a [while not q.is_empty(): e = q.dequeue()] loop takes
    the front entry and leaves the rest: the recursion of [scan_waitlist]
    and [restore_waitlist] on the queue contents. *)
Lemma queue_dequeue_front e l :
  Queue.is_empty (Queue.mk (e :: l)) = false
  ∧ Queue.dequeue (Queue.mk (e :: l)) = (Some e, Queue.mk l).
Proof. done. Qed.

Lemma queue_empty_stop : Queue.is_empty (Queue.mk (@nil WaitlistEntry.t)) = true.
Proof. done. Qed.

Lemma scan_waitlist_found k l q e :
  scan_waitlist k l q (Some e) = (Queue.mk (Queue.items q ++ l), Some e).
Proof.
  revert q. induction l as [|e' l IH]; intros [items]; simpl.
  - by rewrite app_nil_r.
  - rewrite andb_false_r, IH. simpl. by rewrite <- app_assoc.
Qed.

Lemma scan_waitlist_none k l q :
  none_waiting k l →
  scan_waitlist k l q None = (Queue.mk (Queue.items q ++ l), None).
Proof.
  intros Hl. revert q.
  induction Hl as [|e l He Hl IH]; intros [items]; simpl.
  - by rewrite app_nil_r.
  - destruct (String.eqb_spec (WaitlistEntry.book_id e) k); [done|].
    simpl. rewrite IH. simpl. by rewrite <- app_assoc.
Qed.

Lemma scan_waitlist_first k before e after q :
  none_waiting k before → WaitlistEntry.book_id e = k →
  scan_waitlist k (before ++ e :: after) q None
  = (Queue.mk (Queue.items q ++ before ++ after), Some e).
Proof.
  intros Hl He. revert q.
  induction Hl as [|e' l He' Hl IH]; intros [items]; simpl.
  - rewrite He, String.eqb_refl. simpl. by rewrite scan_waitlist_found.
  - destruct (String.eqb_spec (WaitlistEntry.book_id e') k); [done|].
    simpl. rewrite IH. simpl. by rewrite <- app_assoc.
Qed.

Lemma restore_waitlist_items l q :
  restore_waitlist l q = Queue.mk (Queue.items q ++ l).
Proof.
  revert q. induction l as [|e l IH]; intros [items]; simpl.
  - by rewrite app_nil_r.
  - rewrite IH. simpl. by rewrite <- app_assoc.
Qed.

(** Either nobody waits for [k], or there is a first entry that does. *)
Lemma first_waiting k l :
  none_waiting k l
  ∨ ∃ before e after,
      l = before ++ e :: after ∧ none_waiting k before
      ∧ WaitlistEntry.book_id e = k.
Proof.
  induction l as [|e l [IH|(before & e' & after & -> & Hb & He)]].
  - left. constructor.
  - destruct (decide (WaitlistEntry.book_id e = k)) as [E|E].
    + right. exists [], e, l. split_and!; [done | constructor | done].
    + left. by constructor.
  - destruct (decide (WaitlistEntry.book_id e = k)) as [E|E].
    + right. exists [], e, (before ++ e' :: after).
      split_and!; [done | constructor | done].
    + right. exists (e :: before), e', after.
      split_and!; [done | by constructor | done].
Qed.

Lemma check_waitlist_none k q :
  none_waiting k (Queue.items q) → check_waitlist q k = (None, q).
Proof.
  intros Hq. unfold check_waitlist.
  destruct (Queue.is_empty q); [done|].
  rewrite scan_waitlist_none by done. simpl.
  rewrite restore_waitlist_items. by destruct q.
Qed.

Lemma check_waitlist_first k q before e after :
  Queue.items q = before ++ e :: after →
  none_waiting k before → WaitlistEntry.book_id e = k →
  check_waitlist q k = (Some e, Queue.mk (before ++ after)).
Proof.
  intros Eq Hb He. unfold check_waitlist, Queue.is_empty. rewrite Eq.
  destruct (before ++ e :: after) eqn:E; [by destruct before|].
  rewrite <- E, scan_waitlist_first by done. simpl.
  by rewrite restore_waitlist_items.
Qed.
End WaitlistFacts.

(** C2.  The waitlist check of [return_book] removes exactly the front-most
    entry for the returned id and keeps every other entry in its place
    relative to the others; with no entry for the id the queue is left as it
    was; the queue loses at most one entry.  [return_book] succeeds exactly
    when the id leads to a borrowed book; then the notice it prints and the
    queue it leaves are those of the check on the queue it found; when it
    fails it prints no notice and leaves the state, queue included, as it
    was; so a call of [return_book] takes at most one entry off the
    queue. *)
Theorem waitlist_check_first_match `{PyHash}
    (waitlist : Queue.t WaitlistEntry.t) (book_id : string) :
  (none_waiting book_id (Queue.items waitlist) →
   CodeShelfLibrary.check_waitlist waitlist book_id = (None, waitlist))
  ∧ (∀ before entry after,
       Queue.items waitlist = before ++ entry :: after →
       none_waiting book_id before →
       WaitlistEntry.book_id entry = book_id →
       CodeShelfLibrary.check_waitlist waitlist book_id
       = (Some entry, Queue.mk (before ++ after)))
  ∧ (Queue.size waitlist
     ≤ S (Queue.size (CodeShelfLibrary.check_waitlist waitlist book_id).2))%nat
  ∧ (∀ s now,
       CodeShelfLibrary.waitlist s = waitlist →
       let r := CodeShelfLibrary.return_book s book_id now in
       (r.1.1 = true
        ↔ ∃ a, CodeShelfLibrary.search_by_id s book_id = Some a
               ∧ Book.is_borrowed (CodeShelfLibrary.book_objs s !!! a)
                 = true)
       ∧ (r.1.1 = true →
          (r.1.2, CodeShelfLibrary.waitlist r.2)
          = CodeShelfLibrary.check_waitlist waitlist book_id)
       ∧ (r.1.1 = false → r = (false, None, s))
       ∧ (Queue.size waitlist
          ≤ S (Queue.size (CodeShelfLibrary.waitlist r.2)))%nat).
Proof.
  assert (Queue.size waitlist
          ≤ S (Queue.size
                 (CodeShelfLibrary.check_waitlist waitlist book_id).2))%nat
    as Hsize.
  { unfold Queue.size.
    destruct (first_waiting book_id (Queue.items waitlist))
      as [Hn|(before & e & after & E & Hb & He)].
    - rewrite check_waitlist_none by done. simpl. lia.
    - rewrite (check_waitlist_first _ _ _ _ _ E Hb He), E. simpl.
      rewrite !length_app. simpl. lia. }
  split_and!.
  - apply check_waitlist_none.
  - intros before entry after. apply check_waitlist_first.
  - exact Hsize.
  - intros s now <- r. subst r.
    destruct (CodeShelfLibrary.search_by_id s book_id) as [a|] eqn:E.
    2:{ rewrite return_book_not_found by done. simpl.
        split_and!; [|done|done|lia].
        split; [done | by intros (a & ? & _)]. }
    destruct (Book.is_borrowed (CodeShelfLibrary.book_objs s !!! a)) eqn:Hb.
    2:{ erewrite return_book_not_borrowed by done. simpl.
        split_and!; [|done|done|lia].
        split; [done|]. intros (a' & Ea & Hb'). congruence. }
    erewrite return_book_success by done. simpl. split_and!.
    + split; [eauto | done].
    + intros _. by destruct (CodeShelfLibrary.check_waitlist _ _).
    + done.
    + exact Hsize.
Qed.

(** C1.  After every sequence of engine calls from the empty library, the
    registry and the hash table hold the same ids, every id leads to the
    same [Book] object in both, and the registry has no id twice. *)
Theorem dual_structure_consistency `{PyHash} {L : PyLower}
    (ops : list CodeShelfLibrary.op) :
  let s := CodeShelfLibrary.run ops in
  (∀ k, k ∈ registry_ids s ↔ is_Some (CodeShelfLibrary.search_by_id s k))
  ∧ (∀ k a, in_registry s k a ↔ CodeShelfLibrary.search_by_id s k = Some a)
  ∧ NoDup (registry_ids s).
Proof.
  intros s. pose proof (consistent_run ops) as Hc. fold s in Hc.
  assert (∀ k a, in_registry s k a
                 ↔ CodeShelfLibrary.search_by_id s k = Some a) as Hin.
  { intros k a. rewrite (c_lookup _ Hc). by apply in_registry_search. }
  split_and!; [|done|apply Hc].
  intros k. unfold registry_ids. rewrite list_elem_of_fmap. split.
  - intros (a & -> & Ha). exists a. by apply Hin.
  - intros [a [Ha <-]%Hin]. by exists a.
Qed.

(** C10.  In every state reached from the empty library, the hash-table
    lookup of [CodeShelfLibrary.search_by_id] gives what the linear scan
    [LinkedList.search_by_id] of the registry gives. *)
Theorem lookup_equivalence `{PyHash} {L : PyLower}
    (ops : list CodeShelfLibrary.op)
    (book_id : string) :
  let s := CodeShelfLibrary.run ops in
  CodeShelfLibrary.search_by_id s book_id
  = LinkedList.search_by_id (CodeShelfLibrary.book_objs s)
      (CodeShelfLibrary.books s) book_id.
Proof. apply (c_lookup _ (consistent_run ops)). Qed.

(** C5.  Adding an id that the registry already holds fails and leaves the
    whole library state as it was. *)
Theorem duplicate_add_rejected `{PyHash} (s : CodeShelfLibrary.t)
    (book_id title author : string) (year : Z) :
  book_id ∈ registry_ids s →
  CodeShelfLibrary.add_book s book_id title author year = (false, s).
Proof.
  intros Hin. unfold CodeShelfLibrary.add_book.
  destruct (LinkedList.search_by_id _ _ book_id) eqn:E; [done|].
  by apply search_nodes_None in E.
Qed.

(** C6.  [remove_book] fails on an id the registry does not hold, and on an
    id whose record is borrowed (ids being unique in the registry); in both
    cases the library state is left as it was, so a borrowed record stays in
    the registry and in the hash table, and stays borrowed. *)
Theorem remove_failures_atomic `{PyHash} (s : CodeShelfLibrary.t)
    (book_id : string) :
  (book_id ∉ registry_ids s →
   CodeShelfLibrary.remove_book s book_id = (false, s))
  ∧ (∀ a, NoDup (registry_ids s) → in_registry s book_id a →
          Book.is_borrowed (CodeShelfLibrary.book_objs s !!! a) = true →
          CodeShelfLibrary.remove_book s book_id = (false, s)).
Proof.
  unfold CodeShelfLibrary.remove_book, LinkedList.search_by_id,
    registry_ids, in_registry, LinkedList.get_all_books.
  split.
  - intros Hnot. apply search_nodes_None in Hnot. by rewrite Hnot.
  - intros a Hnd [Ha <-] Hb.
    pose proof (search_nodes_elem _ _ a Hnd Ha) as E.
    unfold LinkedList.id_of in E. by rewrite E, Hb.
Qed.

(** C7.  In a state reached from the empty library, borrowing an id whose
    record is borrowed returns [False], leaves every [Book] (so the record's
    flag, borrower and date) as it was, puts one entry for the id and the
    requester at the back of the waitlist, and leaves the history, the
    borrow records and the open-loan table as they were. *)
Theorem borrow_busy_waitlists `{PyHash} {L : PyLower}
    (ops : list CodeShelfLibrary.op)
    (book_id borrower : string) (now1 now2 : Z) (a : nat) :
  let s := CodeShelfLibrary.run ops in
  let r := CodeShelfLibrary.borrow_book s book_id borrower now1 now2 in
  in_registry s book_id a →
  Book.is_borrowed (CodeShelfLibrary.book_objs s !!! a) = true →
  r.1 = false
  ∧ CodeShelfLibrary.book_objs r.2 = CodeShelfLibrary.book_objs s
  ∧ Queue.items (CodeShelfLibrary.waitlist r.2)
    = Queue.items (CodeShelfLibrary.waitlist s)
      ++ [WaitlistEntry.mk book_id borrower now1]
  ∧ Queue.size (CodeShelfLibrary.waitlist r.2)
    = S (Queue.size (CodeShelfLibrary.waitlist s))
  ∧ CodeShelfLibrary.borrow_history r.2 = CodeShelfLibrary.borrow_history s
  ∧ CodeShelfLibrary.record_objs r.2 = CodeShelfLibrary.record_objs s
  ∧ CodeShelfLibrary.borrowed_books r.2 = CodeShelfLibrary.borrowed_books s
  ∧ CodeShelfLibrary.books r.2 = CodeShelfLibrary.books s
  ∧ CodeShelfLibrary.book_hash_table r.2
    = CodeShelfLibrary.book_hash_table s.
Proof.
  intros s r Hin Hb. pose proof (consistent_run ops) as Hc. fold s in Hc.
  apply (in_registry_search _ _ _ Hc) in Hin.
  rewrite <- (c_lookup _ Hc) in Hin.
  unfold r. rewrite (borrow_book_waitlisted _ _ _ _ _ _ Hin Hb). simpl.
  split_and!; try done.
  unfold Queue.size. simpl. rewrite length_app. simpl. lia.
Qed.

(** C3, as the code has it.  [borrow_book] returns [False] both when the
    hash table has no book for the id and when the book is borrowed; what
    tells the two apart is the state: in the first case the library is left
    as it was and a later lookup of the id still finds nothing, in the second
    the waitlist has one more entry and a later lookup finds the borrowed
    book. *)
Theorem borrow_failures_told_apart_by_state `{PyHash} (s : CodeShelfLibrary.t)
    (book_id borrower : string) (now1 now2 : Z) :
  let r := CodeShelfLibrary.borrow_book s book_id borrower now1 now2 in
  (CodeShelfLibrary.search_by_id s book_id = None →
   r = (false, s) ∧ CodeShelfLibrary.search_by_id r.2 book_id = None)
  ∧ (∀ a, CodeShelfLibrary.search_by_id s book_id = Some a →
          Book.is_borrowed (CodeShelfLibrary.book_objs s !!! a) = true →
          r.1 = false
          ∧ CodeShelfLibrary.search_by_id r.2 book_id = Some a
          ∧ Book.is_borrowed (CodeShelfLibrary.book_objs r.2 !!! a) = true
          ∧ Queue.size (CodeShelfLibrary.waitlist r.2)
            = S (Queue.size (CodeShelfLibrary.waitlist s))).
Proof.
  intros r. split.
  - intros E. unfold r. by rewrite borrow_book_not_found.
  - intros a E Hb. unfold r.
    rewrite (borrow_book_waitlisted _ _ _ _ _ _ E Hb). simpl.
    split_and!; try done.
    unfold Queue.size. simpl. rewrite length_app. simpl. lia.
Qed.

(** ** The history and the open-loan table follow the [is_borrowed] flags *)
Section Ledger.
Import CodeShelfLibrary.
Context `{PyHash} {L : PyLower}.

Lemma in_registry_unique s k a a' :
  consistent s → in_registry s k a → in_registry s k a' → a = a'.
Proof.
  intros Hc Ha Ha'.
  apply (in_registry_search _ _ _ Hc) in Ha, Ha'. congruence.
Qed.

Lemma in_registry_lt s k a :
  consistent s → in_registry s k a → (a < length (book_objs s))%nat.
Proof.
  intros Hc [Ha _].
  by apply (proj1 (Forall_forall _ _) (c_refs _ Hc)).
Qed.

Lemma search_by_id_in_registry s k a :
  consistent s → search_by_id s k = Some a → in_registry s k a.
Proof.
  intros Hc E. apply (in_registry_search _ _ _ Hc).
  by rewrite <- (c_lookup _ Hc).
Qed.

(** [ledger_ok] does not read the waitlist nor the hash table. *)
Lemma ledger_ok_ext s s' :
  book_objs s' = book_objs s → record_objs s' = record_objs s →
  books s' = books s → borrow_history s' = borrow_history s →
  borrowed_books s' = borrowed_books s →
  ledger_ok s → ledger_ok s'.
Proof.
  intros E1 E2 E3 E4 E5 [? ? ? ? ?].
  split; unfold in_registry, record_id, is_open in *;
    rewrite ?E1, ?E2, ?E3, ?E4, ?E5; auto.
Qed.

Lemma ledger_ok_init : ledger_ok init.
Proof.
  split; simpl.
  - constructor.
  - constructor.
  - by intros r ?%elem_of_nil.
  - intros k r. by rewrite lookup_empty.
  - by intros k a [?%elem_of_nil _].
Qed.

Lemma ledger_ok_add_book s book_id title author year :
  consistent s → ledger_ok s →
  ledger_ok (add_book s book_id title author year).2.
Proof.
  intros Hc [Hr Hnd Ho Ht Hb]. unfold add_book.
  destruct (LinkedList.search_by_id (book_objs s) (books s) book_id)
    as [a|] eqn:E; [done|].
  assert (∀ r, r ∈ Stack.get_all_items (borrow_history s) →
               (BorrowRecord.book (record_objs s !!! r)
                < length (book_objs s))%nat) as Hbk.
  { intros r Hin. by apply (proj1 (Forall_forall _ _) Hr). }
  split; unfold in_registry, record_id, is_open,
    LinkedList.get_all_books in *; simpl.
  - eapply Forall_impl; [exact Hr|]. intros r [? ?].
    rewrite length_app. simpl. split; lia.
  - done.
  - intros r Hin Hop. rewrite lookup_total_app_l by auto. auto.
  - intros k r Hk. destruct (Ht k r Hk) as (Hin & Hop & Hid & a & [Ha Ea] & Hba).
    assert (a < length (book_objs s))%nat
      by (by apply (in_registry_lt s k a)).
    split_and!; [done | done | by rewrite lookup_total_app_l; auto |].
    exists a. rewrite lookup_total_app_l by done.
    split_and!; [|done|done]. apply elem_of_app. by left.
  - intros k a [[Ha|Ha%list_elem_of_singleton]%elem_of_app Ea] Hba;
      [|subst a].
    + assert (a < length (book_objs s))%nat
        by (by apply (proj1 (Forall_forall _ _) (c_refs _ Hc))).
      rewrite lookup_total_app_l in Ea, Hba by done. by eapply Hb.
    + by rewrite list_lookup_total_middle in Hba.
Qed.

Lemma ledger_ok_perm s (ll : LinkedList.t) :
  LinkedList.head ll ≡ₚ LinkedList.head (books s) →
  ledger_ok s → ledger_ok (set_books s ll).
Proof.
  intros Hp [Hr Hnd Ho Ht Hb].
  split; unfold in_registry, record_id, is_open,
    LinkedList.get_all_books in *; simpl; try done.
  - intros k r Hk. destruct (Ht k r Hk) as (? & ? & ? & a & [? ?] & ?).
    split_and!; try done. exists a. by rewrite Hp.
  - intros k a [Ha Ea] Hba. apply (Hb k a); [|done]. by rewrite <- Hp.
Qed.

Lemma ledger_ok_display_all_books s sort_by :
  ledger_ok s → ledger_ok (display_all_books s sort_by).
Proof.
  intros Hl. unfold display_all_books.
  destruct (String.eqb (lower sort_by) "title").
  - apply ledger_ok_perm; [|done].
    rewrite head_sort_by_title. apply list_sort_perm.
  - destruct (String.eqb (lower sort_by) "author"); [|done].
    apply ledger_ok_perm; [|done].
    rewrite head_sort_by_author. apply list_sort_perm.
Qed.

Lemma ledger_ok_remove_book s book_id :
  consistent s → ledger_ok s → ledger_ok (remove_book s book_id).2.
Proof.
  intros Hc Hl. pose proof (consistent_remove_book s book_id Hc) as Hc'.
  pose proof Hl as [Hr Hnd Ho Ht Hb].
  revert Hc'. unfold remove_book.
  destruct (LinkedList.search_by_id (book_objs s) (books s) book_id)
    as [a|] eqn:E; [|done].
  destruct (Book.is_borrowed (book_objs s !!! a)) eqn:Hba; [done|].
  simpl. intros Hc'.
  apply (in_registry_search _ _ _ Hc) in E.
  unfold LinkedList.search_by_id in *.
  destruct (remove_next_is_Some (book_objs s) book_id
              (LinkedList.head (books s))) as [l' Hl'].
  { apply (in_registry_search _ _ _ Hc) in E.
    unfold LinkedList.search_by_id in E. by rewrite E. }
  pose proof (remove_next_sublist _ _ _ _ Hl') as Hsub.
  split; try done.
  - intros k r Hk. destruct (Ht k r Hk) as (? & ? & ? & a' & Ha' & Hba').
    split_and!; try done. exists a'. split; [|done].
    assert (book_id ≠ k) as Hne.
    { intros ->. rewrite (in_registry_unique s k a a') in Hba by done.
      simpl in Hba'. congruence. }
    apply (in_registry_search _ _ _ Hc'). simpl.
    unfold LinkedList.search_by_id. rewrite head_remove_book, Hl'. simpl.
    rewrite (remove_next_search_ne _ _ _ _ _ Hl' Hne).
    by apply (in_registry_search _ _ _ Hc).
  - intros k a' [Ha' Ea'] Hba'. apply (Hb k a'); [|done].
    split; [|done]. revert Ha'. unfold LinkedList.get_all_books. simpl.
    rewrite head_remove_book, Hl'. simpl. intros Ha'.
    by eapply elem_of_sublist.
Qed.

Lemma ledger_ok_borrow_book s book_id borrower now1 now2 :
  consistent s → ledger_ok s →
  ledger_ok (borrow_book s book_id borrower now1 now2).2.
Proof.
  intros Hc Hl. pose proof Hl as [Hr Hnd Ho Ht Hb].
  destruct (search_by_id s book_id) as [a|] eqn:E;
    [|by rewrite borrow_book_not_found].
  destruct (Book.is_borrowed (book_objs s !!! a)) eqn:Hba.
  { erewrite borrow_book_waitlisted by done.
    by eapply ledger_ok_ext; [..|exact Hl]. }
  erewrite borrow_book_success by done. simpl.
  pose proof (search_by_id_in_registry _ _ _ Hc E) as Hin.
  pose proof (in_registry_lt _ _ _ Hc Hin) as Hlt.
  assert (borrowed_books s !! book_id = None) as Hfree.
  { destruct (borrowed_books s !! book_id) as [r|] eqn:Er; [|done].
    destruct (Ht _ _ Er) as (_ & _ & _ & a' & Ha' & Hba').
    rewrite (in_registry_unique s book_id a a') in Hba by done.
    congruence. }
  assert (∀ r, r ∈ Stack.items (borrow_history s) →
               (r < length (record_objs s))%nat) as Hold.
  { intros r Hr'. by apply (proj1 (Forall_forall _ _) Hr). }
  set (f := Book.set_borrowed borrower now1).
  assert (∀ x, Book.book_id (alter f a (book_objs s) !!! x)
               = Book.book_id (book_objs s !!! x)) as Hid.
  { intros x. by apply (id_of_alter (book_objs s) f a x). }
  split; unfold in_registry, record_id, is_open, Stack.get_all_items,
    LinkedList.get_all_books in *; simpl.
  - apply Forall_app. split.
    + eapply Forall_impl; [exact Hr|]. intros r [? ?].
      rewrite length_app, length_alter, lookup_total_app_l by done.
      simpl. split; [lia | done].
    + repeat constructor.
      * rewrite length_app. simpl. lia.
      * by rewrite list_lookup_total_middle, length_alter.
  - apply NoDup_app. split_and!; [done | | apply NoDup_singleton].
    intros r Hr' ->%list_elem_of_singleton. apply Hold in Hr'. lia.
  - intros r [Hr'|Hr'%list_elem_of_singleton]%elem_of_app; [|subst r].
    + rewrite lookup_total_app_l, Hid by auto. intros Hop.
      pose proof (Ho r Hr' Hop) as Er.
      rewrite lookup_insert_ne; [done|]. congruence.
    + intros _. rewrite list_lookup_total_middle, Hid by done. simpl.
      destruct Hin as [_ ->]. by rewrite lookup_insert_eq.
  - intros k r. destruct (decide (book_id = k)) as [<-|Hne].
    + rewrite lookup_insert_eq. intros [= <-].
      rewrite list_lookup_total_middle, Hid by done. simpl.
      split_and!; [apply elem_of_app; right; by constructor | done
                  | apply Hin |].
      exists a. rewrite Hid, list_lookup_total_alter_eq by done.
      split; [apply Hin | done].
    + rewrite lookup_insert_ne by done. intros Er.
      destruct (Ht _ _ Er) as (Hr' & Hop & Hk & a' & [Ha' Ea'] & Hba').
      rewrite lookup_total_app_l, Hid by auto.
      split_and!; [apply elem_of_app; by left | done | done |].
      exists a'. rewrite Hid. split; [done|].
      rewrite list_lookup_total_alter.
      case_decide as Hd; [|done]. by destruct Hd as [<- _].
  - intros k x. rewrite Hid. intros [Hx Ex].
    destruct (decide (book_id = k)) as [<-|Hne];
      [by rewrite lookup_insert_eq|].
    rewrite lookup_insert_ne, list_lookup_total_alter by done.
    case_decide as Hd.
    + destruct Hd as [<- _]. destruct Hin as [_ Ea]. congruence.
    + intros Hbx. by apply (Hb k x).
Qed.

Lemma ledger_ok_return_book s book_id now :
  consistent s → ledger_ok s → ledger_ok (return_book s book_id now).2.
Proof.
  intros Hc Hl. pose proof Hl as [Hr Hnd Ho Ht Hb].
  destruct (search_by_id s book_id) as [a|] eqn:E;
    [|by rewrite return_book_not_found].
  destruct (Book.is_borrowed (book_objs s !!! a)) eqn:Hba;
    [|by erewrite return_book_not_borrowed].
  erewrite return_book_success by done. simpl.
  pose proof (search_by_id_in_registry _ _ _ Hc E) as Hin.
  pose proof (in_registry_lt _ _ _ Hc Hin) as Hlt.
  destruct (Hb _ _ Hin Hba) as [r0 Er0]. rewrite Er0.
  destruct (Ht _ _ Er0) as (Hr0 & Hop0 & Hid0 & _).
  assert (r0 < length (record_objs s))%nat as Hlt0
    by (by apply (proj1 (Forall_forall _ _) Hr)).
  set (f := Book.set_returned).
  set (g := BorrowRecord.set_return_date now).
  assert (∀ x, Book.book_id (alter f a (book_objs s) !!! x)
               = Book.book_id (book_objs s !!! x)) as Hid.
  { intros x. by apply (id_of_alter (book_objs s) f a x). }
  assert (∀ r, BorrowRecord.book (alter g r0 (record_objs s) !!! r)
               = BorrowRecord.book (record_objs s !!! r)) as Hbk.
  { intros r. rewrite list_lookup_total_alter.
    case_decide as Hd; [|done]. by destruct Hd as [<- _]. }
  assert (∀ r, BorrowRecord.return_date (alter g r0 (record_objs s) !!! r)
               = None →
               r ≠ r0 ∧ BorrowRecord.return_date (record_objs s !!! r) = None)
    as Hopen.
  { intros r. rewrite list_lookup_total_alter.
    case_decide as Hd; [done|]. intros Hop. split; [|done].
    intros ->. by apply Hd. }
  split; unfold in_registry, record_id, is_open, Stack.get_all_items,
    LinkedList.get_all_books in *; simpl.
  - eapply Forall_impl; [exact Hr|]. intros r [? ?].
    by rewrite !length_alter, Hbk.
  - done.
  - intros r Hr' [Hne Hop]%Hopen. rewrite Hbk, Hid.
    pose proof (Ho r Hr' Hop) as Er.
    rewrite lookup_delete_ne; [done|]. congruence.
  - intros k r [Hne Er]%lookup_delete_Some.
    destruct (Ht _ _ Er) as (Hr' & Hop & Hk & a' & [Ha' Ea'] & Hba').
    rewrite Hbk, Hid.
    assert (r ≠ r0) as Hrr by congruence.
    split_and!; [done | by rewrite list_lookup_total_alter_ne | done |].
    exists a'. rewrite Hid. split; [done|].
    rewrite list_lookup_total_alter_ne; [done|].
    destruct Hin as [_ Ea]. congruence.
  - intros k x. rewrite Hid. intros [Hx Ex].
    rewrite list_lookup_total_alter.
    case_decide as Hd; [by destruct Hd as [<- _]|]. intros Hbx.
    rewrite lookup_delete_ne; [by apply (Hb k x)|].
    intros <-. apply Hd. split; [|done].
    by apply (in_registry_unique s book_id a x).
Qed.

Lemma ledger_ok_run ops : ledger_ok (run ops).
Proof.
  unfold run.
  cut (∀ s, consistent s → ledger_ok s → ledger_ok (fold_left step ops s)).
  { intros Hcut. apply Hcut; [apply consistent_init | apply ledger_ok_init]. }
  induction ops as [|o ops IH]; intros s Hc Hl; simpl; [done|].
  apply IH; [by apply consistent_step|].
  destruct o; simpl;
    auto using ledger_ok_add_book, ledger_ok_remove_book,
      ledger_ok_borrow_book, ledger_ok_return_book,
      ledger_ok_display_all_books.
Qed.
End Ledger.

Lemma NoDup_all_equal_length {A} (l : list A) (x : A) :
  NoDup l → (∀ y, y ∈ l → y = x) → x ∈ l → length l = 1%nat.
Proof.
  intros Hnd Hall Hx. destruct l as [|y [|z l]]; simpl.
  - by apply elem_of_nil in Hx.
  - done.
  - apply NoDup_cons in Hnd as [Hy _]. destruct Hy.
    rewrite (Hall y), <- (Hall z); [apply list_elem_of_here | |].
    + apply list_elem_of_further, list_elem_of_here.
    + apply list_elem_of_here.
Qed.

(** C4.  After every sequence of engine calls from the empty library, a
    record of the registry has [is_borrowed] set exactly when the history
    holds exactly one open borrow record for its id; a record that is not
    borrowed has none. *)
Theorem open_loan_invariant `{PyHash} {L : PyLower}
    (ops : list CodeShelfLibrary.op)
    (book_id : string) (a : nat) :
  let s := CodeShelfLibrary.run ops in
  in_registry s book_id a →
  (Book.is_borrowed (CodeShelfLibrary.book_objs s !!! a) = true
   ↔ length (open_events s book_id) = 1%nat)
  ∧ (Book.is_borrowed (CodeShelfLibrary.book_objs s !!! a) = false
     → open_events s book_id = []).
Proof.
  intros s Hin.
  pose proof (consistent_run ops) as Hc. pose proof (ledger_ok_run ops) as Hl.
  fold s in Hc, Hl. destruct Hl as [Hr Hnd Ho Ht Hb].
  assert (∀ r, r ∈ open_events s book_id →
               CodeShelfLibrary.borrowed_books s !! book_id = Some r) as Hev.
  { intros r [[Hop <-] Hr']%list_elem_of_filter. by apply Ho. }
  assert (Book.is_borrowed (CodeShelfLibrary.book_objs s !!! a) = false →
          open_events s book_id = []) as Hnone.
  { intros Hba. apply elem_of_nil_inv. intros r Er%Hev.
    destruct (Ht _ _ Er) as (_ & _ & _ & a' & Ha' & Hba').
    rewrite (in_registry_unique s book_id a a') in Hba by done. congruence. }
  split; [|done]. split.
  - intros Hba. destruct (Hb _ _ Hin Hba) as [r Er].
    destruct (Ht _ _ Er) as (Hr' & Hop & Hid & _).
    apply (NoDup_all_equal_length _ r).
    + by apply NoDup_filter.
    + intros y Ey%Hev. congruence.
    + by apply list_elem_of_filter.
  - intros Hlen.
    destruct (Book.is_borrowed (CodeShelfLibrary.book_objs s !!! a)) eqn:Hba;
      [done|].
    by rewrite Hnone in Hlen.
Qed.

(** ** The displayed history *)
Section History.
Import CodeShelfLibrary.
Context `{PyHash} {L : PyLower}.

Lemma display_borrow_history_push s' recs' items extra :
  record_objs s' = recs' →
  Stack.get_all_items (borrow_history s') = items ++ extra →
  display_borrow_history s'
  = ((λ r, recs' !!! r) <$> reverse extra)
    ++ ((λ r, recs' !!! r) <$> reverse items).
Proof.
  intros <- E. unfold display_borrow_history.
  by rewrite E, reverse_app, fmap_app.
Qed.

Lemma display_old (recs recs' : list BorrowRecord.t) items :
  (∀ r, r ∈ items → recs' !!! r = recs !!! r) →
  (λ r, recs' !!! r) <$> reverse items = (λ r, recs !!! r) <$> reverse items.
Proof.
  intros Hsame. apply Forall_fmap_ext_1, Forall_forall.
  intros r Hr. rewrite elem_of_reverse in Hr. simpl. by apply Hsame.
Qed.
End History.

(** C9, as the code has it.  In every state reached from the empty library
    the history is displayed in the reverse of push order
    ([Stack.get_all_items] gives push order, [display_borrow_history]
    reverses it): a successful borrow puts its record in front of what was
    displayed before; and after borrow(A), borrow(B), return(A) of two
    available books the first displayed entry is B's open record and the
    second is A's closed record. *)
Theorem history_displayed_most_recent_first `{PyHash} {L : PyLower}
    (ops : list CodeShelfLibrary.op) :
  let s := CodeShelfLibrary.run ops in
  CodeShelfLibrary.display_borrow_history s
  = reverse ((λ r, CodeShelfLibrary.record_objs s !!! r)
               <$> Stack.get_all_items (CodeShelfLibrary.borrow_history s))
  ∧ (∀ k who now1 now2 a,
       CodeShelfLibrary.search_by_id s k = Some a →
       Book.is_borrowed (CodeShelfLibrary.book_objs s !!! a) = false →
       CodeShelfLibrary.display_borrow_history
         (CodeShelfLibrary.borrow_book s k who now1 now2).2
       = BorrowRecord.init a who now2
         :: CodeShelfLibrary.display_borrow_history s)
  ∧ (∀ A B a b u1 u2 t1 t2 t3 t4 t5,
       A ≠ B →
       CodeShelfLibrary.search_by_id s A = Some a →
       CodeShelfLibrary.search_by_id s B = Some b →
       Book.is_borrowed (CodeShelfLibrary.book_objs s !!! a) = false →
       Book.is_borrowed (CodeShelfLibrary.book_objs s !!! b) = false →
       let s1 := (CodeShelfLibrary.borrow_book s A u1 t1 t2).2 in
       let s2 := (CodeShelfLibrary.borrow_book s1 B u2 t3 t4).2 in
       let s3 := (CodeShelfLibrary.return_book s2 A t5).2 in
       CodeShelfLibrary.display_borrow_history s3
       = BorrowRecord.mk b u2 t4 None
         :: BorrowRecord.mk a u1 t2 (Some t5)
         :: CodeShelfLibrary.display_borrow_history s).
Proof.
  intros s.
  pose proof (consistent_run ops) as Hc. pose proof (ledger_ok_run ops) as Hl.
  fold s in Hc, Hl.
  assert (∀ r, r ∈ Stack.get_all_items (CodeShelfLibrary.borrow_history s) →
               (r < length (CodeShelfLibrary.record_objs s))%nat) as Hold.
  { intros r Hr. by apply (proj1 (Forall_forall _ _) (l_records _ Hl)). }
  split_and!.
  - unfold CodeShelfLibrary.display_borrow_history. apply fmap_reverse.
  - intros k who now1 now2 a E Hba.
    erewrite borrow_book_success by done. simpl.
    erewrite display_borrow_history_push; [|done|done]. simpl.
    rewrite list_lookup_total_middle by done. f_equal.
    apply display_old. intros r Hr. apply lookup_total_app_l. by apply Hold.
  - intros A B a b u1 u2 t1 t2 t3 t4 t5 Hne Ea Eb Hba Hbb s1 s2 s3.
    pose proof (search_by_id_in_registry _ _ _ Hc Ea) as Hina.
    pose proof (search_by_id_in_registry _ _ _ Hc Eb) as Hinb.
    pose proof (in_registry_lt _ _ _ Hc Hina) as Hlta.
    assert (a ≠ b) as Hab.
    { intros ->. destruct Hina as [_ Ha], Hinb as [_ Hb]. congruence. }
    subst s3 s2 s1.
    rewrite (borrow_book_success s A u1 t1 t2 a Ea Hba). simpl.
    erewrite (borrow_book_success _ B u2 t3 t4 b); [| exact Eb |]; simpl.
    2:{ by rewrite list_lookup_total_alter_ne. }
    erewrite (return_book_success _ A t5 a); [| exact Ea |]; simpl.
    2:{ rewrite list_lookup_total_alter_ne by done.
        by rewrite list_lookup_total_alter_eq. }
    rewrite lookup_insert_ne, lookup_insert_eq by done.
    set (n := length (CodeShelfLibrary.record_objs s)).
    assert (length (CodeShelfLibrary.record_objs s ++ [BorrowRecord.init a u1 t2])
            = S n) as Hn by (rewrite length_app; simpl; lia).
    rewrite Hn.
    erewrite (display_borrow_history_push _ _
                (Stack.get_all_items (CodeShelfLibrary.borrow_history s))
                [n; S n]); [|done|by simpl; rewrite <- app_assoc].
    change (reverse [n; S n]) with [S n; n]. csimpl.
    rewrite list_lookup_total_alter_ne by lia.
    rewrite list_lookup_total_alter_eq
      by (rewrite !length_app; simpl; lia).
    rewrite (list_lookup_total_middle _ [] _ (S n)) by done.
    rewrite (lookup_total_app_l _ [_] n) by lia.
    rewrite (list_lookup_total_middle _ [] _ n) by done.
    simpl. do 2 f_equal.
    apply display_old. intros r Hr%Hold.
    rewrite list_lookup_total_alter_ne by (fold n in Hr; lia).
    rewrite !lookup_total_app_l; [done | done |].
    rewrite length_app. simpl. lia.
Qed.

(** ** The theorems at the scenarios *)

(** The queue [(A,u1), (B,u2), (A,u3)], with [A] and [B] out: the return
    of [A] prints the notice for [u1] and leaves [(B,u2), (A,u3)]; the
    return of [C], which the library does not hold, fails and leaves the
    state alone; the check for [C] leaves the queue alone. *)
Lemma waitlist_check_first_match_witness :
  CodeShelfLibrary.waitlist waiting_library = three_waiting
  ∧ (CodeShelfLibrary.return_book (H := length_hash) waiting_library "A" 9).1
    = (true, Some waiting_A1)
  ∧ CodeShelfLibrary.waitlist
      (CodeShelfLibrary.return_book (H := length_hash)
         waiting_library "A" 9).2
    = Queue.mk [waiting_B2; waiting_A3]
  ∧ CodeShelfLibrary.return_book (H := length_hash) waiting_library "C" 9
    = (false, None, waiting_library)
  ∧ CodeShelfLibrary.check_waitlist three_waiting "C" = (None, three_waiting).
Proof.
  assert (CodeShelfLibrary.waitlist waiting_library = three_waiting) as Ew
    by (by vm_compute).
  pose proof (waitlist_check_first_match (H := length_hash) three_waiting "A")
    as (_ & HA & _ & HretA).
  pose proof (waitlist_check_first_match (H := length_hash) three_waiting "C")
    as (HC & _ & _ & HretC).
  specialize (HA [] waiting_A1 [waiting_B2; waiting_A3]
                eq_refl (Forall_nil_2 _) eq_refl).
  destruct (HretA waiting_library 9 Ew) as (HokA & HlinkA & _ & _).
  destruct (HretC waiting_library 9 Ew) as (HokC & _ & HfailC & _).
  assert ((CodeShelfLibrary.return_book (H := length_hash)
             waiting_library "A" 9).1.1 = true) as EA.
  { apply HokA. exists 0%nat. split; by vm_compute. }
  specialize (HlinkA EA). rewrite HA in HlinkA.
  apply pair_equal_spec in HlinkA as [Hnotice Hqueue].
  split_and!.
  - exact Ew.
  - rewrite (surjective_pairing (CodeShelfLibrary.return_book _ "A" 9).1).
    by rewrite EA, Hnotice.
  - exact Hqueue.
  - apply HfailC.
    destruct (CodeShelfLibrary.return_book _ "C" 9).1.1 eqn:EC; [|done].
    destruct (proj1 HokC eq_refl) as (a & Ea & _).
    vm_compute in Ea. discriminate Ea.
  - apply HC. repeat constructor; discriminate.
Defined.

(** Four books whose titles are [apple pie], [Banana], [Apple Pie] and
    [APPLE PIE]: the three pies have one key and come first, in the order
    they had; by code points [Banana] would come before [apple pie].  The
    authors are [smith], [Jones], [SMITH] and [adams]. *)
Lemma sort_stable_case_insensitive_witness :
  let h := CodeShelfLibrary.book_objs mixed_case_library in
  let l := CodeShelfLibrary.books mixed_case_library in
  LinkedList.get_all_books l = [0; 1; 2; 3]%nat
  ∧ LinkedList.title_key (L := ascii_text_lower) h 0
    = LinkedList.title_key (L := ascii_text_lower) h 3
  ∧ LinkedList.title_key (L := ascii_text_lower) h 0 = "apple pie"
  ∧ String.ltb (Book.title (h !!! 1%nat)) (Book.title (h !!! 0%nat)) = true
  ∧ LinkedList.get_all_books
      (LinkedList.sort_by_title (L := ascii_text_lower) h l)
    = [0; 2; 3; 1]%nat
  ∧ StronglySorted (key_le (LinkedList.title_key (L := ascii_text_lower) h))
      [0; 2; 3; 1]%nat
  ∧ LinkedList.get_all_books
      (LinkedList.sort_by_author (L := ascii_text_lower) h l)
    = [3; 1; 0; 2]%nat.
Proof.
  intros h l.
  pose proof (sort_stable_case_insensitive (L := ascii_text_lower) h l)
    as [(Hsorted & _ & _ & Hkey & Hsame) _].
  assert (LinkedList.get_all_books
            (LinkedList.sort_by_title (L := ascii_text_lower) h l)
          = [0; 2; 3; 1]%nat) as E by (by vm_compute).
  split_and!.
  - by vm_compute.
  - apply Hsame. by vm_compute.
  - rewrite Hkey; by vm_compute.
  - by vm_compute.
  - exact E.
  - rewrite <- E. exact Hsorted.
  - by vm_compute.
Defined.

Lemma duplicate_add_rejected_witness :
  "D001" ∈ registry_ids busy_library
  ∧ CodeShelfLibrary.add_book (H := length_hash) busy_library
      "D001" "Another" "Author" 1999
    = (false, busy_library).
Proof.
  assert ("D001" ∈ registry_ids busy_library) as Hin
    by (vm_compute; apply list_elem_of_here).
  split; [exact Hin|].
  exact (duplicate_add_rejected (H := length_hash) busy_library
           "D001" "Another" "Author" 1999 Hin).
Defined.

Lemma remove_failures_atomic_witness :
  CodeShelfLibrary.remove_book (H := length_hash) busy_library "D009"
  = (false, busy_library)
  ∧ CodeShelfLibrary.remove_book (H := length_hash) busy_library "D001"
    = (false, busy_library).
Proof.
  split.
  - apply (proj1 (remove_failures_atomic (H := length_hash)
                    busy_library "D009")).
    vm_compute. intros Hin. repeat (apply elem_of_cons in Hin as [Hin|Hin];
      [discriminate Hin|]). by apply elem_of_nil in Hin.
  - apply (proj2 (remove_failures_atomic (H := length_hash)
                    busy_library "D001") 0%nat).
    + vm_compute. repeat (apply NoDup_cons; split;
        [intros Hin; repeat (apply elem_of_cons in Hin as [Hin|Hin];
           [discriminate Hin|]); by apply elem_of_nil in Hin|]).
      apply NoDup_nil_2.
    + split; [vm_compute; apply list_elem_of_here | by vm_compute].
    + by vm_compute.
Defined.

Lemma borrow_busy_waitlists_witness :
  (CodeShelfLibrary.borrow_book (H := length_hash) busy_library
     "D001" "WaitlistUser1" 20 21).1 = false
  ∧ Queue.items
      (CodeShelfLibrary.waitlist
         (CodeShelfLibrary.borrow_book (H := length_hash) busy_library
            "D001" "WaitlistUser1" 20 21).2)
    = [WaitlistEntry.mk "D001" "WaitlistUser1" 20].
Proof.
  unfold busy_library.
  assert (in_registry (scenario_run busy_ops) "D001" 0%nat) as Hin
    by (split; [vm_compute; apply list_elem_of_here | by vm_compute]).
  assert (Book.is_borrowed
            (CodeShelfLibrary.book_objs (scenario_run busy_ops) !!! 0%nat)
          = true) as Hb by (by vm_compute).
  pose proof (borrow_busy_waitlists (H := length_hash)
                (L := ascii_text_lower) busy_ops
                "D001" "WaitlistUser1" 20 21 0%nat Hin Hb)
    as (H1 & _ & H3 & _).
  split; [exact H1|]. rewrite H3. by vm_compute.
Defined.

Lemma open_loan_invariant_witness :
  in_registry busy_library "D001" 0%nat
  ∧ length (open_events busy_library "D001") = 1%nat
  ∧ in_registry busy_library "D002" 1%nat
  ∧ open_events busy_library "D002" = [].
Proof.
  unfold busy_library.
  assert (in_registry (scenario_run busy_ops) "D001" 0%nat) as Hin1
    by (split; [vm_compute; apply list_elem_of_here | by vm_compute]).
  assert (in_registry (scenario_run busy_ops) "D002" 1%nat) as Hin2.
  { split; [vm_compute|by vm_compute].
    apply list_elem_of_further, list_elem_of_here. }
  split_and!; [exact Hin1 | | exact Hin2 |].
  - apply (proj1 (open_loan_invariant (H := length_hash)
                (L := ascii_text_lower) busy_ops
                    "D001" 0%nat Hin1)). by vm_compute.
  - apply (proj2 (open_loan_invariant (H := length_hash)
                (L := ascii_text_lower) busy_ops
                    "D002" 1%nat Hin2)). by vm_compute.
Defined.

(** C3, as stated, fails: a missing id and a borrowed book give the same
    return value. *)
Lemma borrow_failures_same_return_value :
  CodeShelfLibrary.search_by_id (H := length_hash) busy_library "D009" = None
  ∧ (∃ a, CodeShelfLibrary.search_by_id (H := length_hash) busy_library "D001"
          = Some a
          ∧ Book.is_borrowed (CodeShelfLibrary.book_objs busy_library !!! a)
            = true)
  ∧ (CodeShelfLibrary.borrow_book (H := length_hash) busy_library
       "D009" "Eve" 20 21).1
    = (CodeShelfLibrary.borrow_book (H := length_hash) busy_library
         "D001" "Eve" 20 21).1.
Proof.
  split_and!; [by vm_compute | exists 0%nat; by vm_compute | by vm_compute].
Qed.

Lemma borrow_failures_told_apart_witness :
  CodeShelfLibrary.borrow_book (H := length_hash) busy_library
    "D009" "Eve" 20 21 = (false, busy_library)
  ∧ (CodeShelfLibrary.borrow_book (H := length_hash) busy_library
       "D001" "Eve" 20 21).1 = false
  ∧ Queue.size
      (CodeShelfLibrary.waitlist
         (CodeShelfLibrary.borrow_book (H := length_hash) busy_library
            "D001" "Eve" 20 21).2) = 1%nat.
Proof.
  pose proof (borrow_failures_told_apart_by_state (H := length_hash)
                busy_library "D009" "Eve" 20 21) as [Hmissing _].
  pose proof (borrow_failures_told_apart_by_state (H := length_hash)
                busy_library "D001" "Eve" 20 21) as [_ Hbusy].
  assert (CodeShelfLibrary.search_by_id (H := length_hash) busy_library "D001"
          = Some 0%nat) as E by (by vm_compute).
  assert (Book.is_borrowed (CodeShelfLibrary.book_objs busy_library !!! 0%nat)
          = true) as Hb by (by vm_compute).
  split.
  - apply Hmissing. by vm_compute.
  - destruct (Hbusy 0%nat E Hb) as (H1 & _ & _ & H4).
    split; [exact H1|]. rewrite H4. by vm_compute.
Defined.

(** C9, as stated, fails on either reading of the snapshot.  What is
    displayed after borrow(A), borrow(B), return(A) does not start with A's
    closed record; and [Stack.get_all_items], which does start with it, is
    in push order, not in its reverse. *)
Lemma history_snapshot_not_as_claimed :
  let s := history_library in
  let id_of_record (r : BorrowRecord.t) :=
    Book.book_id (CodeShelfLibrary.book_objs s !!! BorrowRecord.book r) in
  let pushed :=
    (λ r, CodeShelfLibrary.record_objs s !!! r)
      <$> Stack.get_all_items (CodeShelfLibrary.borrow_history s) in
  ¬ (∃ r rest,
       CodeShelfLibrary.display_borrow_history s = r :: rest
       ∧ id_of_record r = "A" ∧ is_Some (BorrowRecord.return_date r))
  ∧ (∃ first second,
       pushed = [first; second] ∧ id_of_record first = "A"
       ∧ id_of_record second = "B" ∧ pushed ≠ reverse pushed).
Proof.
  intros s id_of_record pushed. split.
  - intros (r & rest & E & Hid & Hrd).
    vm_compute in E. injection E as <- _.
    vm_compute in Hid. discriminate Hid.
  - eexists _, _. split_and!; [by vm_compute | by vm_compute | by vm_compute |].
    vm_compute. discriminate.
Qed.

Lemma history_displayed_most_recent_first_witness :
  let s := scenario_run two_books_ops in
  CodeShelfLibrary.search_by_id (H := length_hash) s "A" = Some 0%nat
  ∧ CodeShelfLibrary.search_by_id (H := length_hash) s "B" = Some 1%nat
  ∧ CodeShelfLibrary.display_borrow_history history_library
    = [BorrowRecord.mk 1 "u2" 4 None; BorrowRecord.mk 0 "u1" 2 (Some 5)].
Proof.
  intros s.
  assert (CodeShelfLibrary.search_by_id (H := length_hash) s "A" = Some 0%nat)
    as EA by (by vm_compute).
  assert (CodeShelfLibrary.search_by_id (H := length_hash) s "B" = Some 1%nat)
    as EB by (by vm_compute).
  split_and!; [exact EA | exact EB |].
  pose proof (history_displayed_most_recent_first (H := length_hash)
                (L := ascii_text_lower)
                two_books_ops) as (_ & _ & Hscenario).
  assert ("A" ≠ "B") as Hne by discriminate.
  assert (Book.is_borrowed (CodeShelfLibrary.book_objs s !!! 0%nat) = false)
    as HA by (by vm_compute).
  assert (Book.is_borrowed (CodeShelfLibrary.book_objs s !!! 1%nat) = false)
    as HB by (by vm_compute).
  pose proof (Hscenario "A" "B" 0%nat 1%nat "u1" "u2" 1 2 3 4 5
                Hne EA EB HA HB) as Hd.
  by vm_compute in Hd |- *.
Defined.

(** * Further properties of the containers and of the engine *)

(** ** Stack and Queue *)

Lemma removelast_snoc {A} (l : list A) (x : A) : removelast (l ++ [x]) = l.
Proof. rewrite removelast_app by done. simpl. apply app_nil_r. Qed.

Lemma fold_push_items {A} (xs : list A) (s : Stack.t A) :
  Stack.items (fold_left Stack.push xs s) = Stack.items s ++ xs.
Proof.
  revert s. induction xs as [|x xs IH]; intros s; simpl.
  - by rewrite app_nil_r.
  - rewrite IH. simpl. by rewrite <- app_assoc.
Qed.

Lemma fold_enqueue_items {A} (xs : list A) (q : Queue.t A) :
  Queue.items (fold_left Queue.enqueue xs q) = Queue.items q ++ xs.
Proof.
  revert q. induction xs as [|x xs IH]; intros q; simpl.
  - by rewrite app_nil_r.
  - rewrite IH. simpl. by rewrite <- app_assoc.
Qed.

(** X1.  The stack is last-in first-out: [pop] undoes [push] and gives the
    pushed item back, [peek] shows what [pop] would give, [pop] answers
    [None] exactly on the empty stack and then leaves it alone, and
    [get_all_items] lists the items in push order. *)
Theorem stack_last_in_first_out {A} (s : Stack.t A) (x : A) (xs : list A) :
  Stack.pop (Stack.push s x) = (Some x, s)
  ∧ Stack.peek (Stack.push s x) = Some x
  ∧ Stack.peek s = (Stack.pop s).1
  ∧ (Stack.is_empty s = true ↔ Stack.pop s = (None, s))
  ∧ Stack.size (Stack.pop s).2 = pred (Stack.size s)
  ∧ Stack.get_all_items (fold_left Stack.push xs Stack.init) = xs.
Proof.
  assert (Stack.get_all_items (fold_left Stack.push xs Stack.init) = xs)
    as Hfold by (unfold Stack.get_all_items; by rewrite fold_push_items).
  destruct s as [items]. unfold Stack.pop, Stack.push, Stack.peek,
    Stack.is_empty, Stack.size. simpl.
  split_and!.
  - destruct (items ++ [x]) eqn:E; [by destruct items|].
    rewrite <- E, last_snoc, removelast_snoc. done.
  - apply last_snoc.
  - by destruct items.
  - destruct items as [|y items]; [done|]. split; [done|].
    intros [= E _]. assert (is_Some (last (y :: items))) as [? ?]
      by (by apply last_is_Some). congruence.
  - destruct items as [|y items] using rev_ind; [done|].
    destruct (items ++ [y]) eqn:E; [by destruct items|].
    rewrite <- E. simpl. rewrite removelast_snoc, length_app. simpl. lia.
  - exact Hfold.
Qed.

(** X2.  The queue is first-in first-out: [dequeue] answers [None] on the
    empty queue and leaves it alone; an item enqueued on the empty queue is
    the next to come out; an item enqueued behind others does not change
    which item comes out next; [peek] shows what [dequeue] would give; and
    [get_all_items] lists the items in the order they were enqueued. *)
Theorem queue_first_in_first_out {A} (q : Queue.t A) (x : A) (xs : list A) :
  (Queue.is_empty q = true →
   Queue.dequeue q = (None, q)
   ∧ Queue.dequeue (Queue.enqueue q x) = (Some x, q))
  ∧ (∀ front q', Queue.dequeue q = (Some front, q') →
       Queue.dequeue (Queue.enqueue q x) = (Some front, Queue.enqueue q' x))
  ∧ Queue.peek q = (Queue.dequeue q).1
  ∧ Queue.size (Queue.enqueue q x) = S (Queue.size q)
  ∧ Queue.get_all_items (fold_left Queue.enqueue xs Queue.init) = xs.
Proof.
  assert (Queue.get_all_items (fold_left Queue.enqueue xs Queue.init) = xs)
    as Hfold by (unfold Queue.get_all_items; by rewrite fold_enqueue_items).
  destruct q as [items]. unfold Queue.dequeue, Queue.enqueue, Queue.peek,
    Queue.is_empty, Queue.size. simpl.
  split_and!.
  - by destruct items.
  - intros front q'. destruct items as [|y items]; [done|].
    by intros [= <- <-].
  - by destruct items.
  - rewrite length_app. simpl. lia.
  - exact Hfold.
Qed.

(** ** HashTable as a finite map *)
Section HashTableMap.
Import HashTable.
Context `{PyHash} {L : PyLower}.
Implicit Types (b : list (string * ref)) (k : string) (v : ref).

Lemma bucket_insert_present k v b :
  is_Some (bucket_get k b) →
  (bucket_insert k v b).*1 = b.*1
  ∧ length (bucket_insert k v b) = length b.
Proof.
  induction b as [|[k0 v0] b IH]; simpl; [by intros [? ?]|].
  destruct (String.eqb_spec k0 k) as [->|Hne]; [done|].
  intros [E1 E2]%IH. csimpl. by rewrite E1, E2.
Qed.

Lemma bucket_insert_absent_length k v b :
  bucket_get k b = None → length (bucket_insert k v b) = S (length b).
Proof.
  induction b as [|[k0 v0] b IH]; simpl; [done|].
  destruct (String.eqb_spec k0 k); [done|]. intros E. simpl. by rewrite IH.
Qed.

Lemma bucket_delete_length k b b' :
  bucket_delete k b = Some b' → length b = S (length b').
Proof.
  revert b'. induction b as [|[k0 v0] b IH]; intros b'; simpl; [done|].
  destruct (String.eqb_spec k0 k); [by intros [= <-]|].
  destruct (bucket_delete k b) as [b0|]; [|done].
  intros [= <-]. simpl. by rewrite (IH b0).
Qed.

Lemma bucket_delete_Some_get k b b' :
  bucket_delete k b = Some b' → is_Some (bucket_get k b).
Proof.
  revert b'. induction b as [|[k0 v0] b IH]; intros b'; simpl; [done|].
  destruct (String.eqb_spec k0 k); [by eauto|].
  destruct (bucket_delete k b) as [b0|]; [|done]. intros _. by eapply IH.
Qed.

Lemma bucket_delete_None k b : bucket_delete k b = None → bucket_get k b = None.
Proof.
  intros E. destruct (bucket_get k b) eqn:G; [|done].
  destruct (bucket_delete_is_Some k b) as [? ?]; [by rewrite G | congruence].
Qed.

Lemma table_ok_insert_any ht k v : table_ok ht → table_ok (insert ht k v).
Proof.
  intros Hok. destruct (get ht k) as [v0|] eqn:E;
    [|by apply table_ok_insert].
  pose proof Hok as (Hs & Hl & Hnd).
  split_and!; simpl; [done | by rewrite length_insert |].
  apply Forall_insert; [done|].
  rewrite (proj1 (bucket_insert_present k v _ (mk_is_Some _ _ E))).
  by apply bucket_NoDup.
Qed.

Lemma length_concat_insert {X} (l : list (list X)) (i : nat) (b' : list X) :
  (i < length l)%nat →
  (length (concat (<[i := b']> l)) + length (l !!! i)
   = length (concat l) + length b')%nat.
Proof.
  revert i. induction l as [|b l IH]; intros [|i] Hi; simpl in *; try lia.
  - rewrite !length_app. lia.
  - rewrite !length_app. specialize (IH i ltac:(lia)).
    change (list_lookup_total i l) with (l !!! i). lia.
Qed.

(** One call keeps the table in step with the map. *)
Lemma ht_step_refines ht (m : gmap string ref) o :
  table_ok ht → (∀ k, get ht k = m !! k) → entry_count ht = base.size m →
  table_ok (ht_step ht o)
  ∧ (∀ k, get (ht_step ht o) k = ht_map_step m o !! k)
  ∧ entry_count (ht_step ht o) = base.size (ht_map_step m o).
Proof.
  intros Hok Hget Hcount. destruct o as [key value|key]; simpl.
  - split_and!.
    + by apply table_ok_insert_any.
    + intros k. destruct (decide (key = k)) as [<-|Hne].
      * by rewrite get_insert_eq, lookup_insert_eq.
      * by rewrite get_insert_ne, lookup_insert_ne.
    + unfold entry_count in *. simpl.
      pose proof (length_concat_insert (table ht) (slot ht key)
                    (bucket_insert key value (table ht !!! slot ht key))
                    (slot_lt ht key Hok)) as Hlen.
      rewrite map_size_insert, <- Hget. unfold get.
      destruct (bucket_get key (table ht !!! slot ht key)) as [v0|] eqn:E.
      * rewrite (proj2 (bucket_insert_present key value _
                          (mk_is_Some _ _ E))) in Hlen. simpl. lia.
      * rewrite (bucket_insert_absent_length _ _ _ E) in Hlen. simpl. lia.
  - split_and!.
    + by apply table_ok_delete.
    + intros k. destruct (decide (key = k)) as [<-|Hne].
      * by rewrite get_delete_eq, lookup_delete_eq.
      * by rewrite get_delete_ne, lookup_delete_ne.
    + unfold entry_count, delete in *.
      destruct (bucket_delete key (table ht !!! slot ht key)) as [b'|] eqn:E;
        simpl.
      * pose proof (length_concat_insert (table ht) (slot ht key) b'
                      (slot_lt ht key Hok)) as Hlen.
        rewrite (bucket_delete_length _ _ _ E) in Hlen.
        assert (is_Some (m !! key)) as Hin.
        { rewrite <- Hget. by eapply bucket_delete_Some_get. }
        rewrite map_size_delete_Some by done.
        rewrite <- Hcount. lia.
      * apply bucket_delete_None in E. fold (get ht key) in E.
        rewrite Hget in E. by rewrite map_size_delete_None.
Qed.

Lemma ht_fold_refines ops ht (m : gmap string ref) :
  table_ok ht → (∀ k, get ht k = m !! k) → entry_count ht = base.size m →
  table_ok (fold_left ht_step ops ht)
  ∧ (∀ k, get (fold_left ht_step ops ht) k
          = fold_left ht_map_step ops m !! k)
  ∧ entry_count (fold_left ht_step ops ht)
    = base.size (fold_left ht_map_step ops m).
Proof.
  revert ht m. induction ops as [|o ops IH]; intros ht m Hok Hget Hc; simpl;
    [done|].
  destruct (ht_step_refines ht m o Hok Hget Hc) as (? & ? & ?).
  by apply IH.
Qed.

Lemma ht_run_refines ops :
  table_ok (ht_run ops)
  ∧ (∀ k, get (ht_run ops) k = ht_map ops !! k)
  ∧ entry_count (ht_run ops) = base.size (ht_map ops).
Proof.
  apply ht_fold_refines; [apply table_ok_init | |].
  - intros k. by rewrite get_init, lookup_empty.
  - by rewrite map_size_empty.
Qed.
End HashTableMap.

(** X3.  A [HashTable] behaves as a finite map: after any sequence of
    [insert] and [delete] calls on a fresh table, [get] answers what the map
    built by the same calls holds for the key ([insert] overwrites, [delete]
    forgets, other keys are untouched), whatever the hash function and
    however keys collide; and the bucket index computed for a key is always
    within the table. *)
Theorem hash_table_is_a_map `{PyHash} (ops : list ht_op) (key : string) :
  HashTable.get (ht_run ops) key = ht_map ops !! key
  ∧ 0 ≤ HashTable._hash (ht_run ops) key < HashTable.size (ht_run ops)
  ∧ (HashTable.slot (ht_run ops) key
     < length (HashTable.table (ht_run ops)))%nat.
Proof.
  destruct (ht_run_refines ops) as (Hok & Hget & _).
  split_and!; [apply Hget | | | by apply slot_lt];
    apply Z.mod_pos_bound, Hok.
Qed.

(** X4.  [HashTable.delete] reports whether the key was there and leaves
    the table as it was when it was not; afterwards the key is gone; and the
    table never holds two items for a key: the number of stored items is the
    number of keys of the map, so an [insert] of a present key adds no
    item. *)
Theorem hash_table_delete_and_count `{PyHash} (ops : list ht_op)
    (key : string) :
  ((HashTable.delete (ht_run ops) key).1 = true
   ↔ is_Some (HashTable.get (ht_run ops) key))
  ∧ ((HashTable.delete (ht_run ops) key).1 = false
     ↔ HashTable.get (ht_run ops) key = None)
  ∧ (HashTable.get (ht_run ops) key = None
     ↔ (HashTable.delete (ht_run ops) key).2 = ht_run ops)
  ∧ HashTable.get (HashTable.delete (ht_run ops) key).2 key = None
  ∧ entry_count (ht_run ops) = base.size (ht_map ops).
Proof.
  destruct (ht_run_refines ops) as (Hok & Hget & Hcount).
  assert ((HashTable.delete (ht_run ops) key).1 = true
          ↔ is_Some (HashTable.get (ht_run ops) key)) as Htrue.
  { split; [|apply delete_is_Some].
    unfold HashTable.delete, HashTable.get.
    destruct (HashTable.bucket_delete key _) as [b'|] eqn:E; [|done].
    intros _. by eapply bucket_delete_Some_get. }
  pose proof (get_delete_eq (ht_run ops) key Hok) as Hgone.
  split_and!; [done | | | done | done].
  - rewrite <- not_true_iff_false, Htrue, <- eq_None_not_Some. done.
  - split.
    + intros G. unfold HashTable.delete.
      destruct (HashTable.bucket_delete key _) as [b'|] eqn:E; [|done].
      apply bucket_delete_Some_get in E. fold (HashTable.get (ht_run ops) key) in E.
      rewrite G in E. by destruct E.
    + intros E. by rewrite E in Hgone.
Qed.

(** ** LinkedList on its own *)
Section LinkedListAlone.
Import LinkedList.
Context {L : PyLower}.
Implicit Types (h : list Book.t) (k : string) (l : list ref) (a : ref).

Lemma remove_book_eq h (ll : t) k :
  remove_book h ll k
  = match remove_next h k (head ll) with
    | Some l' => (true, {| head := l'; size := size ll - 1 |})
    | None => (false, ll)
    end.
Proof.
  unfold remove_book. destruct (head ll) as [|first rest] eqn:E; simpl;
    [done|].
  destruct (String.eqb (id_of h first) k); [done|].
  by destruct (remove_next h k rest).
Qed.

Lemma remove_next_first h k before a after :
  k ∉ id_of h <$> before → id_of h a = k →
  remove_next h k (before ++ a :: after) = Some (before ++ after).
Proof.
  intros Hb Ha. induction before as [|n before IH]; simpl.
  - by rewrite Ha, String.eqb_refl.
  - revert Hb. csimpl. rewrite not_elem_of_cons. intros [Hn Hb].
    destruct (String.eqb_spec (id_of h n) k); [congruence|].
    by rewrite IH.
Qed.

Lemma remove_next_None h k l :
  remove_next h k l = None → search_nodes h k l = None.
Proof.
  intros E. destruct (search_nodes h k l) eqn:G; [|done].
  destruct (remove_next_is_Some h k l) as [? ?]; [by rewrite G | congruence].
Qed.

Lemma remove_next_length h k l l' :
  remove_next h k l = Some l' → length l = S (length l').
Proof.
  revert l'. induction l as [|n l IH]; intros l'; simpl; [done|].
  destruct (String.eqb (id_of h n) k); [by intros [= <-]|].
  destruct (remove_next h k l) as [l0|]; [|done].
  intros [= <-]. simpl. by rewrite (IH l0).
Qed.

Lemma remove_next_Some_search h k l l' :
  remove_next h k l = Some l' → is_Some (search_nodes h k l).
Proof.
  revert l'. induction l as [|n l IH]; intros l'; simpl; [done|].
  destruct (String.eqb (id_of h n) k); [by eauto|].
  destruct (remove_next h k l) as [l0|]; [|done]. intros _. by eapply IH.
Qed.

(** On ASCII text [str.lower] changes nothing the second time. *)
Lemma lower_ascii_idemp c : lower_ascii (lower_ascii c) = lower_ascii c.
Proof.
  unfold lower_ascii.
  destruct ((65 <=? nat_of_ascii c)%nat && (nat_of_ascii c <=? 90)%nat)%bool
    eqn:E; [|by rewrite E].
  apply andb_true_iff in E as [E1%Nat.leb_le E2%Nat.leb_le].
  rewrite nat_ascii_embedding by lia.
  destruct ((65 <=? nat_of_ascii c + 32)%nat
            && (nat_of_ascii c + 32 <=? 90)%nat)%bool eqn:E'; [|done].
  apply andb_true_iff in E' as [_ E3%Nat.leb_le]. lia.
Qed.

Lemma ascii_lower_idemp s : ascii_lower (ascii_lower s) = ascii_lower s.
Proof.
  induction s as [|c s IH]; simpl; [done|].
  by rewrite lower_ascii_idemp, IH.
Qed.

(** [in] on [str]. *)
Lemma str_in_unfold sub s :
  str_in sub s
  = if String.prefix sub s then true
    else match s with
         | EmptyString => false
         | String _ s' => str_in sub s'
         end.
Proof. by destruct s. Qed.

Lemma str_append_cons c s t : String c s +:+ t = String c (s +:+ t).
Proof. reflexivity. Qed.

Lemma str_prefix_spec sub s :
  String.prefix sub s = true ↔ ∃ post, s = sub +:+ post.
Proof.
  revert s. induction sub as [|c sub IH]; intros s.
  - destruct s; simpl; split; eauto.
  - destruct s as [|d s]; simpl.
    + split; [done | by intros [? ?]].
    + destruct (ascii_dec c d) as [->|Hne].
      * rewrite IH. split; intros [post E]; exists post.
        -- by rewrite str_append_cons, E.
        -- rewrite str_append_cons in E. congruence.
      * split; [done|]. intros [post E].
        rewrite str_append_cons in E. congruence.
Qed.

Lemma str_in_spec sub s :
  str_in sub s = true ↔ ∃ pre post, s = pre +:+ sub +:+ post.
Proof.
  split.
  - induction s as [|c s IH]; rewrite str_in_unfold;
      destruct (String.prefix sub _) eqn:E.
    + apply str_prefix_spec in E as [post E]. by exists "", post.
    + done.
    + apply str_prefix_spec in E as [post E]. by exists "", post.
    + intros (pre & post & ->)%IH. by exists (String c pre), post.
  - intros (pre & post & ->). induction pre as [|c pre IH];
      rewrite str_in_unfold.
    + change ("" +:+ sub +:+ post) with (sub +:+ post).
      assert (String.prefix sub (sub +:+ post) = true) as ->; [|done].
      apply str_prefix_spec. by exists post.
    + rewrite str_append_cons, IH. by destruct (String.prefix _ _).
Qed.

Lemma str_in_empty s : str_in "" s = true.
Proof. rewrite str_in_unfold. by destruct s. Qed.

Lemma search_title_nodes_filter h title l results :
  search_title_nodes h title l results
  = results ++ filter (λ a, str_in (lower title) (title_key h a) = true) l.
Proof.
  revert results. induction l as [|n l IH]; intros results; simpl.
  - by rewrite app_nil_r.
  - rewrite filter_cons.
    change (lower (Book.title (h !!! n))) with (title_key h n).
    case_decide as E.
    + rewrite E, IH. by rewrite <- app_assoc.
    + apply not_true_is_false in E. by rewrite E, IH.
Qed.
End LinkedListAlone.

(** X5.  [LinkedList.remove_book] answers [True] exactly when a node has
    the id; then it unlinks the first such node only, keeps the others in
    order and takes one off [size]; when it answers [False] the list is as
    it was. *)
Theorem linked_list_remove_first (h : list Book.t) (l : LinkedList.t)
    (book_id : string) :
  ((LinkedList.remove_book h l book_id).1 = true
   ↔ is_Some (LinkedList.search_by_id h l book_id))
  ∧ ((LinkedList.remove_book h l book_id).1 = false →
     (LinkedList.remove_book h l book_id).2 = l)
  ∧ (∀ before a after,
       LinkedList.get_all_books l = before ++ a :: after →
       book_id ∉ LinkedList.id_of h <$> before →
       LinkedList.id_of h a = book_id →
       LinkedList.remove_book h l book_id
       = (true, LinkedList.mk (before ++ after) (LinkedList.size l - 1))).
Proof.
  rewrite remove_book_eq. unfold LinkedList.search_by_id,
    LinkedList.get_all_books.
  split_and!.
  - destruct (LinkedList.remove_next h book_id (LinkedList.head l))
      as [l'|] eqn:E; simpl.
    + split; [|done]. intros _. by eapply remove_next_Some_search.
    + apply remove_next_None in E. rewrite E. split; [done | by intros [? ?]].
  - by destruct (LinkedList.remove_next h book_id (LinkedList.head l)).
  - intros before a after E Hb Ha.
    by rewrite E, (remove_next_first _ _ _ _ _ Hb Ha).
Qed.

(** X6.  [search_by_title] returns, in registry order, exactly the books
    whose lower-cased title contains the lower-cased query as a contiguous
    run; the empty query returns every book; queries that differ in the
    case of ASCII letters only return the same books; and for an ASCII
    query a book with an ASCII title is returned exactly when the title
    contains the query, both with [A-Z] turned into [a-z]. *)
Theorem search_by_title_matches {L : PyLower}
    (h : list Book.t) (l : LinkedList.t) (title : string) :
  LinkedList.search_by_title h l title
  = filter (λ a, str_in (lower title) (LinkedList.title_key h a) = true)
      (LinkedList.get_all_books l)
  ∧ (∀ a, str_in (lower title) (LinkedList.title_key h a) = true
          ↔ ∃ pre post,
              lower (Book.title (h !!! a)) = pre +:+ lower title +:+ post)
  ∧ LinkedList.search_by_title h l "" = LinkedList.get_all_books l
  ∧ (∀ title', same_ignoring_case title title' = true →
               LinkedList.search_by_title h l title'
               = LinkedList.search_by_title h l title)
  ∧ (∀ a, is_ascii title = true →
          is_ascii (Book.title (h !!! a)) = true →
          a ∈ LinkedList.search_by_title h l title
          ↔ a ∈ LinkedList.get_all_books l
            ∧ str_in (ascii_lower title)
                (ascii_lower (Book.title (h !!! a))) = true).
Proof.
  unfold LinkedList.search_by_title, LinkedList.get_all_books.
  rewrite !search_title_nodes_filter. simpl. split_and!.
  - done.
  - intros a. apply str_in_spec.
  - rewrite lower_empty.
    induction (LinkedList.head l) as [|n l' IH]; [done|].
    rewrite filter_cons, decide_True by apply str_in_empty. by rewrite IH.
  - intros title' E. rewrite search_title_nodes_filter. simpl.
    by rewrite (same_ignoring_case_lower _ _ E).
  - intros a Ht Ha. rewrite list_elem_of_filter.
    unfold LinkedList.title_key.
    rewrite (lower_ascii_text _ Ht), (lower_ascii_text _ Ha). tauto.
Qed.

(** ** What every engine call keeps *)
Section EngineKeeps.
Import CodeShelfLibrary.
Context `{PyHash} {L : PyLower}.

Lemma run_app ops ops' : run (ops ++ ops') = fold_left step ops' (run ops).
Proof. unfold run. apply fold_left_app. Qed.

(** Each call, seen through its three possible outcomes. *)
Lemma borrow_book_cases s k who now1 now2 :
  (search_by_id s k = None ∧ borrow_book s k who now1 now2 = (false, s))
  ∨ (∃ a, search_by_id s k = Some a
          ∧ Book.is_borrowed (book_objs s !!! a) = true
          ∧ borrow_book s k who now1 now2
            = (false,
               set_waitlist s
                 (Queue.enqueue (waitlist s) (WaitlistEntry.mk k who now1))))
  ∨ (∃ a, search_by_id s k = Some a
          ∧ Book.is_borrowed (book_objs s !!! a) = false
          ∧ borrow_book s k who now1 now2
            = (true,
               mk (alter (Book.set_borrowed who now1) a (book_objs s))
                  (record_objs s ++ [BorrowRecord.init a who now2])
                  (books s)
                  (Stack.push (borrow_history s) (length (record_objs s)))
                  (waitlist s) (book_hash_table s)
                  (<[k := length (record_objs s)]> (borrowed_books s)))).
Proof.
  destruct (search_by_id s k) as [a|] eqn:E.
  - destruct (Book.is_borrowed (book_objs s !!! a)) eqn:Hb.
    + right; left. exists a. by rewrite (borrow_book_waitlisted _ _ _ _ _ a).
    + right; right. exists a. by rewrite (borrow_book_success _ _ _ _ _ a).
  - left. by rewrite borrow_book_not_found.
Qed.

Lemma return_book_cases s k now :
  return_book s k now = (false, None, s)
  ∨ (∃ a, search_by_id s k = Some a
          ∧ Book.is_borrowed (book_objs s !!! a) = true
          ∧ return_book s k now
            = (true, (check_waitlist (waitlist s) k).1,
               mk (alter Book.set_returned a (book_objs s))
                  (match borrowed_books s !! k with
                   | Some r =>
                       alter (BorrowRecord.set_return_date now) r
                         (record_objs s)
                   | None => record_objs s
                   end)
                  (books s) (borrow_history s)
                  (check_waitlist (waitlist s) k).2
                  (book_hash_table s)
                  (delete k (borrowed_books s)))).
Proof.
  destruct (search_by_id s k) as [a|] eqn:E.
  - destruct (Book.is_borrowed (book_objs s !!! a)) eqn:Hb.
    + right. exists a. by rewrite (return_book_success _ _ _ a).
    + left. by rewrite (return_book_not_borrowed _ _ _ a).
  - left. by rewrite return_book_not_found.
Qed.

(** *** The size of the registry *)

Lemma size_ok_rebuild l : size_ok (LinkedList.rebuild l).
Proof.
  unfold size_ok, LinkedList.rebuild, LinkedList.get_all_books.
  by destruct (fold_add_book l LinkedList.init) as [-> ->].
Qed.

Lemma size_ok_display_all_books s sort_by :
  size_ok (books s) → size_ok (books (display_all_books s sort_by)).
Proof.
  intros Hs. unfold display_all_books, LinkedList.sort_by_title,
    LinkedList.sort_by_author.
  destruct (String.eqb (lower sort_by) "title"); simpl.
  - destruct (LinkedList.head (books s)) as [|? [|? ?]];
      auto using size_ok_rebuild.
  - destruct (String.eqb (lower sort_by) "author"); simpl; [|done].
    destruct (LinkedList.head (books s)) as [|? [|? ?]];
      auto using size_ok_rebuild.
Qed.

Lemma size_ok_step s o : size_ok (books s) → size_ok (books (step s o)).
Proof.
  intros Hs. destruct o as [k t a y|k|k who n1 n2|k now|sort_by]; simpl.
  - unfold add_book. destruct (LinkedList.search_by_id _ _ k); [done|].
    simpl. unfold size_ok, LinkedList.get_all_books in *. simpl.
    rewrite length_app. simpl. lia.
  - unfold remove_book. destruct (LinkedList.search_by_id _ _ k); [|done].
    destruct (Book.is_borrowed _); [done|]. simpl.
    rewrite remove_book_eq.
    destruct (LinkedList.remove_next (book_objs s) k _) as [l'|] eqn:E;
      [|done].
    apply remove_next_length in E.
    unfold size_ok, LinkedList.get_all_books in *. simpl. lia.
  - destruct (borrow_book_cases s k who n1 n2)
      as [[_ ->]|[(a & _ & _ & ->)|(a & _ & _ & ->)]]; done.
  - destruct (return_book_cases s k now) as [->|(a & _ & _ & ->)]; done.
  - by apply size_ok_display_all_books.
Qed.

(** *** The checkout attributes of a book *)

Lemma flags_ok_step s o :
  Forall flags_ok (book_objs s) → Forall flags_ok (book_objs (step s o)).
Proof.
  intros Hf. destruct o as [k t a y|k|k who n1 n2|k now|sort_by]; simpl.
  - unfold add_book. destruct (LinkedList.search_by_id _ _ k); [done|].
    simpl. apply Forall_app. split; [done|].
    constructor; [by right | constructor].
  - unfold remove_book. destruct (LinkedList.search_by_id _ _ k); [|done].
    by destruct (Book.is_borrowed _).
  - destruct (borrow_book_cases s k who n1 n2)
      as [[_ ->]|[(a & _ & _ & ->)|(a & _ & _ & ->)]]; try done.
    simpl. apply Forall_alter; [done|]. intros b _ _. left. simpl. eauto.
  - destruct (return_book_cases s k now) as [->|(a & _ & _ & ->)]; [done|].
    simpl. apply Forall_alter; [done|]. intros b _ _. by right.
  - unfold display_all_books.
    destruct (String.eqb _ _); [done|]. by destruct (String.eqb _ _).
Qed.

(** *** Books are never dropped, and keep what they were created with *)

Lemma flags_ok_run ops : Forall flags_ok (book_objs (run ops)).
Proof.
  unfold run.
  cut (∀ s, Forall flags_ok (book_objs s) →
            Forall flags_ok (book_objs (fold_left step ops s))).
  { intros Hcut. apply Hcut. constructor. }
  induction ops as [|o ops IH]; intros s Hs; simpl; [done|].
  by apply IH, flags_ok_step.
Qed.

Lemma books_extend_refl s : books_extend s s.
Proof. split; [done | by intros a _]. Qed.

Lemma books_extend_same s s' : book_objs s' = book_objs s → books_extend s s'.
Proof. unfold books_extend. intros ->. split; [done | by intros a _]. Qed.

Lemma books_extend_trans s1 s2 s3 :
  books_extend s1 s2 → books_extend s2 s3 → books_extend s1 s3.
Proof.
  intros [L1 F1] [L2 F2]. split; [lia|]. intros a Ha.
  destruct (F1 a Ha) as (<- & <- & <- & <-). apply F2. lia.
Qed.

Lemma books_extend_alter s s' (f : Book.t → Book.t) a :
  book_objs s' = alter f a (book_objs s) →
  (∀ b, Book.book_id (f b) = Book.book_id b ∧ Book.title (f b) = Book.title b
        ∧ Book.author (f b) = Book.author b ∧ Book.year (f b) = Book.year b) →
  books_extend s s'.
Proof.
  unfold books_extend. intros -> Hf.
  split; [by rewrite length_alter|]. intros x Hx.
  rewrite list_lookup_total_alter. case_decide as Hd; [|done].
  destruct Hd as [-> _]. apply Hf.
Qed.

Lemma books_extend_step s o : books_extend s (step s o).
Proof.
  destruct o as [k t a y|k|k who n1 n2|k now|sort_by]; simpl.
  - unfold add_book. destruct (LinkedList.search_by_id _ _ k);
      [apply books_extend_refl|].
    split; simpl; [rewrite length_app; lia|].
    intros x Hx. by rewrite lookup_total_app_l.
  - unfold remove_book. destruct (LinkedList.search_by_id _ _ k);
      [|apply books_extend_refl].
    destruct (Book.is_borrowed _); by apply books_extend_same.
  - destruct (borrow_book_cases s k who n1 n2)
      as [[_ ->]|[(a & _ & _ & ->)|(a & _ & _ & ->)]];
      [by apply books_extend_same..|].
    by eapply books_extend_alter.
  - destruct (return_book_cases s k now) as [->|(a & _ & _ & ->)];
      [apply books_extend_refl|].
    by eapply books_extend_alter.
  - unfold display_all_books.
    destruct (String.eqb _ _); [by apply books_extend_same|].
    destruct (String.eqb _ _); by apply books_extend_same.
Qed.

Lemma books_extend_fold ops s : books_extend s (fold_left step ops s).
Proof.
  revert s. induction ops as [|o ops IH]; intros s; simpl;
    [apply books_extend_refl|].
  eapply books_extend_trans; [apply books_extend_step | apply IH].
Qed.
End EngineKeeps.

(** X7.  In every state reached from the empty library, the [size] the
    linked list keeps equals the number of its nodes, through adds, removals
    and the rebuild of the two sorts. *)
Theorem linked_list_size_counts_nodes `{PyHash} {L : PyLower}
    (ops : list CodeShelfLibrary.op) :
  LinkedList.size (CodeShelfLibrary.books (CodeShelfLibrary.run ops))
  = Z.of_nat
      (length (LinkedList.get_all_books
                 (CodeShelfLibrary.books (CodeShelfLibrary.run ops)))).
Proof.
  unfold CodeShelfLibrary.run.
  cut (∀ s, size_ok (CodeShelfLibrary.books s) →
            size_ok (CodeShelfLibrary.books
                       (fold_left CodeShelfLibrary.step ops s))).
  { intros Hcut. by apply Hcut. }
  induction ops as [|o ops IH]; intros s Hs; simpl; [done|].
  by apply IH, size_ok_step.
Qed.

(** X8.  In every state reached from the empty library, each [Book] object
    has its three checkout attributes in step: it is borrowed exactly when
    it has a borrower, and exactly when it has a borrow date. *)
Theorem book_checkout_attributes_agree `{PyHash} {L : PyLower}
    (ops : list CodeShelfLibrary.op) (a : nat) (b : Book.t) :
  CodeShelfLibrary.book_objs (CodeShelfLibrary.run ops) !! a = Some b →
  (Book.is_borrowed b = true ↔ is_Some (Book.borrowed_by b))
  ∧ (Book.is_borrowed b = true ↔ is_Some (Book.borrow_date b)).
Proof.
  intros Hb. pose proof (flags_ok_run ops) as Hf.
  destruct (proj1 (Forall_lookup _ _) Hf a b Hb)
    as [(-> & ? & ?)|(-> & -> & ->)]; [done|].
  split; (split; [done | by intros [? ?]]).
Qed.

(** X9.  No call ever drops a [Book] object or changes the id, title,
    author or year it was created with: what a later state holds for an
    object of an earlier state differs at most in the checkout attributes. *)
Theorem book_descriptions_never_change `{PyHash} {L : PyLower}
    (ops ops' : list CodeShelfLibrary.op) (a : nat) :
  let s := CodeShelfLibrary.run ops in
  let s' := CodeShelfLibrary.run (ops ++ ops') in
  (a < length (CodeShelfLibrary.book_objs s))%nat →
  (a < length (CodeShelfLibrary.book_objs s'))%nat
  ∧ Book.book_id (CodeShelfLibrary.book_objs s' !!! a)
    = Book.book_id (CodeShelfLibrary.book_objs s !!! a)
  ∧ Book.title (CodeShelfLibrary.book_objs s' !!! a)
    = Book.title (CodeShelfLibrary.book_objs s !!! a)
  ∧ Book.author (CodeShelfLibrary.book_objs s' !!! a)
    = Book.author (CodeShelfLibrary.book_objs s !!! a)
  ∧ Book.year (CodeShelfLibrary.book_objs s' !!! a)
    = Book.year (CodeShelfLibrary.book_objs s !!! a).
Proof.
  intros s s' Ha. unfold s'. rewrite run_app. fold s.
  destruct (books_extend_fold ops' s) as [Hlen Hsame].
  split; [lia|]. by apply Hsame.
Qed.

(** ** The history only grows, and the open-loan table names the loans *)
Section LoansAndHistory.
Import CodeShelfLibrary.
Context `{PyHash} {L : PyLower}.

Lemma history_extends_same s s' :
  record_objs s' = record_objs s → borrow_history s' = borrow_history s →
  history_extends s s'.
Proof. intros E1 E2. split; rewrite ?E1, ?E2; done. Qed.

Lemma history_extends_trans s1 s2 s3 :
  history_extends s1 s2 → history_extends s2 s3 → history_extends s1 s3.
Proof.
  intros [L1 I1 F1 C1] [L2 I2 F2 C2]. split.
  - lia.
  - by etrans.
  - intros r Hr. destruct (F1 r Hr) as (<- & <- & <-). apply F2. lia.
  - intros r t Hr Ht. apply C2; [lia|]. by apply C1.
Qed.

Lemma history_extends_step s o :
  ledger_ok s → history_extends s (step s o).
Proof.
  intros Hl. destruct o as [k t a y|k|k who n1 n2|k now|sort_by]; simpl.
  - unfold add_book. destruct (LinkedList.search_by_id _ _ k);
      by apply history_extends_same.
  - unfold remove_book. destruct (LinkedList.search_by_id _ _ k);
      [|by apply history_extends_same].
    destruct (Book.is_borrowed _); by apply history_extends_same.
  - destruct (borrow_book_cases s k who n1 n2)
      as [[_ ->]|[(a & _ & _ & ->)|(a & _ & _ & ->)]];
      [by apply history_extends_same..|].
    split; simpl.
    + rewrite length_app. lia.
    + by apply prefix_app_r.
    + intros r Hr. by rewrite lookup_total_app_l.
    + intros r t Hr. by rewrite lookup_total_app_l.
  - destruct (return_book_cases s k now) as [->|(a & _ & _ & ->)];
      [by apply history_extends_same|].
    destruct (borrowed_books s !! k) as [r0|] eqn:E0;
      [|by apply history_extends_same].
    destruct (l_table _ Hl _ _ E0) as (_ & Hop & _).
    split; simpl.
    + by rewrite length_alter.
    + done.
    + intros r Hr. rewrite list_lookup_total_alter.
      case_decide as Hd; [|done]. by destruct Hd as [-> _].
    + intros r t Hr Ht. rewrite list_lookup_total_alter.
      case_decide as Hd; [|done]. destruct Hd as [-> _].
      unfold is_open in Hop. congruence.
  - unfold display_all_books.
    destruct (String.eqb _ _); [by apply history_extends_same|].
    destruct (String.eqb _ _); by apply history_extends_same.
Qed.

Lemma ledger_ok_step s o : consistent s → ledger_ok s → ledger_ok (step s o).
Proof.
  intros Hc Hl. destruct o; simpl;
    auto using ledger_ok_add_book, ledger_ok_remove_book,
      ledger_ok_borrow_book, ledger_ok_return_book,
      ledger_ok_display_all_books.
Qed.

Lemma history_extends_fold ops s :
  consistent s → ledger_ok s → history_extends s (fold_left step ops s).
Proof.
  revert s. induction ops as [|o ops IH]; intros s Hc Hl; simpl;
    [by apply history_extends_same|].
  eapply history_extends_trans; [by apply history_extends_step|].
  apply IH; [by apply consistent_step | by apply ledger_ok_step].
Qed.

(** The registry away from the removed id. *)
Lemma in_registry_remove_book s X k a :
  k ≠ X → in_registry s k a → in_registry (remove_book s X).2 k a.
Proof.
  intros Hne [Ha Ea]. unfold remove_book.
  destruct (LinkedList.search_by_id _ _ X) as [x|] eqn:E; [|done].
  destruct (Book.is_borrowed _); [done|].
  split; [|done]. unfold LinkedList.get_all_books in *. simpl.
  rewrite head_remove_book.
  destruct (LinkedList.remove_next (book_objs s) X _) as [l'|] eqn:El;
    [|done].
  simpl. clear E. revert l' El.
  induction (LinkedList.head (books s)) as [|n l IH]; intros l' El;
    simpl in *; [by apply elem_of_nil in Ha|].
  destruct (String.eqb_spec (LinkedList.id_of (book_objs s) n) X) as [En|En].
  - injection El as <-. apply elem_of_cons in Ha as [->|Ha]; [|done].
    unfold LinkedList.id_of in En. congruence.
  - destruct (LinkedList.remove_next (book_objs s) X l) as [l0|]; [|done].
    injection El as <-. apply elem_of_cons in Ha as [->|Ha].
    + apply list_elem_of_here.
    + apply list_elem_of_further. by apply IH.
Qed.

Lemma loan_ok_step s o :
  consistent s → ledger_ok s → loan_ok s → loan_ok (step s o).
Proof.
  intros Hc Hl Hloan. destruct o as [k t a y|k|k who n1 n2|k now|sort_by];
    simpl.
  - unfold add_book. destruct (LinkedList.search_by_id _ _ k); [done|].
    intros k' r Er. simpl in *. destruct (Hloan k' r Er) as [Hin Hby].
    pose proof (in_registry_lt _ _ _ Hc Hin) as Hlt.
    destruct Hin as [Ha Ea].
    unfold in_registry, LinkedList.get_all_books in *. simpl.
    rewrite lookup_total_app_l by done.
    split_and!; [apply elem_of_app; by left | done | done].
  - intros k' r Er.
    assert (borrowed_books s !! k' = Some r) as Er'.
    { revert Er. unfold remove_book.
      destruct (LinkedList.search_by_id _ _ k); [|done].
      by destruct (Book.is_borrowed _). }
    destruct (Hloan k' r Er') as [Hin Hby].
    assert (record_objs (remove_book s k).2 = record_objs s
            ∧ book_objs (remove_book s k).2 = book_objs s) as [-> ->].
    { unfold remove_book. destruct (LinkedList.search_by_id _ _ k); [|done].
      by destruct (Book.is_borrowed _). }
    split; [|done].
    destruct (decide (k' = k)) as [->|Hne];
      [|by apply in_registry_remove_book].
    unfold remove_book.
    destruct (LinkedList.search_by_id _ _ k) as [x|] eqn:E; [|done].
    destruct (Book.is_borrowed (book_objs s !!! x)) eqn:Hbx; [done|].
    apply (in_registry_search _ _ _ Hc) in E.
    destruct (l_table _ Hl _ _ Er') as (_ & _ & _ & a' & Ha' & Hba').
    rewrite (in_registry_unique s k x a') in Hbx by done. congruence.
  - destruct (borrow_book_cases s k who n1 n2)
      as [[_ ->]|[(a & _ & _ & ->)|(a & E & Hba & ->)]]; try done.
    pose proof (search_by_id_in_registry _ _ _ Hc E) as Hin.
    pose proof (in_registry_lt _ _ _ Hc Hin) as Hlt.
    intros k' r. simpl. unfold in_registry. simpl.
    destruct (decide (k = k')) as [<-|Hne].
    + rewrite lookup_insert_eq. intros [= <-].
      rewrite list_lookup_total_middle by done. simpl.
      rewrite list_lookup_total_alter_eq by done. simpl.
      split_and!; [apply Hin | apply Hin | done].
    + rewrite lookup_insert_ne by done. intros Er.
      destruct (l_table _ Hl _ _ Er) as (Hr & _).
      assert (r < length (record_objs s))%nat as Hrl
        by (by apply (proj1 (Forall_forall _ _) (l_records _ Hl))).
      rewrite lookup_total_app_l by done.
      destruct (Hloan k' r Er) as [[Ha Ea] Hby].
      rewrite list_lookup_total_alter_ne; [done|].
      destruct Hin as [_ Ek]. congruence.
  - destruct (return_book_cases s k now) as [->|(a & E & Hba & ->)];
      [done|].
    pose proof (search_by_id_in_registry _ _ _ Hc E) as Hin.
    intros k' r. simpl. unfold in_registry. simpl.
    intros [Hne Er]%lookup_delete_Some.
    destruct (Hloan k' r Er) as [[Ha Ea] Hby].
    assert (BorrowRecord.book
              (match borrowed_books s !! k with
               | Some r0 =>
                   alter (BorrowRecord.set_return_date now) r0 (record_objs s)
               | None => record_objs s
               end !!! r) = BorrowRecord.book (record_objs s !!! r)
            ∧ BorrowRecord.borrower
                (match borrowed_books s !! k with
                 | Some r0 =>
                     alter (BorrowRecord.set_return_date now) r0
                       (record_objs s)
                 | None => record_objs s
                 end !!! r) = BorrowRecord.borrower (record_objs s !!! r))
      as [-> ->].
    { destruct (borrowed_books s !! k) as [r0|]; [|done].
      rewrite list_lookup_total_alter.
      case_decide as Hd; [|done]. by destruct Hd as [-> _]. }
    rewrite list_lookup_total_alter_ne; [done|].
    destruct Hin as [_ Ek]. congruence.
  - unfold display_all_books.
    assert (∀ ll, LinkedList.head ll ≡ₚ LinkedList.head (books s) →
                  loan_ok (set_books s ll)) as Hperm.
    { intros ll Hp k' r Er. destruct (Hloan k' r Er) as [[Ha Ea] Hby].
      split; [|done]. split; [|done].
      unfold LinkedList.get_all_books in *. simpl. by rewrite Hp. }
    destruct (String.eqb _ _).
    { apply Hperm. rewrite head_sort_by_title. apply list_sort_perm. }
    destruct (String.eqb _ _); [|done].
    apply Hperm. rewrite head_sort_by_author. apply list_sort_perm.
Qed.

Lemma loan_ok_run ops : loan_ok (run ops).
Proof.
  unfold run.
  cut (∀ s, consistent s → ledger_ok s → loan_ok s →
            loan_ok (fold_left step ops s)).
  { intros Hcut.
    apply Hcut; [apply consistent_init | apply ledger_ok_init |].
    intros k r Er. simpl in Er. by rewrite lookup_empty in Er. }
  induction ops as [|o ops IH]; intros s Hc Hl Hloan; simpl; [done|].
  apply IH;
    [by apply consistent_step | by apply ledger_ok_step
    | by apply loan_ok_step].
Qed.
End LoansAndHistory.

(** X10.  The borrowing history is append-only: across any later calls no
    record is removed or moved, the book, borrower and borrow date of a
    record never change, and a return date once set is never changed; the
    only change to a record ever is the closing of an open one. *)
Theorem borrow_history_append_only `{PyHash} {L : PyLower}
    (ops ops' : list CodeShelfLibrary.op) :
  history_extends (CodeShelfLibrary.run ops)
    (CodeShelfLibrary.run (ops ++ ops')).
Proof.
  rewrite run_app.
  apply history_extends_fold; [apply consistent_run | apply ledger_ok_run].
Qed.

(** X11.  In every state reached from the empty library, the open-loan
    table [borrowed_books] has an entry for an id exactly when the
    registry's book for that id is borrowed; the entry is an open record of
    the history, its [book] is that very [Book] object, and its borrower is
    the book's [borrowed_by]. *)
Theorem open_loan_table_names_the_loans `{PyHash} {L : PyLower}
    (ops : list CodeShelfLibrary.op) (book_id : string) :
  let s := CodeShelfLibrary.run ops in
  (is_Some (CodeShelfLibrary.borrowed_books s !! book_id)
   ↔ ∃ a, in_registry s book_id a
          ∧ Book.is_borrowed (CodeShelfLibrary.book_objs s !!! a) = true)
  ∧ (∀ r, CodeShelfLibrary.borrowed_books s !! book_id = Some r →
          let record := CodeShelfLibrary.record_objs s !!! r in
          r ∈ Stack.get_all_items (CodeShelfLibrary.borrow_history s)
          ∧ BorrowRecord.return_date record = None
          ∧ in_registry s book_id (BorrowRecord.book record)
          ∧ Book.is_borrowed
              (CodeShelfLibrary.book_objs s !!! BorrowRecord.book record)
            = true
          ∧ Book.borrowed_by
              (CodeShelfLibrary.book_objs s !!! BorrowRecord.book record)
            = Some (BorrowRecord.borrower record)).
Proof.
  intros s.
  pose proof (consistent_run ops) as Hc. pose proof (ledger_ok_run ops) as Hl.
  pose proof (loan_ok_run ops) as Hloan. fold s in Hc, Hl, Hloan.
  split.
  - split.
    + intros [r Er]. destruct (l_table _ Hl _ _ Er) as (_ & _ & _ & a & ?).
      by exists a.
    + intros (a & Ha & Hba). by eapply (l_borrowed _ Hl).
  - intros r Er record.
    destruct (l_table _ Hl _ _ Er) as (Hr & Hop & _ & a & Ha & Hba).
    destruct (Hloan _ _ Er) as [Hin Hby].
    pose proof (in_registry_unique s book_id _ a Hc Hin Ha) as Ea.
    unfold record. unfold is_open in Hop.
    split_and!; [done | done | done | by rewrite Ea | done].
Qed.

(** ** What each engine call does when it succeeds *)
Section EngineOutcomes.
Import CodeShelfLibrary.
Context `{PyHash} {L : PyLower}.

Lemma not_in_registry_search s k :
  k ∉ registry_ids s
  ↔ LinkedList.search_by_id (book_objs s) (books s) k = None.
Proof. symmetry. apply search_nodes_None. Qed.

Lemma in_registry_ids s k : k ∈ registry_ids s ↔ ∃ a, in_registry s k a.
Proof.
  unfold registry_ids, in_registry. rewrite list_elem_of_fmap. split.
  - intros (a & -> & Ha). by exists a.
  - intros (a & Ha & <-). by exists a.
Qed.

Lemma add_book_success s k title author year :
  k ∉ registry_ids s →
  add_book s k title author year
  = (true,
     mk (book_objs s ++ [Book.init k title author year]) (record_objs s)
        (LinkedList.add_book (books s) (length (book_objs s)))
        (borrow_history s) (waitlist s)
        (HashTable.insert (book_hash_table s) k (length (book_objs s)))
        (borrowed_books s)).
Proof.
  intros Hk%not_in_registry_search. unfold add_book. by rewrite Hk.
Qed.

Lemma remove_book_success s k a :
  consistent s → in_registry s k a →
  Book.is_borrowed (book_objs s !!! a) = false →
  remove_book s k
  = (true,
     mk (book_objs s) (record_objs s)
        (LinkedList.remove_book (book_objs s) (books s) k).2
        (borrow_history s) (waitlist s)
        (HashTable.delete (book_hash_table s) k).2
        (borrowed_books s)).
Proof.
  intros Hc Hin%(in_registry_search _ _ _ Hc) Hb. unfold remove_book.
  by rewrite Hin, Hb.
Qed.

Lemma not_borrowed_no_loan s k a :
  consistent s → ledger_ok s → in_registry s k a →
  Book.is_borrowed (book_objs s !!! a) = false →
  borrowed_books s !! k = None.
Proof.
  intros Hc Hl Hin Hb.
  destruct (borrowed_books s !! k) as [r|] eqn:Er; [|done].
  destruct (l_table _ Hl _ _ Er) as (_ & _ & _ & a' & Ha' & Hba').
  rewrite (in_registry_unique s k a a') in Hb by done. congruence.
Qed.

Lemma strongly_sorted_filter {A} (R : relation A) (P : A → Prop)
    `{∀ x, Decision (P x)} (l : list A) :
  StronglySorted R l → StronglySorted R (filter P l).
Proof.
  induction 1 as [|x l Hs IH Hx]; [constructor|].
  rewrite filter_cons. case_decide; [|done].
  constructor; [done|].
  apply Forall_forall. intros y [_ Hy]%list_elem_of_filter.
  by apply (proj1 (Forall_forall _ _) Hx).
Qed.

Lemma list_sort_sorted_id {A} (key : A → string) (l : list A) :
  StronglySorted (key_le key) l → list_sort key l = l.
Proof.
  induction 1 as [|x l Hs IH Hx]; simpl; [done|].
  rewrite IH. destruct l as [|y l]; simpl; [done|].
  apply Forall_cons in Hx as [Hxy _]. unfold key_le in Hxy.
  destruct (String.ltb (key y) (key x)) eqn:E; [|done].
  apply str_ltb_true_leb in E as E'.
  apply str_ltb_true_ne in E. destruct E.
  by apply String.leb_antisym.
Qed.

Lemma list_sort_idemp {A} (key : A → string) (l : list A) :
  list_sort key (list_sort key l) = list_sort key l.
Proof. apply list_sort_sorted_id, list_sort_sorted. Qed.

Lemma rebuild_sort_again (key : nat → string) l :
  match list_sort key l with
  | [] | [_] => LinkedList.rebuild (list_sort key l)
  | _ => LinkedList.rebuild (list_sort key (list_sort key l))
  end = LinkedList.rebuild (list_sort key l).
Proof.
  rewrite list_sort_idemp. by destruct (list_sort key l) as [|? [|? ?]].
Qed.

Lemma sort_by_title_idemp h ll :
  LinkedList.sort_by_title h (LinkedList.sort_by_title h ll)
  = LinkedList.sort_by_title h ll.
Proof.
  unfold LinkedList.sort_by_title at 2.
  destruct (LinkedList.head ll) as [|a [|b l]] eqn:E.
  - unfold LinkedList.sort_by_title. by rewrite E.
  - unfold LinkedList.sort_by_title. by rewrite E.
  - unfold LinkedList.sort_by_title, LinkedList.get_all_books.
    rewrite head_rebuild, E. apply rebuild_sort_again.
Qed.

Lemma sort_by_author_idemp h ll :
  LinkedList.sort_by_author h (LinkedList.sort_by_author h ll)
  = LinkedList.sort_by_author h ll.
Proof.
  unfold LinkedList.sort_by_author at 2.
  destruct (LinkedList.head ll) as [|a [|b l]] eqn:E.
  - unfold LinkedList.sort_by_author. by rewrite E.
  - unfold LinkedList.sort_by_author. by rewrite E.
  - unfold LinkedList.sort_by_author, LinkedList.get_all_books.
    rewrite head_rebuild, E. apply rebuild_sort_again.
Qed.
End EngineOutcomes.

(** X12.  What [True] means.  In every state reached from the empty
    library: [add_book] answers [True] exactly when the registry does not
    hold the id; [remove_book] and [borrow_book] exactly when the registry
    holds the id with a book that is not borrowed; [return_book] exactly
    when it holds the id with a borrowed book. *)
Theorem engine_return_values `{PyHash} {L : PyLower}
    (ops : list CodeShelfLibrary.op)
    (book_id title author borrower : string) (year now1 now2 : Z) :
  let s := CodeShelfLibrary.run ops in
  let available :=
    ∃ a, in_registry s book_id a
         ∧ Book.is_borrowed (CodeShelfLibrary.book_objs s !!! a) = false in
  let borrowed :=
    ∃ a, in_registry s book_id a
         ∧ Book.is_borrowed (CodeShelfLibrary.book_objs s !!! a) = true in
  ((CodeShelfLibrary.add_book s book_id title author year).1 = true
   ↔ book_id ∉ registry_ids s)
  ∧ ((CodeShelfLibrary.remove_book s book_id).1 = true ↔ available)
  ∧ ((CodeShelfLibrary.borrow_book s book_id borrower now1 now2).1 = true
     ↔ available)
  ∧ ((CodeShelfLibrary.return_book s book_id now1).1.1 = true ↔ borrowed).
Proof.
  intros s available borrowed.
  pose proof (consistent_run ops) as Hc. fold s in Hc.
  assert (∀ a, CodeShelfLibrary.search_by_id s book_id = Some a
               ↔ in_registry s book_id a) as Hsearch.
  { intros a. rewrite (c_lookup _ Hc). symmetry.
    by apply in_registry_search. }
  split_and!.
  - rewrite not_in_registry_search. unfold CodeShelfLibrary.add_book.
    by destruct (LinkedList.search_by_id _ _ book_id).
  - unfold CodeShelfLibrary.remove_book, available.
    destruct (LinkedList.search_by_id _ _ book_id) as [a|] eqn:E.
    + apply (in_registry_search _ _ _ Hc) in E.
      destruct (Book.is_borrowed (CodeShelfLibrary.book_objs s !!! a))
        eqn:Hb; simpl.
      * split; [done|]. intros (a' & Ha' & Hb').
        rewrite (in_registry_unique s book_id a a') in Hb by done.
        congruence.
      * split; [|done]. intros _. by exists a.
    + simpl. split; [done|]. intros (a & Ha & _).
      apply (in_registry_search _ _ _ Hc) in Ha. congruence.
  - unfold available.
    destruct (borrow_book_cases s book_id borrower now1 now2)
      as [[E ->]|[(a & E & Hb & ->)|(a & E & Hb & ->)]]; simpl.
    + split; [done|]. intros (a & Ha%Hsearch & _). congruence.
    + split; [done|]. intros (a' & Ha'%Hsearch & Hb'). congruence.
    + split; [|done]. intros _. exists a. split; [by apply Hsearch | done].
  - unfold borrowed.
    destruct (CodeShelfLibrary.search_by_id s book_id) as [a|] eqn:E.
    + destruct (Book.is_borrowed (CodeShelfLibrary.book_objs s !!! a))
        eqn:Hb.
      * rewrite (return_book_success _ _ _ a E Hb). simpl.
        split; [|done]. intros _. exists a. split; [by apply Hsearch|done].
      * rewrite (return_book_not_borrowed _ _ _ a E Hb). simpl.
        split; [done|]. intros (a' & Ha'%Hsearch & Hb'). congruence.
    + rewrite (return_book_not_found _ _ _ E). simpl.
      split; [done|]. intros (a & Ha%Hsearch & _). congruence.
Qed.

(** X13.  A successful [add_book]: in a state reached from the empty
    library, adding an id the registry does not hold creates a book with the
    given id, title, author and year, not borrowed; puts it last in the
    registry; makes [search_by_id] find it; and changes no other lookup, no
    other book, and nothing of the history, the waitlist or the open-loan
    table. *)
Theorem add_book_registers `{PyHash} {L : PyLower}
    (ops : list CodeShelfLibrary.op)
    (book_id title author : string) (year : Z) :
  let s := CodeShelfLibrary.run ops in
  let r := CodeShelfLibrary.add_book s book_id title author year in
  book_id ∉ registry_ids s →
  r.1 = true
  ∧ (∃ b, CodeShelfLibrary.search_by_id r.2 book_id = Some b
          ∧ CodeShelfLibrary.book_objs r.2 !!! b
            = Book.init book_id title author year
          ∧ LinkedList.get_all_books (CodeShelfLibrary.books r.2)
            = LinkedList.get_all_books (CodeShelfLibrary.books s) ++ [b])
  ∧ (∀ k, k ≠ book_id →
          CodeShelfLibrary.search_by_id r.2 k
          = CodeShelfLibrary.search_by_id s k)
  ∧ (∀ a, (a < length (CodeShelfLibrary.book_objs s))%nat →
          CodeShelfLibrary.book_objs r.2 !!! a
          = CodeShelfLibrary.book_objs s !!! a)
  ∧ CodeShelfLibrary.record_objs r.2 = CodeShelfLibrary.record_objs s
  ∧ CodeShelfLibrary.borrow_history r.2 = CodeShelfLibrary.borrow_history s
  ∧ CodeShelfLibrary.waitlist r.2 = CodeShelfLibrary.waitlist s
  ∧ CodeShelfLibrary.borrowed_books r.2 = CodeShelfLibrary.borrowed_books s.
Proof.
  intros s r Hk. pose proof (consistent_run ops) as Hc. fold s in Hc.
  unfold r. rewrite (add_book_success _ _ _ _ _ Hk). simpl.
  split_and!; try done.
  - exists (length (CodeShelfLibrary.book_objs s)). split_and!.
    + unfold CodeShelfLibrary.search_by_id. simpl.
      apply get_insert_eq, (c_table _ Hc).
    + by rewrite list_lookup_total_middle.
    + done.
  - intros k Hne. unfold CodeShelfLibrary.search_by_id. simpl.
    apply get_insert_ne; [apply (c_table _ Hc) | done].
  - intros a Ha. by rewrite lookup_total_app_l.
Qed.

(** X14.  A successful [remove_book]: in a state reached from the empty
    library, removing the id of a book that is not borrowed takes that one
    book out of the registry (the others keep their order) and out of the
    hash table; no other lookup changes; no [Book] object, borrow record,
    history or waitlist entry is touched; and the id can be added again. *)
Theorem remove_book_unregisters `{PyHash} {L : PyLower}
    (ops : list CodeShelfLibrary.op)
    (book_id : string) (a : nat) :
  let s := CodeShelfLibrary.run ops in
  let r := CodeShelfLibrary.remove_book s book_id in
  in_registry s book_id a →
  Book.is_borrowed (CodeShelfLibrary.book_objs s !!! a) = false →
  r.1 = true
  ∧ CodeShelfLibrary.search_by_id r.2 book_id = None
  ∧ (book_id ∉ registry_ids r.2)
  ∧ (∀ k, k ≠ book_id →
          CodeShelfLibrary.search_by_id r.2 k
          = CodeShelfLibrary.search_by_id s k)
  ∧ (∃ before after,
       LinkedList.get_all_books (CodeShelfLibrary.books s)
       = before ++ a :: after
       ∧ LinkedList.get_all_books (CodeShelfLibrary.books r.2)
         = before ++ after)
  ∧ CodeShelfLibrary.book_objs r.2 = CodeShelfLibrary.book_objs s
  ∧ CodeShelfLibrary.record_objs r.2 = CodeShelfLibrary.record_objs s
  ∧ CodeShelfLibrary.borrow_history r.2 = CodeShelfLibrary.borrow_history s
  ∧ CodeShelfLibrary.waitlist r.2 = CodeShelfLibrary.waitlist s
  ∧ CodeShelfLibrary.borrowed_books r.2 = CodeShelfLibrary.borrowed_books s
  ∧ (∀ title author year,
       (CodeShelfLibrary.add_book r.2 book_id title author year).1 = true).
Proof.
  intros s r Hin Hb. pose proof (consistent_run ops) as Hc. fold s in Hc.
  pose proof (consistent_remove_book s book_id Hc) as Hc'.
  pose proof (remove_book_success s book_id a Hc Hin Hb) as Er.
  fold r in Hc', Er. destruct r as [ok s']. simpl in *.
  injection Er as -> Es'.
  assert (CodeShelfLibrary.search_by_id s' book_id = None) as Hgone.
  { rewrite Es'.
    exact (get_delete_eq (CodeShelfLibrary.book_hash_table s) book_id
             (c_table _ Hc)). }
  assert (book_id ∉ registry_ids s') as Hnot.
  { apply not_in_registry_search. by rewrite <- (c_lookup _ Hc'). }
  split_and!; try done; try (by rewrite Es').
  - intros k Hne. rewrite Es'. unfold CodeShelfLibrary.search_by_id. simpl.
    apply get_delete_ne; [apply (c_table _ Hc) | done].
  - destruct Hin as [Ha Ea].
    destruct (list_elem_of_split _ _ Ha) as (before & after & Esplit).
    exists before, after. split; [done|].
    pose proof (c_nodup _ Hc) as Hnd. unfold registry_ids in Hnd.
    rewrite Esplit, fmap_app, fmap_cons in Hnd.
    apply NoDup_app in Hnd as (_ & Hdisj & _).
    assert (book_id ∉ (LinkedList.id_of (CodeShelfLibrary.book_objs s)
                         <$> before)) as Hb'.
    { intros Hx. apply (Hdisj _ Hx). rewrite <- Ea. apply list_elem_of_here. }
    rewrite Es'. unfold LinkedList.get_all_books in *. simpl.
    rewrite remove_book_eq, Esplit.
    by rewrite (remove_next_first _ _ _ _ _ Hb' Ea).
  - intros title author year.
    by rewrite (add_book_success _ _ _ _ _ Hnot).
Qed.

(** X15.  A successful [borrow_book]: in a state reached from the empty
    library, borrowing the id of a book that is not borrowed marks that book
    borrowed, by the borrower, at the first clock reading; creates one open
    record for the book and the borrower, puts it on top of the history and
    in the open-loan table under the id; and changes no other book, nor the
    registry, the hash table or the waitlist. *)
Theorem borrow_book_checks_out `{PyHash} {L : PyLower}
    (ops : list CodeShelfLibrary.op)
    (book_id borrower : string) (now1 now2 : Z) (a : nat) :
  let s := CodeShelfLibrary.run ops in
  let r := CodeShelfLibrary.borrow_book s book_id borrower now1 now2 in
  in_registry s book_id a →
  Book.is_borrowed (CodeShelfLibrary.book_objs s !!! a) = false →
  r.1 = true
  ∧ CodeShelfLibrary.book_objs r.2 !!! a
    = Book.set_borrowed borrower now1 (CodeShelfLibrary.book_objs s !!! a)
  ∧ Book.is_borrowed (CodeShelfLibrary.book_objs r.2 !!! a) = true
  ∧ Book.borrowed_by (CodeShelfLibrary.book_objs r.2 !!! a) = Some borrower
  ∧ Book.borrow_date (CodeShelfLibrary.book_objs r.2 !!! a) = Some now1
  ∧ (∀ x, x ≠ a →
          CodeShelfLibrary.book_objs r.2 !!! x
          = CodeShelfLibrary.book_objs s !!! x)
  ∧ (∃ record,
       CodeShelfLibrary.borrowed_books r.2 !! book_id = Some record
       ∧ CodeShelfLibrary.record_objs r.2 !!! record
         = BorrowRecord.init a borrower now2
       ∧ Stack.peek (CodeShelfLibrary.borrow_history r.2) = Some record
       ∧ Stack.get_all_items (CodeShelfLibrary.borrow_history r.2)
         = Stack.get_all_items (CodeShelfLibrary.borrow_history s)
           ++ [record])
  ∧ CodeShelfLibrary.books r.2 = CodeShelfLibrary.books s
  ∧ CodeShelfLibrary.book_hash_table r.2
    = CodeShelfLibrary.book_hash_table s
  ∧ CodeShelfLibrary.waitlist r.2 = CodeShelfLibrary.waitlist s.
Proof.
  intros s r Hin Hb. pose proof (consistent_run ops) as Hc. fold s in Hc.
  pose proof (in_registry_lt _ _ _ Hc Hin) as Hlt.
  apply (in_registry_search _ _ _ Hc) in Hin.
  rewrite <- (c_lookup _ Hc) in Hin.
  unfold r. rewrite (borrow_book_success _ _ _ _ _ _ Hin Hb). simpl.
  rewrite list_lookup_total_alter_eq by done.
  split_and!; try done.
  - intros x Hx. by rewrite list_lookup_total_alter_ne.
  - exists (length (CodeShelfLibrary.record_objs s)). split_and!.
    + by rewrite lookup_insert_eq.
    + by rewrite list_lookup_total_middle.
    + unfold Stack.peek. simpl. apply last_snoc.
    + done.
Qed.

(** X16.  A successful [return_book]: in a state reached from the empty
    library, returning the id of a borrowed book clears the book's three
    checkout attributes, whoever is waiting (nobody is given the book);
    stamps the return date on the id's open record and on no other record;
    drops the id from the open-loan table; and changes no other book, nor
    the registry, the hash table or the order of the history. *)
Theorem return_book_checks_in `{PyHash} {L : PyLower}
    (ops : list CodeShelfLibrary.op)
    (book_id : string) (now : Z) (a : nat) :
  let s := CodeShelfLibrary.run ops in
  let r := CodeShelfLibrary.return_book s book_id now in
  in_registry s book_id a →
  Book.is_borrowed (CodeShelfLibrary.book_objs s !!! a) = true →
  r.1.1 = true
  ∧ CodeShelfLibrary.book_objs r.2 !!! a
    = Book.set_returned (CodeShelfLibrary.book_objs s !!! a)
  ∧ Book.is_borrowed (CodeShelfLibrary.book_objs r.2 !!! a) = false
  ∧ Book.borrowed_by (CodeShelfLibrary.book_objs r.2 !!! a) = None
  ∧ Book.borrow_date (CodeShelfLibrary.book_objs r.2 !!! a) = None
  ∧ (∀ x, x ≠ a →
          CodeShelfLibrary.book_objs r.2 !!! x
          = CodeShelfLibrary.book_objs s !!! x)
  ∧ (∃ record,
       CodeShelfLibrary.borrowed_books s !! book_id = Some record
       ∧ CodeShelfLibrary.record_objs r.2 !!! record
         = BorrowRecord.set_return_date now
             (CodeShelfLibrary.record_objs s !!! record)
       ∧ ∀ x, x ≠ record →
              CodeShelfLibrary.record_objs r.2 !!! x
              = CodeShelfLibrary.record_objs s !!! x)
  ∧ CodeShelfLibrary.borrowed_books r.2 !! book_id = None
  ∧ open_events r.2 book_id = []
  ∧ CodeShelfLibrary.borrow_history r.2 = CodeShelfLibrary.borrow_history s
  ∧ CodeShelfLibrary.books r.2 = CodeShelfLibrary.books s
  ∧ CodeShelfLibrary.book_hash_table r.2
    = CodeShelfLibrary.book_hash_table s.
Proof.
  intros s r Hin Hb.
  pose proof (consistent_run ops) as Hc. pose proof (ledger_ok_run ops) as Hl.
  fold s in Hc, Hl.
  pose proof (in_registry_lt _ _ _ Hc Hin) as Hlt.
  destruct (l_borrowed _ Hl _ _ Hin Hb) as [r0 Er0].
  destruct (l_table _ Hl _ _ Er0) as (Hr0 & _).
  assert (r0 < length (CodeShelfLibrary.record_objs s))%nat as Hlt0
    by (by apply (proj1 (Forall_forall _ _) (l_records _ Hl))).
  pose proof Hin as Hsearch.
  apply (in_registry_search _ _ _ Hc) in Hsearch.
  rewrite <- (c_lookup _ Hc) in Hsearch.
  pose proof (consistent_return_book s book_id now Hc) as Hc'.
  pose proof (ledger_ok_return_book s book_id now Hc Hl) as Hl'.
  fold r in Hc', Hl'.
  pose proof (return_book_success _ _ now _ Hsearch Hb) as Er.
  fold r in Er. rewrite Er0 in Er.
  destruct r as [[ok found] s']. simpl in *.
  injection Er as -> _ Es'.
  assert (CodeShelfLibrary.book_objs s' !!! a
          = Book.set_returned (CodeShelfLibrary.book_objs s !!! a)) as Ea.
  { rewrite Es'. simpl. by rewrite list_lookup_total_alter_eq. }
  assert (in_registry s' book_id a) as Hin'.
  { destruct Hin as [Ha Eid]. rewrite Es'. split; [done|]. simpl.
    by rewrite list_lookup_total_alter_eq. }
  rewrite Ea. split_and!; try done; try (by rewrite Es').
  - intros x Hx. rewrite Es'. simpl. by rewrite list_lookup_total_alter_ne.
  - exists r0. split_and!; [done | |].
    + rewrite Es'. simpl. by rewrite list_lookup_total_alter_eq.
    + intros x Hx. rewrite Es'. simpl.
      by rewrite list_lookup_total_alter_ne.
  - rewrite Es'. simpl. apply lookup_delete_eq.
  - apply elem_of_nil_inv. intros x [[Hop Hid] Hx]%list_elem_of_filter.
    pose proof (l_open _ Hl' _ Hx Hop) as Ex. rewrite Hid in Ex.
    rewrite Es' in Ex. simpl in Ex. by rewrite lookup_delete_eq in Ex.
Qed.

Lemma list_alter_id_at {A} (f : A → A) (l : list A) (i : nat) :
  (∀ x, l !! i = Some x → f x = x) → alter f i l = l.
Proof.
  intros Hf. rewrite (list_alter_ext f id l l i); [|done|done].
  by apply list_alter_id.
Qed.

(** X17.  Borrowing an available book and returning it again takes the
    library back to where it was, but for the history and the waitlist: the
    [Book] objects, the registry, the hash table and the open-loan table
    are as before the borrow, and the history has one more record, closed,
    on top.  The waitlist is as before only if nobody was waiting for the
    id: otherwise the return serves the first request waiting for it, which
    leaves the queue. *)
Theorem borrow_then_return_restores `{PyHash} {L : PyLower}
    (ops : list CodeShelfLibrary.op) (book_id borrower : string)
    (now1 now2 now3 : Z) (a : nat) :
  let s := CodeShelfLibrary.run ops in
  let s1 := (CodeShelfLibrary.borrow_book s book_id borrower now1 now2).2 in
  let r := CodeShelfLibrary.return_book s1 book_id now3 in
  in_registry s book_id a →
  Book.is_borrowed (CodeShelfLibrary.book_objs s !!! a) = false →
  r.1.1 = true
  ∧ CodeShelfLibrary.book_objs r.2 = CodeShelfLibrary.book_objs s
  ∧ CodeShelfLibrary.books r.2 = CodeShelfLibrary.books s
  ∧ CodeShelfLibrary.book_hash_table r.2
    = CodeShelfLibrary.book_hash_table s
  ∧ CodeShelfLibrary.borrowed_books r.2 = CodeShelfLibrary.borrowed_books s
  ∧ CodeShelfLibrary.display_borrow_history r.2
    = BorrowRecord.mk a borrower now2 (Some now3)
      :: CodeShelfLibrary.display_borrow_history s
  ∧ (r.1.2, CodeShelfLibrary.waitlist r.2)
    = CodeShelfLibrary.check_waitlist (CodeShelfLibrary.waitlist s) book_id
  ∧ (none_waiting book_id (Queue.items (CodeShelfLibrary.waitlist s)) →
     r.1.2 = None
     ∧ CodeShelfLibrary.waitlist r.2 = CodeShelfLibrary.waitlist s)
  ∧ (∀ before entry after,
       Queue.items (CodeShelfLibrary.waitlist s)
       = before ++ entry :: after →
       none_waiting book_id before →
       WaitlistEntry.book_id entry = book_id →
       r.1.2 = Some entry
       ∧ CodeShelfLibrary.waitlist r.2 = Queue.mk (before ++ after)).
Proof.
  intros s s1 r Hin Hb.
  pose proof (consistent_run ops) as Hc. pose proof (ledger_ok_run ops) as Hl.
  fold s in Hc, Hl.
  pose proof (in_registry_lt _ _ _ Hc Hin) as Hlt.
  pose proof (not_borrowed_no_loan _ _ _ Hc Hl Hin Hb) as Hfree.
  pose proof Hin as Hsearch.
  apply (in_registry_search _ _ _ Hc) in Hsearch.
  rewrite <- (c_lookup _ Hc) in Hsearch.
  assert (∀ x, x ∈ Stack.get_all_items (CodeShelfLibrary.borrow_history s) →
               (x < length (CodeShelfLibrary.record_objs s))%nat) as Hold.
  { intros x Hx. by apply (proj1 (Forall_forall _ _) (l_records _ Hl)). }
  unfold r, s1.
  rewrite (borrow_book_success _ _ _ _ _ _ Hsearch Hb). simpl.
  erewrite (return_book_success _ book_id now3 a); [| exact Hsearch |];
    simpl.
  2:{ by rewrite list_lookup_total_alter_eq. }
  rewrite lookup_insert_eq.
  split_and!; try done.
  - rewrite list_alter_alter_eq. apply list_alter_id_at.
    intros b Eb.
    pose proof (proj1 (Forall_lookup _ _) (flags_ok_run ops) a b Eb) as Hf.
    rewrite (list_lookup_total_correct _ _ _ Eb) in Hb.
    destruct Hf as [(Hf & _)|(_ & Hby & Hdate)]; [congruence|].
    destruct b. simpl in *. by subst.
  - by apply delete_insert_id.
  - erewrite (display_borrow_history_push _ _
                (Stack.get_all_items (CodeShelfLibrary.borrow_history s))
                [length (CodeShelfLibrary.record_objs s)]); [|done|done].
    simpl.
    rewrite list_lookup_total_alter_eq by (rewrite length_app; simpl; lia).
    rewrite list_lookup_total_middle by done. simpl. f_equal.
    apply display_old. intros x Hx%Hold.
    rewrite list_lookup_total_alter_ne by lia.
    by rewrite lookup_total_app_l.
  - by destruct (CodeShelfLibrary.check_waitlist _ _).
  - intros Hnone. by rewrite (check_waitlist_none _ _ Hnone).
  - intros before entry after E Hbefore He.
    by rewrite (check_waitlist_first _ _ _ _ _ E Hbefore He).
Qed.

(** X18.  [return_book] fails without touching anything: in a state reached
    from the empty library, returning an id the registry does not hold, or
    the id of a book that is not borrowed, answers [False], prints no
    notice and leaves the whole state, waitlist included, as it was. *)
Theorem return_failures_atomic `{PyHash} {L : PyLower}
    (ops : list CodeShelfLibrary.op) (book_id : string) (now : Z) :
  let s := CodeShelfLibrary.run ops in
  (book_id ∉ registry_ids s →
   CodeShelfLibrary.return_book s book_id now = (false, None, s))
  ∧ (∀ a, in_registry s book_id a →
          Book.is_borrowed (CodeShelfLibrary.book_objs s !!! a) = false →
          CodeShelfLibrary.return_book s book_id now = (false, None, s)).
Proof.
  intros s. pose proof (consistent_run ops) as Hc. fold s in Hc. split.
  - intros Hk%not_in_registry_search. rewrite <- (c_lookup _ Hc) in Hk.
    by apply return_book_not_found.
  - intros a Hin%(in_registry_search _ _ _ Hc) Hb.
    rewrite <- (c_lookup _ Hc) in Hin.
    by apply (return_book_not_borrowed _ _ _ a).
Qed.

(** X19.  Listing the books sorts the registry for good, and listing again
    with the same key changes nothing more; listing by title and then by
    author leaves the books sorted by author, with the books of one author
    in title order (the second sort is stable); the books listed are always
    the books of the registry; and the case of the ASCII letters of the
    sort key does not matter. *)
Theorem display_all_books_resorts {L : PyLower} (s : CodeShelfLibrary.t)
    (sort_by : string) :
  CodeShelfLibrary.display_all_books
    (CodeShelfLibrary.display_all_books s sort_by) sort_by
  = CodeShelfLibrary.display_all_books s sort_by
  ∧ LinkedList.get_all_books
      (CodeShelfLibrary.books (CodeShelfLibrary.display_all_books s sort_by))
    ≡ₚ LinkedList.get_all_books (CodeShelfLibrary.books s)
  ∧ (let h := CodeShelfLibrary.book_objs s in
     let listed :=
       LinkedList.get_all_books
         (CodeShelfLibrary.books
            (CodeShelfLibrary.display_all_books
               (CodeShelfLibrary.display_all_books s "title") "author")) in
     StronglySorted (key_le (LinkedList.author_key h)) listed
     ∧ ∀ k, StronglySorted (key_le (LinkedList.title_key h))
              (filter (λ a, LinkedList.author_key h a = k) listed))
  ∧ (∀ sort_by', same_ignoring_case sort_by sort_by' = true →
                 CodeShelfLibrary.display_all_books s sort_by'
                 = CodeShelfLibrary.display_all_books s sort_by).
Proof.
  split_and!.
  - unfold CodeShelfLibrary.display_all_books.
    destruct (String.eqb (lower sort_by) "title") eqn:E1.
    + unfold CodeShelfLibrary.set_books. simpl.
      by rewrite sort_by_title_idemp.
    + destruct (String.eqb (lower sort_by) "author") eqn:E2; [|done].
      unfold CodeShelfLibrary.set_books. simpl.
      by rewrite sort_by_author_idemp.
  - unfold CodeShelfLibrary.display_all_books, LinkedList.get_all_books.
    destruct (String.eqb (lower sort_by) "title"); simpl.
    { rewrite head_sort_by_title. apply list_sort_perm. }
    destruct (String.eqb (lower sort_by) "author"); simpl; [|done].
    rewrite head_sort_by_author. apply list_sort_perm.
  - intros h listed.
    assert (listed
            = list_sort (LinkedList.author_key h)
                (list_sort (LinkedList.title_key h)
                   (LinkedList.head (CodeShelfLibrary.books s)))) as ->.
    { unfold listed, LinkedList.get_all_books,
        CodeShelfLibrary.display_all_books.
      rewrite lower_title, lower_author. simpl.
      by rewrite head_sort_by_author, head_sort_by_title. }
    split; [apply list_sort_sorted|].
    intros k. rewrite list_sort_stable.
    apply strongly_sorted_filter, list_sort_sorted.
  - intros sort_by' E. unfold CodeShelfLibrary.display_all_books.
    by rewrite (same_ignoring_case_lower _ _ E).
Qed.

(** X20.  [display_waitlist] lists the waiting requests front first, one
    entry per request, with the requester, the id and the date of the
    request; in a state reached from the empty library the title shown is
    the title of the registry's book for the id, and [Unknown Book] when the
    registry no longer holds the id. *)
Theorem display_waitlist_lists_queue `{PyHash} {L : PyLower}
    (ops : list CodeShelfLibrary.op) :
  let s := CodeShelfLibrary.run ops in
  length (CodeShelfLibrary.display_waitlist s)
  = Queue.size (CodeShelfLibrary.waitlist s)
  ∧ ∀ i entry,
      Queue.get_all_items (CodeShelfLibrary.waitlist s) !! i = Some entry →
      ∃ shown,
        CodeShelfLibrary.display_waitlist s !! i
        = Some (WaitlistEntry.user_name entry, shown,
                WaitlistEntry.book_id entry, WaitlistEntry.request_date entry)
        ∧ (WaitlistEntry.book_id entry ∉ registry_ids s →
           shown = "Unknown Book")
        ∧ (∀ a, in_registry s (WaitlistEntry.book_id entry) a →
                shown = Book.title (CodeShelfLibrary.book_objs s !!! a)).
Proof.
  intros s. pose proof (consistent_run ops) as Hc. fold s in Hc.
  unfold CodeShelfLibrary.display_waitlist. split.
  - by rewrite length_fmap.
  - intros i entry Ei. rewrite list_lookup_fmap, Ei. simpl.
    eexists. split; [reflexivity|]. rewrite (c_lookup _ Hc). split.
    + intros Hk%not_in_registry_search. by rewrite Hk.
    + intros a Ha%(in_registry_search _ _ _ Hc). by rewrite Ha.
Qed.

Lemma search_title_nodes_ext {L : PyLower} (h h' : list Book.t)
    title l results :
  (∀ a, Book.title (h' !!! a) = Book.title (h !!! a)) →
  LinkedList.search_title_nodes h' title l results
  = LinkedList.search_title_nodes h title l results.
Proof.
  intros Hsame. revert results.
  induction l as [|n l IH]; intros results; simpl; [done|].
  by rewrite Hsame, !IH.
Qed.

Lemma title_alter (h : list Book.t) (f : Book.t → Book.t) i a :
  (∀ b, Book.title (f b) = Book.title b) →
  Book.title (alter f i h !!! a) = Book.title (h !!! a).
Proof.
  intros Hf. rewrite list_lookup_total_alter.
  case_decide as Hd; [|done]. destruct Hd as [-> _]. apply Hf.
Qed.

(** X21.  The engine's [search_by_title] is a view of the registry: it
    returns the matching books in the registry's current order, so after a
    listing by title the results come sorted by title; and borrowing or
    returning a book, whatever the outcome, does not change the results of
    any search. *)
Theorem search_by_title_is_a_view `{PyHash} {L : PyLower}
    (s : CodeShelfLibrary.t) (title book_id borrower : string)
    (now1 now2 now3 : Z) :
  CodeShelfLibrary.search_by_title s title
  = filter
      (λ a, str_in (lower title)
              (LinkedList.title_key (CodeShelfLibrary.book_objs s) a) = true)
      (LinkedList.get_all_books (CodeShelfLibrary.books s))
  ∧ StronglySorted
      (key_le (LinkedList.title_key (CodeShelfLibrary.book_objs s)))
      (CodeShelfLibrary.search_by_title
         (CodeShelfLibrary.display_all_books s "title") title)
  ∧ CodeShelfLibrary.search_by_title
      (CodeShelfLibrary.borrow_book s book_id borrower now1 now2).2 title
    = CodeShelfLibrary.search_by_title s title
  ∧ CodeShelfLibrary.search_by_title
      (CodeShelfLibrary.return_book s book_id now3).2 title
    = CodeShelfLibrary.search_by_title s title.
Proof.
  unfold CodeShelfLibrary.search_by_title, LinkedList.search_by_title.
  split_and!.
  - by rewrite search_title_nodes_filter.
  - rewrite search_title_nodes_filter. simpl.
    apply strongly_sorted_filter.
    unfold CodeShelfLibrary.display_all_books.
    rewrite lower_title. simpl.
    rewrite head_sort_by_title. apply list_sort_sorted.
  - destruct (borrow_book_cases s book_id borrower now1 now2)
      as [[_ ->]|[(a & _ & _ & ->)|(a & _ & _ & ->)]]; try done.
    simpl. apply search_title_nodes_ext. intros x. by apply title_alter.
  - destruct (return_book_cases s book_id now3) as [->|(a & _ & _ & ->)];
      [done|].
    simpl. apply search_title_nodes_ext. intros x. by apply title_alter.
Qed.

(** ** The further theorems at the scenarios *)

Lemma queue_first_in_first_out_witness :
  Queue.dequeue (Queue.enqueue (@Queue.init WaitlistEntry.t) waiting_B2)
  = (Some waiting_B2, Queue.init)
  ∧ Queue.dequeue (Queue.enqueue three_waiting waiting_B2)
    = (Some waiting_A1,
       Queue.enqueue (Queue.mk [waiting_B2; waiting_A3]) waiting_B2).
Proof.
  split.
  - apply (proj1 (queue_first_in_first_out Queue.init waiting_B2 [])).
    reflexivity.
  - apply (proj1 (proj2 (queue_first_in_first_out three_waiting
                           waiting_B2 []))).
    reflexivity.
Defined.

(** The demo library, listed by title: a search for [BOOK] returns what a
    search for [book] returns, the four books in title order; a search for
    [ALPHA b] returns the one book whose title is [Alpha Book]. *)
Lemma search_by_title_matches_witness :
  let h := CodeShelfLibrary.book_objs demo_library in
  let l := CodeShelfLibrary.books demo_library in
  LinkedList.search_by_title (L := ascii_text_lower) h l "BOOK"
  = LinkedList.search_by_title (L := ascii_text_lower) h l "book"
  ∧ LinkedList.search_by_title (L := ascii_text_lower) h l "book"
    = [1; 2; 3; 0]%nat
  ∧ (1%nat ∈ LinkedList.search_by_title (L := ascii_text_lower) h l "ALPHA b")
  ∧ (0%nat ∉ LinkedList.search_by_title (L := ascii_text_lower) h l "ALPHA b").
Proof.
  intros h l.
  pose proof (search_by_title_matches (L := ascii_text_lower) h l "book")
    as (_ & _ & _ & Hcase & _).
  pose proof (search_by_title_matches (L := ascii_text_lower) h l "ALPHA b")
    as (_ & _ & _ & _ & Hascii).
  split_and!.
  - apply Hcase. by vm_compute.
  - by vm_compute.
  - apply Hascii; [by vm_compute | by vm_compute |].
    split; [vm_compute; apply list_elem_of_here | by vm_compute].
  - intros [_ Hin]%Hascii; [| by vm_compute | by vm_compute].
    vm_compute in Hin. discriminate Hin.
Defined.

(** Listing the demo books by [TITLE] is listing them by [title]. *)
Lemma display_all_books_resorts_witness :
  CodeShelfLibrary.display_all_books (L := ascii_text_lower)
    (scenario_run demo_ops) "TITLE"
  = demo_library
  ∧ LinkedList.get_all_books (CodeShelfLibrary.books demo_library)
    = [1; 2; 3; 0]%nat.
Proof.
  pose proof (display_all_books_resorts (L := ascii_text_lower)
                (scenario_run demo_ops) "title")
    as (_ & _ & _ & Hcase).
  split.
  - rewrite (Hcase "TITLE") by (by vm_compute). by vm_compute.
  - by vm_compute.
Defined.

Lemma linked_list_remove_first_witness :
  LinkedList.remove_book (CodeShelfLibrary.book_objs busy_library)
    (CodeShelfLibrary.books busy_library) "D002"
  = (true, LinkedList.mk [0; 2; 3]%nat 3)
  ∧ (LinkedList.remove_book (CodeShelfLibrary.book_objs busy_library)
       (CodeShelfLibrary.books busy_library) "D009").2
    = CodeShelfLibrary.books busy_library.
Proof.
  pose proof (linked_list_remove_first
                (CodeShelfLibrary.book_objs busy_library)
                (CodeShelfLibrary.books busy_library) "D002")
    as (_ & _ & Hfirst).
  pose proof (linked_list_remove_first
                (CodeShelfLibrary.book_objs busy_library)
                (CodeShelfLibrary.books busy_library) "D009")
    as (_ & Hnone & _).
  split.
  - rewrite (Hfirst [0%nat] 1%nat [2; 3]%nat); [by vm_compute | by vm_compute | |
                                                 by vm_compute].
    vm_compute. intros Hin. apply elem_of_cons in Hin as [Hin|Hin];
      [discriminate Hin | by apply elem_of_nil in Hin].
  - apply Hnone. by vm_compute.
Defined.

Lemma book_checkout_attributes_agree_witness :
  CodeShelfLibrary.book_objs busy_library !! 0%nat = Some zebra_borrowed
  ∧ is_Some (Book.borrowed_by zebra_borrowed)
  ∧ is_Some (Book.borrow_date zebra_borrowed).
Proof.
  unfold busy_library.
  assert (CodeShelfLibrary.book_objs (scenario_run busy_ops) !! 0%nat
          = Some zebra_borrowed) as E by (by vm_compute).
  destruct (book_checkout_attributes_agree (H := length_hash)
                (L := ascii_text_lower) busy_ops
              0%nat zebra_borrowed E) as [[Hby _] [Hdate _]].
  split_and!; [exact E | by apply Hby | by apply Hdate].
Defined.

Lemma book_descriptions_never_change_witness :
  (0 < length (CodeShelfLibrary.book_objs
                 (scenario_run demo_ops)))%nat
  ∧ Book.title (CodeShelfLibrary.book_objs busy_library !!! 0%nat)
    = Book.title
        (CodeShelfLibrary.book_objs (scenario_run demo_ops) !!! 0%nat).
Proof.
  unfold busy_library, busy_ops.
  assert (0 < length (CodeShelfLibrary.book_objs
                        (scenario_run demo_ops)))%nat
    as Hlt by (vm_compute; lia).
  split; [exact Hlt|].
  exact (proj1 (proj2 (proj2
           (book_descriptions_never_change (H := length_hash)
                (L := ascii_text_lower) demo_ops
              [CodeShelfLibrary.BorrowBook "D001" "User_D001" 10 11]
              0%nat Hlt)))).
Defined.

Lemma open_loan_table_names_the_loans_witness :
  CodeShelfLibrary.borrowed_books busy_library !! "D001" = Some 0%nat
  ∧ Book.borrowed_by
      (CodeShelfLibrary.book_objs busy_library
         !!! BorrowRecord.book
               (CodeShelfLibrary.record_objs busy_library !!! 0%nat))
    = Some (BorrowRecord.borrower
              (CodeShelfLibrary.record_objs busy_library !!! 0%nat)).
Proof.
  unfold busy_library.
  assert (CodeShelfLibrary.borrowed_books (scenario_run busy_ops) !! "D001"
          = Some 0%nat) as E by (by vm_compute).
  split; [exact E|].
  exact (proj2 (proj2 (proj2 (proj2
           (proj2 (open_loan_table_names_the_loans (H := length_hash)
                (L := ascii_text_lower)
                     busy_ops "D001") 0%nat E))))).
Defined.

Lemma add_book_registers_witness :
  ("D009" ∉ registry_ids busy_library)
  ∧ (CodeShelfLibrary.add_book (H := length_hash) busy_library
       "D009" "New Book" "New Author" 2024).1 = true.
Proof.
  unfold busy_library.
  assert ("D009" ∉ registry_ids
                     (scenario_run busy_ops))
    as Hnot.
  { vm_compute. intros Hin.
    repeat (apply elem_of_cons in Hin as [Hin|Hin]; [discriminate Hin|]).
    by apply elem_of_nil in Hin. }
  split; [exact Hnot|].
  exact (proj1 (add_book_registers (H := length_hash)
                (L := ascii_text_lower) busy_ops
                  "D009" "New Book" "New Author" 2024 Hnot)).
Defined.

Lemma remove_book_unregisters_witness :
  in_registry busy_library "D002" 1%nat
  ∧ (CodeShelfLibrary.remove_book (H := length_hash) busy_library "D002").1
    = true
  ∧ CodeShelfLibrary.search_by_id (H := length_hash)
      (CodeShelfLibrary.remove_book (H := length_hash) busy_library "D002").2
      "D002" = None.
Proof.
  unfold busy_library.
  assert (in_registry (scenario_run busy_ops) "D002" 1%nat) as Hin.
  { split; [vm_compute | by vm_compute].
    apply list_elem_of_further, list_elem_of_here. }
  assert (Book.is_borrowed
            (CodeShelfLibrary.book_objs (scenario_run busy_ops) !!! 1%nat)
          = false) as Hb by (by vm_compute).
  destruct (remove_book_unregisters (H := length_hash)
                (L := ascii_text_lower) busy_ops "D002"
              1%nat Hin Hb) as (H1 & H2 & _).
  split_and!; [exact Hin | exact H1 | exact H2].
Defined.

Lemma borrow_book_checks_out_witness :
  in_registry busy_library "D002" 1%nat
  ∧ (CodeShelfLibrary.borrow_book (H := length_hash) busy_library
       "D002" "Bob" 20 21).1 = true
  ∧ Book.borrowed_by
      (CodeShelfLibrary.book_objs
         (CodeShelfLibrary.borrow_book (H := length_hash) busy_library
            "D002" "Bob" 20 21).2 !!! 1%nat) = Some "Bob".
Proof.
  unfold busy_library.
  assert (in_registry (scenario_run busy_ops) "D002" 1%nat) as Hin.
  { split; [vm_compute | by vm_compute].
    apply list_elem_of_further, list_elem_of_here. }
  assert (Book.is_borrowed
            (CodeShelfLibrary.book_objs (scenario_run busy_ops) !!! 1%nat)
          = false) as Hb by (by vm_compute).
  destruct (borrow_book_checks_out (H := length_hash)
                (L := ascii_text_lower) busy_ops "D002" "Bob"
              20 21 1%nat Hin Hb) as (H1 & _ & _ & H4 & _).
  split_and!; [exact Hin | exact H1 | exact H4].
Defined.

Lemma return_book_checks_in_witness :
  in_registry busy_library "D001" 0%nat
  ∧ (CodeShelfLibrary.return_book (H := length_hash) busy_library
       "D001" 30).1.1 = true
  ∧ Book.is_borrowed
      (CodeShelfLibrary.book_objs
         (CodeShelfLibrary.return_book (H := length_hash) busy_library
            "D001" 30).2 !!! 0%nat) = false.
Proof.
  unfold busy_library.
  assert (in_registry (scenario_run busy_ops) "D001" 0%nat) as Hin
    by (split; [vm_compute; apply list_elem_of_here | by vm_compute]).
  assert (Book.is_borrowed
            (CodeShelfLibrary.book_objs (scenario_run busy_ops) !!! 0%nat)
          = true) as Hb by (by vm_compute).
  destruct (return_book_checks_in (H := length_hash)
                (L := ascii_text_lower) busy_ops "D001" 30
              0%nat Hin Hb) as (H1 & _ & H3 & _).
  split_and!; [exact Hin | exact H1 | exact H3].
Defined.

(** In the busy library nobody waits: borrowing and returning [D002]
    restores the books and the empty queue.  In the library where [u3]
    waits for [A], borrowing and returning [A] serves [u3]: the queue is
    empty afterwards. *)
Lemma borrow_then_return_restores_witness :
  in_registry busy_library "D002" 1%nat
  ∧ CodeShelfLibrary.book_objs
      (CodeShelfLibrary.return_book (H := length_hash)
         (CodeShelfLibrary.borrow_book (H := length_hash) busy_library
            "D002" "Bob" 20 21).2 "D002" 30).2
    = CodeShelfLibrary.book_objs busy_library
  ∧ Queue.items (CodeShelfLibrary.waitlist leftover_library)
    = [WaitlistEntry.mk "A" "u3" 5]
  ∧ (CodeShelfLibrary.return_book (H := length_hash)
       (CodeShelfLibrary.borrow_book (H := length_hash) leftover_library
          "A" "u4" 8 9).2 "A" 10).1.2
    = Some (WaitlistEntry.mk "A" "u3" 5)
  ∧ CodeShelfLibrary.waitlist
      (CodeShelfLibrary.return_book (H := length_hash)
         (CodeShelfLibrary.borrow_book (H := length_hash) leftover_library
            "A" "u4" 8 9).2 "A" 10).2
    = Queue.mk [].
Proof.
  unfold busy_library, leftover_library.
  assert (in_registry (scenario_run leftover_ops) "A" 0%nat) as Hin'
    by (split; [vm_compute; apply list_elem_of_here | by vm_compute]).
  assert (Book.is_borrowed
            (CodeShelfLibrary.book_objs (scenario_run leftover_ops) !!! 0%nat)
          = false) as Hb' by (by vm_compute).
  assert (Queue.items (CodeShelfLibrary.waitlist (scenario_run leftover_ops))
          = [] ++ WaitlistEntry.mk "A" "u3" 5 :: []) as Ew
    by (by vm_compute).
  destruct (borrow_then_return_restores (H := length_hash)
                (L := ascii_text_lower) leftover_ops
              "A" "u4" 8 9 10 0%nat Hin' Hb')
    as (_ & _ & _ & _ & _ & _ & _ & _ & Hserved).
  destruct (Hserved _ _ _ Ew (Forall_nil_2 _) eq_refl) as [Hnotice Hqueue].
  assert (in_registry (scenario_run busy_ops) "D002" 1%nat) as Hin.
  { split; [vm_compute | by vm_compute].
    apply list_elem_of_further, list_elem_of_here. }
  assert (Book.is_borrowed
            (CodeShelfLibrary.book_objs (scenario_run busy_ops) !!! 1%nat)
          = false) as Hb by (by vm_compute).
  destruct (borrow_then_return_restores (H := length_hash)
                (L := ascii_text_lower) busy_ops
              "D002" "Bob" 20 21 30 1%nat Hin Hb) as (_ & H2 & _).
  split_and!; [exact Hin | exact H2 | exact Ew | exact Hnotice | exact Hqueue].
Defined.

Lemma return_failures_atomic_witness :
  CodeShelfLibrary.return_book (H := length_hash) busy_library "D009" 30
  = (false, None, busy_library)
  ∧ CodeShelfLibrary.return_book (H := length_hash) busy_library "D002" 30
    = (false, None, busy_library).
Proof.
  unfold busy_library.
  destruct (return_failures_atomic (H := length_hash)
                (L := ascii_text_lower) busy_ops "D009" 30)
    as [Hmissing _].
  destruct (return_failures_atomic (H := length_hash)
                (L := ascii_text_lower) busy_ops "D002" 30)
    as [_ Havailable].
  split.
  - apply Hmissing. vm_compute. intros Hin.
    repeat (apply elem_of_cons in Hin as [Hin|Hin]; [discriminate Hin|]).
    by apply elem_of_nil in Hin.
  - apply (Havailable 1%nat); [|by vm_compute].
    split; [vm_compute | by vm_compute].
    apply list_elem_of_further, list_elem_of_here.
Defined.

Lemma display_waitlist_lists_queue_witness :
  Queue.get_all_items (CodeShelfLibrary.waitlist orphan_library) !! 0%nat
  = Some (WaitlistEntry.mk "A" "u3" 5)
  ∧ ("A" ∉ registry_ids orphan_library)
  ∧ CodeShelfLibrary.display_waitlist (H := length_hash) orphan_library
      !! 0%nat
    = Some ("u3", "Unknown Book", "A", 5).
Proof.
  unfold orphan_library.
  assert (Queue.get_all_items
            (CodeShelfLibrary.waitlist
               (scenario_run orphan_ops)) !! 0%nat
          = Some (WaitlistEntry.mk "A" "u3" 5)) as E by (by vm_compute).
  assert ("A" ∉ registry_ids
                  (scenario_run orphan_ops))
    as Hnot by (vm_compute; by intros Hin%elem_of_nil).
  destruct (proj2 (display_waitlist_lists_queue (H := length_hash)
                (L := ascii_text_lower)
                     orphan_ops) 0%nat _ E) as (shown & Hshown & Hgone & _).
  split_and!; [exact E | exact Hnot |].
  rewrite Hshown, (Hgone Hnot). reflexivity.
Defined.
